(** * Agentic memory server: storage, search, similarity and text optimisation

    A shallow embedding of the TypeScript sources of the memory server
    (the SQLite-backed store, the multi-strategy search, the relationship
    detector and the memory optimizer) together with the properties that
    the specification states about them.

    Conventions of the embedding:
    - a JavaScript string is the list of its UTF-16 code units ([list N]);
    - a JavaScript number is the rational that the double denotes ([Q]);
      the relationship detector and its text processor round the result of
      every operation and every decimal literal ([Rounding]), to the
      nearest double in the arithmetic [binary64] and not at all in
      [exact_arithmetic]; the relevance scores of the search are integers,
      which doubles hold exactly;
    - an optional argument or field ([x?: T]) is an [option];
    - the SQLite database is a record of tables, each table the list of its
      rows in rowid order; every store operation passes the database
      explicitly and returns the new one;
    - a JavaScript exception is the [Err] result of an operation. *)

From Stdlib Require Import ZArith QArith Qminmax Qabs List Bool Lia Lqa
  String Ascii Sorted.
From stdpp Require Import base gmap sets list.

Local Open Scope Z_scope.

(** ** JavaScript strings *)

Abbreviation jsstring := (list N).

(** The code units of an ASCII literal. *)
Definition js (s : string) : jsstring :=
  map N_of_ascii (list_ascii_of_string s).
Arguments js : simpl never.

(** [\s] of a regular expression and the characters removed by
    [String.prototype.trim]: ECMAScript WhiteSpace and LineTerminator. *)
Definition is_space (c : N) : bool :=
  ((9 <=? c) && (c <=? 13) || (c =? 32) || (c =? 160) || (c =? 5760)
   || (8192 <=? c) && (c <=? 8202) || (c =? 8232) || (c =? 8233)
   || (c =? 8239) || (c =? 8287) || (c =? 12288) || (c =? 65279))%N.

Definition SPACE : N := 32%N.
Definition NEWLINE : N := 10%N.

Fixpoint trimStart (s : jsstring) : jsstring :=
  match s with
  | c :: r => if is_space c then trimStart r else s
  | [] => []
  end.

Definition trimEnd (s : jsstring) : jsstring := rev (trimStart (rev s)).

(** [s.trim()] *)
Definition trim (s : jsstring) : jsstring := trimEnd (trimStart s).

(** Truthiness of a string value: the empty string is falsy. *)
Definition truthy (s : jsstring) : bool :=
  match s with [] => false | _ => true end.

(** ** Sorting with a numeric comparator

    [arr.sort((a, b) => b.key - a.key)]: the sort of ECMAScript is stable,
    and for a comparator that is the difference of two numeric keys its
    result is the stable arrangement of the array by decreasing key. *)
Section SortDesc.
Context {A : Type} (key : A -> Q).

(** [x] stood before every element of [l]: it goes after the elements
    whose key is strictly greater, and before those of equal key. *)
Fixpoint insert_desc (x : A) (l : list A) : list A :=
  match l with
  | [] => [x]
  | y :: r => if Qle_bool (key y) (key x) then x :: l
              else y :: insert_desc x r
  end.

Fixpoint sort_desc (l : list A) : list A :=
  match l with
  | [] => []
  | x :: r => insert_desc x (sort_desc r)
  end.

(** Sorted by decreasing key. *)
Fixpoint sorted_desc (l : list A) : Prop :=
  match l with
  | [] => True
  | x :: r => (forall y, In y r -> (key y <= key x)%Q) /\ sorted_desc r
  end.
End SortDesc.

(** ** Character classes and case *)

(** [\w] without the unicode flag: [[A-Za-z0-9_]]. *)
Definition is_word_char (c : N) : bool :=
  ((48 <=? c) && (c <=? 57) || (65 <=? c) && (c <=? 90) || (c =? 95)
   || (97 <=? c) && (c <=? 122))%N.

(** [[A-Z]] *)
Definition is_upper (c : N) : bool := ((65 <=? c) && (c <=? 90))%N.

(** [\d] *)
Definition is_digit (c : N) : bool := ((48 <=? c) && (c <=? 57))%N.

(** Lower case of one code unit. The mapping is written out for Basic
    Latin and the Latin-1 Supplement, where it is one code unit to one code
    unit; the case tables of the other Unicode blocks are not part of this
    model and their code units are left as they are. *)
Definition lower_char (c : N) : N :=
  (if is_upper c then c + 32
   else if (192 <=? c) && (c <=? 222) && negb (c =? 215) then c + 32
   else c)%N.

(** [s.toLowerCase()] *)
Definition toLowerCase (s : jsstring) : jsstring := map lower_char s.

(** Two code units that a regular expression with the [i] flag (and no [u]
    flag) identifies, when the first one is an ASCII letter or symbol of
    the pattern: canonicalisation never maps a code unit above 127 into
    ASCII, so only the two ASCII cases of a letter match it. *)
Definition ci_eq (p c : N) : bool :=
  ((c <? 128) && (lower_char p =? lower_char c))%N.

(** [s.startsWith(p)], compared case-insensitively as above. *)
Fixpoint ci_prefix (p s : jsstring) : bool :=
  match p, s with
  | [], _ => true
  | a :: p', c :: s' => ci_eq a c && ci_prefix p' s'
  | _ :: _, [] => false
  end.

Definition jseqb (a b : jsstring) : bool := bool_decide (a = b).

(** [parts.join(sep)] *)
Fixpoint join (sep : jsstring) (parts : list jsstring) : jsstring :=
  match parts with
  | [] => []
  | [p] => p
  | p :: rest => p ++ sep ++ join sep rest
  end.

(** [s.split(re)] for a regular expression [re = [class]+] that matches the
    non-empty runs of the characters of [is_sep]: the pieces between the
    runs, with an empty piece where the string starts or ends with a run. *)
Fixpoint split_runs_from (is_sep : N -> bool) (cur : jsstring) (in_run : bool)
    (s : jsstring) : list jsstring :=
  match s with
  | [] => [rev cur]
  | c :: r =>
      if is_sep c then
        if in_run then split_runs_from is_sep [] true r
        else rev cur :: split_runs_from is_sep [] true r
      else split_runs_from is_sep (c :: cur) false r
  end.

Definition split_runs (is_sep : N -> bool) (s : jsstring) : list jsstring :=
  split_runs_from is_sep [] false s.

(** [haystack.includes(needle)] *)
Fixpoint starts_with (p s : jsstring) : bool :=
  match p, s with
  | [], _ => true
  | a :: p', c :: s' => (a =? c)%N && starts_with p' s'
  | _ :: _, [] => false
  end.

Fixpoint includes (haystack needle : jsstring) : bool :=
  starts_with needle haystack ||
  match haystack with
  | [] => false
  | _ :: r => includes r needle
  end.

(** [arr.filter((x, index) => f(index, x))] *)
Fixpoint filter_index_from {A : Type} (f : nat -> A -> bool) (i : nat)
    (l : list A) : list A :=
  match l with
  | [] => []
  | x :: r => if f i x then x :: filter_index_from f (S i) r
              else filter_index_from f (S i) r
  end.

Definition filter_index {A : Type} (f : nat -> A -> bool) (l : list A)
  : list A := filter_index_from f 0%nat l.

(** ** Memory optimizer (memory-optimizer.ts) *)

Inductive CompressionLevel := minimal | balanced | aggressive.

(** The abbreviation table, in the insertion order that [Object.entries]
    follows. *)
Definition abbreviations : list (jsstring * jsstring) :=
  [ (js "configuration", js "config"); (js "implementation", js "impl");
    (js "application", js "app"); (js "environment", js "env");
    (js "development", js "dev"); (js "production", js "prod");
    (js "repository", js "repo"); (js "documentation", js "docs");
    (js "requirements", js "reqs"); (js "specification", js "spec");
    (js "performance", js "perf"); (js "optimization", js "opt");
    (js "management", js "mgmt"); (js "information", js "info");
    (js "technology", js "tech"); (js "framework", js "fw");
    (js "library", js "lib"); (js "service", js "svc");
    (js "server", js "srv"); (js "client", js "cli");
    (js "request", js "req"); (js "response", js "resp");
    (js "message", js "msg"); (js "session", js "sess");
    (js "transaction", js "txn"); (js "operation", js "op");
    (js "process", js "proc"); (js "system", js "sys");
    (js "network", js "net"); (js "security", js "sec");
    (js "encryption", js "enc"); (js "validation", js "val") ].

Definition fillerWords : list jsstring :=
  map js
    [ "the"; "a"; "an"; "and"; "or"; "but"; "in"; "on"; "at"; "to"; "for";
      "of"; "with"; "by"; "very"; "quite"; "really"; "just"; "only"; "also";
      "even"; "still"; "rather"; "pretty"; "fairly"; "somewhat"; "basically";
      "actually"; "literally"; "obviously"; "clearly"; "essentially";
      "generally"; "typically"; "usually"; "normally"; "please"; "thank";
      "thanks"; "hello"; "hi"; "hey"; "well"; "um"; "uh"; "oh" ]%string.

(** [fillerWords.has(w)] *)
Definition fillerWords_has (w : jsstring) : bool :=
  existsb (jseqb w) fillerWords.

(** [text.replace(/\s+/g, " ")]: every maximal run of white space becomes
    one space. [in_run] tells that the previous character was white space,
    whose run has already been replaced. *)
Fixpoint collapse_spaces_from (in_run : bool) (s : jsstring) : jsstring :=
  match s with
  | [] => []
  | c :: r =>
      if is_space c then
        if in_run then collapse_spaces_from true r
        else SPACE :: collapse_spaces_from true r
      else c :: collapse_spaces_from false r
  end.

Definition collapse_spaces (s : jsstring) : jsstring :=
  collapse_spaces_from false s.

(** The white-space run at the start of [s], cut after its last newline:
    [Some rest] when the run contains a newline, where [rest] is what
    follows that newline. This is where the greedy [\s*\n] ends. *)
Fixpoint after_last_newline_in_run (s : jsstring) : option jsstring :=
  match s with
  | [] => None
  | c :: r =>
      if is_space c then
        match after_last_newline_in_run r with
        | Some rest => Some rest
        | None => if (c =? NEWLINE)%N then Some r else None
        end
      else None
  end.

(** [text.replace(/\n\s*\n/g, "\n")], scanning from the left; [fuel]
    bounds the number of scanning steps and [length text] is always
    enough, since every step consumes at least one character. *)
Fixpoint squeeze_newlines_fuel (fuel : nat) (s : jsstring) : jsstring :=
  match fuel with
  | O => s
  | S fuel' =>
      match s with
      | [] => []
      | c :: r =>
          if (c =? NEWLINE)%N then
            match after_last_newline_in_run r with
            | Some rest => NEWLINE :: squeeze_newlines_fuel fuel' rest
            | None => c :: squeeze_newlines_fuel fuel' r
            end
          else c :: squeeze_newlines_fuel fuel' r
      end
  end.

Definition squeeze_newlines (s : jsstring) : jsstring :=
  squeeze_newlines_fuel (length s) s.

Definition minimalCompression (text : jsstring) : jsstring :=
  trim (squeeze_newlines (collapse_spaces text)).

(** ["\b"] after a match that ends in a word character: the rest of the
    text is empty or starts with a non-word character. *)
Definition boundary_after (rest : jsstring) : bool :=
  match rest with
  | [] => true
  | c :: _ => negb (is_word_char c)
  end.

(** [result.replace(new RegExp("\\b" + full + "\\b", "gi"), abbrev)] for a
    non-empty word [full] of letters. The text is scanned from the left;
    [prev_word] tells that the character before the current position is a
    word character (no ["\b"] here), and [skip] counts the characters of a
    match that are still to be passed over. *)
Fixpoint replace_word_from (full abbrev : jsstring) (skip : nat)
    (prev_word : bool) (s : jsstring) : jsstring :=
  match s with
  | [] => []
  | c :: r =>
      match skip with
      | S k => replace_word_from full abbrev k true r
      | O =>
          if negb prev_word && ci_prefix full s
             && boundary_after (skipn (length full) s)
          then abbrev ++ replace_word_from full abbrev (length full - 1) true r
          else c :: replace_word_from full abbrev 0 (is_word_char c) r
      end
  end.

Definition replace_word (full abbrev text : jsstring) : jsstring :=
  replace_word_from full abbrev 0 false text.

(** The number of white-space characters at the start of [s]. *)
Fixpoint count_spaces (s : jsstring) : nat :=
  match s with
  | c :: r => if is_space c then S (count_spaces r) else O
  | [] => O
  end.

(** [result.replace(new RegExp("\\b" + kw + "\\s+", "gi"), sym)] for a
    non-empty keyword [kw] of letters: the keyword at a word boundary
    together with the whole run of white space after it (at least one
    character) is replaced by [sym]. *)
Fixpoint replace_keyword_from (kw sym : jsstring) (skip : nat)
    (prev_word : bool) (s : jsstring) : jsstring :=
  match s with
  | [] => []
  | c :: r =>
      match skip with
      | S k => replace_keyword_from kw sym k false r
      | O =>
          let spaces := count_spaces (skipn (length kw) s) in
          if negb prev_word && ci_prefix kw s && (0 <? spaces)%nat
          then sym ++ replace_keyword_from kw sym (length kw + spaces - 1) false r
          else c :: replace_keyword_from kw sym 0 (is_word_char c) r
      end
  end.

Definition replace_keyword (kw sym text : jsstring) : jsstring :=
  replace_keyword_from kw sym 0 false text.

(** [word.toLowerCase().replace(/[^\w]/g, "")] *)
Definition cleanWord (word : jsstring) : jsstring :=
  filter (fun c => is_word_char c = true) (toLowerCase word).

Definition isImportantWord (word : jsstring) : bool :=
  let clean := cleanWord word in
  (3 <? length clean)%nat || existsb is_upper word || existsb is_digit word.

(** [x && isImportantWord(x)] for [x = words[i]], which is [undefined]
    outside of the array. *)
Definition important_at (words : list jsstring) (i : Z) : bool :=
  if i <? 0 then false
  else match nth_error words (Z.to_nat i) with
       | Some w => truthy w && isImportantWord w
       | None => false
       end.

(** The filter callback of [balancedCompression]. *)
Definition keepBalanced (words : list jsstring) (index : nat)
    (word : jsstring) : bool :=
  if fillerWords_has (cleanWord word) then
    if (Z.of_nat index =? 0) || (Z.of_nat index =? Z.of_nat (length words) - 1)
    then true
    else if important_at words (Z.of_nat index + 1) then true
    else if important_at words (Z.of_nat index - 1) then true
    else false
  else true.

Definition balancedCompression (text : jsstring) : jsstring :=
  let result := minimalCompression text in
  let result :=
    fold_left (fun acc '(full, abbrev) => replace_word full abbrev acc)
              abbreviations result in
  let words := split_runs is_space result in
  let filtered := filter_index (keepBalanced words) words in
  join [SPACE] filtered.

Definition aggressiveCompression (text : jsstring) : jsstring :=
  let result := balancedCompression text in
  let words := split_runs is_space result in
  let filtered :=
    filter (fun word => negb (fillerWords_has (cleanWord word)) = true) words in
  let result := join [SPACE] filtered in
  let result := replace_keyword (js "is") (js "=") result in
  let result := replace_keyword (js "has") (js ">") result in
  let result := replace_keyword (js "with") (js "+") result in
  let result := replace_keyword (js "and") (js "&") result in
  let result := replace_keyword (js "that") (js ":") result in
  replace_keyword (js "which") (js ":") result.

(** The result of [optimize]. Only the two text fields are modelled: the
    token counts come from an external tokenizer, and neither they nor the
    extracted keywords and entities influence [optimized]. *)
Record OptimizedMemoryContent := {
  original : jsstring;
  optimized : jsstring;
}.

(** [new MemoryOptimizer({compressionLevel: level}).optimize(text)] *)
Definition optimize (level : CompressionLevel) (text : jsstring)
  : OptimizedMemoryContent :=
  {| original := text;
     optimized := match level with
                  | minimal => minimalCompression text
                  | balanced => balancedCompression text
                  | aggressive => aggressiveCompression text
                  end |}.

(** ** Text processor: Jaccard similarity (text-processor.js) *)

(** [calculateSetSimilarity(set1, set2)]. The quotient of the two sizes is
    the exact rational; the text processor rounds it where it calls the
    function. *)
Definition calculateSetSimilarity `{Countable A} (set1 set2 : gset A) : Q :=
  if ((size set1 =? 0) && (size set2 =? 0))%nat then 1%Q
  else if ((size set1 =? 0) || (size set2 =? 0))%nat then 0%Q
  else
    let intersection : gset A := filter (fun x => x ∈ set2) set1 in
    let union : gset A := set1 ∪ set2 in
    (inject_Z (Z.of_nat (size intersection))
     / inject_Z (Z.of_nat (size union)))%Q.

(** ** Entities and relations (memory-types.ts) *)

Inductive EntityStatus := active | deprecated | archived | draft.

Definition EntityStatus_eqb (a b : EntityStatus) : bool :=
  match a, b with
  | active, active | deprecated, deprecated
  | archived, archived | draft, draft => true
  | _, _ => false
  end.

Record CrossReference := {
  memoryBranch : jsstring;
  entityNames : list jsstring;
}.

(** [keywordData] is the [_keywordData.keywords] array that the manager
    attaches before it calls the store, and [lastUpdated] a clock reading. *)
Record Entity := {
  name : jsstring;
  entityType : jsstring;
  observations : list jsstring;
  crossRefs : list CrossReference;
  status : option EntityStatus;
  statusReason : option jsstring;
  lastUpdated : option Z;
  keywordData : option (list jsstring);
}.

Record Relation := {
  from : jsstring;
  to : jsstring;
  relationType : jsstring;
}.

Record KnowledgeGraph := {
  graph_entities : list Entity;
  graph_relations : list Relation;
}.

(** ** JavaScript numbers

    A number of JavaScript is a double. Every finite double is a rational,
    and an operation of IEEE 754 returns the double nearest to the exact
    result, the one with the even significand when two are as near. The
    scores are far below the largest double, so the rounding leaves
    overflow aside. *)

(** What an arithmetic does to the exact result of an operation and to
    the exact value of a literal. *)
Class Rounding := { rnd : Q -> Q }.

(** No rounding. This instance is the default one: a property that does
    not name its arithmetic is about the exact values. *)
#[export] Instance exact_arithmetic : Rounding := {| rnd := fun x => x |}.

(** [2 ^ e] *)
Definition pow2 (e : Z) : Q :=
  if e <? 0 then (1 # Z.to_pos (2 ^ (- e)))%Q else inject_Z (2 ^ e).

(** The exponent of [x]: the [e] with [2 ^ e <= |x| < 2 ^ (e + 1)], for
    [x] other than zero. *)
Definition ilog2 (x : Q) : Z :=
  let e := Z.log2 (Z.abs (Qnum x)) - Z.log2 (Zpos (Qden x)) in
  if Qle_bool (pow2 e) (Qabs x) then e else e - 1.

(** The integer nearest to [m], the even one of the two when [m] lies
    half-way. *)
Definition round_half_even (m : Q) : Z :=
  let f := Qnum m / Zpos (Qden m) in
  let r := Qnum m mod Zpos (Qden m) in
  match 2 * r ?= Zpos (Qden m) with
  | Lt => f
  | Gt => f + 1
  | Eq => if Z.even f then f else f + 1
  end.

(** The double nearest to [x]: a multiple of [2 ^ u], where [u] is 52
    below the exponent of [x], and -1074 for the subnormal numbers. *)
Definition round_binary64 (x : Q) : Q :=
  if Qeq_bool x 0 then 0%Q
  else
    let u := Z.max (ilog2 x - 52) (-1074) in
    (inject_Z (round_half_even (x / pow2 u)) * pow2 u)%Q.

(** The arithmetic of the program. *)
Definition binary64 : Rounding := {| rnd := round_binary64 |}.

(** [2 ^ -53], half the distance between 1 and the next double. *)
Definition half_ulp : Q := 1 # 9007199254740992.

(** ** Relationship detector (relationship-detector.ts) *)

(** The three scores that the detector asks of its text processor. *)
Class TextProcessor := {
  calculateSentenceSimilarity : jsstring -> jsstring -> Q;
  calculateSemanticSimilarity : jsstring -> jsstring -> Q;
  detectNamePatterns_score : jsstring -> jsstring -> Q;
}.

(** The literals 0, 0.25, 0.5, 0.75 and 1 are doubles; every other decimal
    literal stands for the double nearest to it. *)
Definition SIMILARITY_THRESHOLD : Q := 0.5.
Definition HIGH_CONFIDENCE_THRESHOLD `{Rounding} : Q := rnd 0.85.
Definition MEDIUM_CONFIDENCE_THRESHOLD : Q := 0.75.

Inductive Confidence := high | medium | low.

(** [a > b] and [a >= b] on numbers. *)
Definition Qgtb (a b : Q) : bool := negb (Qle_bool a b).
Definition Qgeb (a b : Q) : bool := Qle_bool b a.

Definition calculateTypeSimilarity `{TextProcessor} (entity1 entity2 : Entity)
  : Q :=
  if jseqb (entityType entity1) (entityType entity2) then 1%Q
  else calculateSentenceSimilarity (entityType entity1) (entityType entity2).

Definition calculateContentSimilarity `{TextProcessor} `{Rounding}
    (entity1 entity2 : Entity) : Q :=
  let content1 := join [SPACE] (observations entity1) in
  let content2 := join [SPACE] (observations entity2) in
  if negb (truthy content1) || negb (truthy content2) then rnd 0.3
  else calculateSemanticSimilarity content1 content2.

Definition option_eqb {A : Type} (eqb : A -> A -> bool) (a b : option A)
  : bool :=
  match a, b with
  | Some x, Some y => eqb x y
  | None, None => true
  | _, _ => false
  end.

Definition calculateStructuralSimilarity `{Rounding}
    (entity1 entity2 : Entity) : Q :=
  let obsCount1 := Z.of_nat (length (observations entity1)) in
  let obsCount2 := Z.of_nat (length (observations entity2)) in
  let score := 0%Q in
  let score :=
    if (0 <? obsCount1) && (0 <? obsCount2) then
      let countSimilarity :=
        rnd (1 - rnd (inject_Z (Z.abs (obsCount1 - obsCount2))
                      / inject_Z (Z.max obsCount1 obsCount2)))%Q in
      rnd (score + rnd (countSimilarity * rnd 0.4))%Q
    else score in
  let score :=
    if option_eqb EntityStatus_eqb (status entity1) (status entity2)
    then rnd (score + rnd 0.3)%Q else score in
  Qmin score 1.

(** The sum of [finalScore] associates to the left, and every product and
    every partial sum is rounded. *)
Definition calculateEntitySimilarity `{TextProcessor} `{Rounding}
    (entity1 entity2 : Entity) : Q :=
  let nameSimilarity :=
    calculateSentenceSimilarity (name entity1) (name entity2) in
  let typeSimilarity := calculateTypeSimilarity entity1 entity2 in
  let contentSimilarity := calculateContentSimilarity entity1 entity2 in
  let patternScore := detectNamePatterns_score (name entity1) (name entity2) in
  let structuralSimilarity := calculateStructuralSimilarity entity1 entity2 in
  let finalScore :=
    rnd (rnd (rnd (rnd (rnd (rnd 0.35 * nameSimilarity)
                        + rnd (rnd 0.2 * typeSimilarity))
                   + rnd (0.25 * contentSimilarity))
              + rnd (rnd 0.15 * patternScore))
         + rnd (rnd 0.05 * structuralSimilarity))%Q in
  Qmin finalScore 1.

Definition determineConfidence `{Rounding} (similarity : Q) : Confidence :=
  if Qgeb similarity HIGH_CONFIDENCE_THRESHOLD then high
  else if Qgeb similarity MEDIUM_CONFIDENCE_THRESHOLD then medium
  else low.

(** The [relationType] that [inferRelationshipType] returns; its
    [reasoning] is a sentence for display and is not modelled. *)
Definition inferRelationshipType `{Rounding} (entity1 entity2 : Entity)
    (similarity : Q) : jsstring :=
  let type1 := toLowerCase (entityType entity1) in
  let type2 := toLowerCase (entityType entity2) in
  let name1 := toLowerCase (name entity1) in
  let name2 := toLowerCase (name entity2) in
  if includes name1 name2 || includes name2 name1 then
    let isParent := (length name2 <? length name1)%nat in
    if isParent then js "contains" else js "part_of"
  else if jseqb type1 type2 then
    if Qgtb similarity (rnd 0.9) then js "similar_to" else js "related_to"
  else if Qgtb similarity (rnd 0.9) then js "closely_related"
  else js "related_to".

Record SimilarEntity := {
  sim_entity : Entity;
  similarity : Q;
  confidence : Confidence;
  suggestedRelationType : jsstring;
}.

(** The loop of [detectSimilarEntities] over the candidates, in order. *)
Fixpoint detect_candidates `{TextProcessor} `{Rounding} (targetEntity : Entity)
    (candidateEntities : list Entity) : list SimilarEntity :=
  match candidateEntities with
  | [] => []
  | candidate :: rest =>
      if jseqb (name candidate) (name targetEntity)
      then detect_candidates targetEntity rest
      else
        let similarity := calculateEntitySimilarity targetEntity candidate in
        if Qgtb similarity SIMILARITY_THRESHOLD then
          {| sim_entity := candidate;
             similarity := similarity;
             confidence := determineConfidence similarity;
             suggestedRelationType :=
               inferRelationshipType targetEntity candidate similarity |}
          :: detect_candidates targetEntity rest
        else detect_candidates targetEntity rest
  end.

Definition detectSimilarEntities `{TextProcessor} `{Rounding}
    (targetEntity : Entity) (candidateEntities : list Entity)
  : list SimilarEntity :=
  let results := detect_candidates targetEntity candidateEntities in
  firstn 8 (sort_desc similarity results).

(** The score of a candidate as the specification words it: the weighted
    sum of the five similarities, clamped to 1, in exact arithmetic. *)
Definition weighted_sum_spec (nameSimilarity typeSimilarity contentSimilarity
    patternScore structuralSimilarity : Q) : Q :=
  Qmin (0.35 * nameSimilarity + 0.20 * typeSimilarity
        + 0.25 * contentSimilarity + 0.15 * patternScore
        + 0.05 * structuralSimilarity) 1.

(** ** The SQLite store: schema (sqlite-connection.ts) *)

(** The JSON text [JSON.stringify({name, entityType, observations})] that
    fills the two content columns of an entity, held as the value that it
    renders. *)
Record EntityContent := {
  content_name : jsstring;
  content_entityType : jsstring;
  content_observations : list jsstring;
}.

Record BranchRow := {
  br_id : Z;
  br_name : jsstring;
  br_purpose : jsstring;
  br_created_at : Z;
  br_updated_at : Z;
}.

Record EntityRow := {
  ent_id : Z;
  ent_name : jsstring;
  ent_entity_type : jsstring;
  ent_branch_id : Z;
  ent_status : EntityStatus;
  ent_status_reason : option jsstring;
  ent_original_content : EntityContent;
  ent_optimized_content : EntityContent;
  ent_created_at : Z;
  ent_updated_at : Z;
  ent_last_accessed : Z;
}.

Record ObservationRow := {
  obs_id : Z;
  obs_entity_id : Z;
  obs_content : jsstring;
  obs_optimized_content : jsstring;
  obs_sequence_order : Z;
  obs_created_at : Z;
}.

Record RelationRow := {
  rel_id : Z;
  rel_from_entity_id : Z;
  rel_to_entity_id : Z;
  rel_relation_type : jsstring;
  rel_branch_id : Z;
  rel_created_at : Z;
}.

Record KeywordRow := {
  kw_id : Z;
  kw_keyword : jsstring;
  kw_entity_id : Z;
  kw_weight : Q;
  kw_context : jsstring;
}.

Record CrossRefRow := {
  cr_id : Z;
  cr_from_entity_id : Z;
  cr_target_branch_id : Z;
  cr_target_entity_name : jsstring;
  cr_created_at : Z;
}.

(** The database: every table is the list of its rows in rowid order, and
    the [seq_] fields are the rows of [sqlite_sequence] that AUTOINCREMENT
    keeps (the largest rowid ever given out in the table). *)
Record DB := {
  memory_branches : list BranchRow;
  entities : list EntityRow;
  observations_table : list ObservationRow;
  relations : list RelationRow;
  keywords : list KeywordRow;
  cross_references : list CrossRefRow;
  seq_memory_branches : Z;
  seq_entities : Z;
  seq_observations : Z;
  seq_relations : Z;
  seq_keywords : Z;
  seq_cross_references : Z;
}.

(** The rowid that AUTOINCREMENT gives to a new row: one more than the
    largest rowid that the table holds or ever held. *)
Definition next_rowid (seq : Z) (ids : list Z) : Z :=
  fold_right Z.max seq ids + 1.

(** What a store operation can throw. *)
Inductive Error :=
| EntityAlreadyExists (entity : jsstring)
| EntityNotFound (entity : jsstring) (branch : jsstring)
| BranchIdNotFound (id : Z)
| CannotDeleteMainBranch
| ConstraintFailed
| TypeError.

Inductive Result (A : Type) :=
| Ok (a : A)
| Err (e : Error).
Arguments Ok {A} a.
Arguments Err {A} e.

(** A store operation: it reads and writes the database and returns a
    value or throws. What it wrote before it threw stays written: the code
    opens no transaction. *)
Definition M (A : Type) : Type := DB -> DB * Result A.

Definition ret {A : Type} (a : A) : M A := fun db => (db, Ok a).

Definition bind {A B : Type} (m : M A) (k : A -> M B) : M B :=
  fun db =>
    match m db with
    | (db', Ok a) => k a db'
    | (db', Err e) => (db', Err e)
    end.

Definition throw {A : Type} (e : Error) : M A := fun db => (db, Err e).

(** [try { m } catch (error) { h(error) }] *)
Definition try_catch {A : Type} (m : M A) (h : Error -> M A) : M A :=
  fun db =>
    match m db with
    | (db', Ok a) => (db', Ok a)
    | (db', Err e) => h e db'
    end.

(** A read-only query. *)
Definition query {A : Type} (q : DB -> A) : M A := fun db => (db, Ok (q db)).

Notation "x <- m ;; k" := (bind m (fun x => k))
  (at level 100, m at next level, right associativity).
Notation "m ;;; k" := (bind m (fun _ => k))
  (at level 100, right associativity).

(** [for (const x of l) { acc = body(acc, x) }] *)
Fixpoint for_fold {A B : Type} (l : list A) (acc : B) (body : B -> A -> M B)
  : M B :=
  match l with
  | [] => ret acc
  | x :: r => acc' <- body acc x ;; for_fold r acc' body
  end.

(** The elements of an array with their indices, from [i] on. *)
Fixpoint indexed_from {A : Type} (i : Z) (l : list A) : list (Z * A) :=
  match l with
  | [] => []
  | x :: r => (i, x) :: indexed_from (i + 1) r
  end.

(** ** The SQLite store: the driver (sqlite-connection.ts)

    The connection hands every statement to the driver, better-sqlite3,
    through [execQuery] (the driver's [run]), [getQuery] ([get], the first
    row) or [runQuery] ([all], all rows). [run] executes any statement,
    and the code carries its INSERT, UPDATE and DELETE statements with it,
    except for the INSERT of [createRelations], the DELETE of
    [deleteRelations] and the UPDATE of [importData], which go through
    [runQuery]. The [all] of better-sqlite3 refuses a statement that returns
    no rows with a TypeError, before anything is written: this is
    [driver_refuses], the driver of the program. The class keeps what
    [all] does with such a statement as a parameter, for the properties
    that do not depend on it. *)
Class Driver := { all_executes_writes : bool }.

Definition driver_refuses : Driver := {| all_executes_writes := false |}.

(** [runQuery] on a statement that returns no rows. *)
Definition runQuery_write `{Driver} (statement : M unit) : M unit :=
  if all_executes_writes then statement else throw TypeError.

(** ** The SQLite store: statements *)

Definition find_branch_by_name (n : jsstring) (db : DB) : option BranchRow :=
  find (fun b => jseqb (br_name b) n) (memory_branches db).

Definition find_branch_by_id (id : Z) (db : DB) : option BranchRow :=
  find (fun b => br_id b =? id) (memory_branches db).

(** [SELECT id FROM entities WHERE name = ? AND branch_id = ?] *)
Definition find_entity (n : jsstring) (branchId : Z) (db : DB)
  : option EntityRow :=
  find (fun e => jseqb (ent_name e) n && (ent_branch_id e =? branchId))
       (entities db).

Definition find_entity_by_id (id : Z) (db : DB) : option EntityRow :=
  find (fun e => ent_id e =? id) (entities db).

Definition is_some {A : Type} (o : option A) : bool :=
  match o with Some _ => true | None => false end.

Definition with_memory_branches (db : DB) (rows : list BranchRow) (seq : Z)
  : DB :=
  {| memory_branches := rows; entities := entities db;
     observations_table := observations_table db; relations := relations db;
     keywords := keywords db; cross_references := cross_references db;
     seq_memory_branches := seq; seq_entities := seq_entities db;
     seq_observations := seq_observations db;
     seq_relations := seq_relations db; seq_keywords := seq_keywords db;
     seq_cross_references := seq_cross_references db |}.

Definition with_entities (db : DB) (rows : list EntityRow) (seq : Z) : DB :=
  {| memory_branches := memory_branches db; entities := rows;
     observations_table := observations_table db; relations := relations db;
     keywords := keywords db; cross_references := cross_references db;
     seq_memory_branches := seq_memory_branches db; seq_entities := seq;
     seq_observations := seq_observations db;
     seq_relations := seq_relations db; seq_keywords := seq_keywords db;
     seq_cross_references := seq_cross_references db |}.

Definition with_observations (db : DB) (rows : list ObservationRow) (seq : Z)
  : DB :=
  {| memory_branches := memory_branches db; entities := entities db;
     observations_table := rows; relations := relations db;
     keywords := keywords db; cross_references := cross_references db;
     seq_memory_branches := seq_memory_branches db;
     seq_entities := seq_entities db; seq_observations := seq;
     seq_relations := seq_relations db; seq_keywords := seq_keywords db;
     seq_cross_references := seq_cross_references db |}.

Definition with_relations (db : DB) (rows : list RelationRow) (seq : Z) : DB :=
  {| memory_branches := memory_branches db; entities := entities db;
     observations_table := observations_table db; relations := rows;
     keywords := keywords db; cross_references := cross_references db;
     seq_memory_branches := seq_memory_branches db;
     seq_entities := seq_entities db;
     seq_observations := seq_observations db; seq_relations := seq;
     seq_keywords := seq_keywords db;
     seq_cross_references := seq_cross_references db |}.

Definition with_keywords (db : DB) (rows : list KeywordRow) (seq : Z) : DB :=
  {| memory_branches := memory_branches db; entities := entities db;
     observations_table := observations_table db; relations := relations db;
     keywords := rows; cross_references := cross_references db;
     seq_memory_branches := seq_memory_branches db;
     seq_entities := seq_entities db;
     seq_observations := seq_observations db;
     seq_relations := seq_relations db; seq_keywords := seq;
     seq_cross_references := seq_cross_references db |}.

Definition with_cross_references (db : DB) (rows : list CrossRefRow) (seq : Z)
  : DB :=
  {| memory_branches := memory_branches db; entities := entities db;
     observations_table := observations_table db; relations := relations db;
     keywords := keywords db; cross_references := rows;
     seq_memory_branches := seq_memory_branches db;
     seq_entities := seq_entities db;
     seq_observations := seq_observations db;
     seq_relations := seq_relations db; seq_keywords := seq_keywords db;
     seq_cross_references := seq |}.

(** The database after [initialize] on an empty directory: the schema and
    the row of the main branch, inserted with the explicit id 1. *)
Definition initial_db (now : Z) : DB :=
  {| memory_branches :=
       [ {| br_id := 1; br_name := js "main";
            br_purpose := js "Main project memory - core entities, business logic, and system architecture";
            br_created_at := now; br_updated_at := now |} ];
     entities := []; observations_table := []; relations := [];
     keywords := []; cross_references := [];
     seq_memory_branches := 1; seq_entities := 0; seq_observations := 0;
     seq_relations := 0; seq_keywords := 0; seq_cross_references := 0 |}.

(** [INSERT INTO memory_branches (name, purpose) VALUES (?, ?)]; [name] is
    UNIQUE. *)
Definition insert_branch (now : Z) (n purpose : jsstring) : M unit :=
  fun db =>
    if is_some (find_branch_by_name n db) then (db, Err ConstraintFailed)
    else
      let id := next_rowid (seq_memory_branches db)
                           (map br_id (memory_branches db)) in
      (with_memory_branches db
         (memory_branches db ++
          [ {| br_id := id; br_name := n; br_purpose := purpose;
               br_created_at := now; br_updated_at := now |} ]) id,
       Ok tt).

(** [DELETE FROM memory_branches WHERE id = ?]. The foreign keys of
    entities, relations and cross-references to the branch have no
    ON DELETE action: the statement fails while a row refers to it. *)
Definition delete_branch_row (id : Z) : M unit :=
  fun db =>
    if existsb (fun e => ent_branch_id e =? id) (entities db)
       || existsb (fun r => rel_branch_id r =? id) (relations db)
       || existsb (fun c => cr_target_branch_id c =? id) (cross_references db)
    then (db, Err ConstraintFailed)
    else
      (with_memory_branches db
         (filter (fun b => negb (br_id b =? id) = true) (memory_branches db))
         (seq_memory_branches db),
       Ok tt).

(** [INSERT INTO entities (name, entity_type, branch_id, status,
    status_reason, original_content, optimized_content, updated_at)];
    [(name, branch_id)] is UNIQUE and [branch_id] a foreign key. *)
Definition insert_entity (now : Z) (n type : jsstring) (branchId : Z)
    (st : EntityStatus) (reason : option jsstring) (content : EntityContent)
  : M unit :=
  fun db =>
    if is_some (find_entity n branchId db)
       || negb (is_some (find_branch_by_id branchId db))
    then (db, Err ConstraintFailed)
    else
      let id := next_rowid (seq_entities db) (map ent_id (entities db)) in
      (with_entities db
         (entities db ++
          [ {| ent_id := id; ent_name := n; ent_entity_type := type;
               ent_branch_id := branchId; ent_status := st;
               ent_status_reason := reason; ent_original_content := content;
               ent_optimized_content := content; ent_created_at := now;
               ent_updated_at := now; ent_last_accessed := now |} ]) id,
       Ok tt).

(** [INSERT INTO observations (entity_id, content, optimized_content,
    sequence_order)] *)
Definition insert_observation (now : Z) (entityId : Z)
    (content optimizedContent : jsstring) (sequenceOrder : Z) : M unit :=
  fun db =>
    if negb (is_some (find_entity_by_id entityId db))
    then (db, Err ConstraintFailed)
    else
      let id := next_rowid (seq_observations db)
                           (map obs_id (observations_table db)) in
      (with_observations db
         (observations_table db ++
          [ {| obs_id := id; obs_entity_id := entityId;
               obs_content := content;
               obs_optimized_content := optimizedContent;
               obs_sequence_order := sequenceOrder;
               obs_created_at := now |} ]) id,
       Ok tt).

(** [INSERT INTO keywords (keyword, entity_id, weight, context)] *)
Definition insert_keyword (keyword : jsstring) (entityId : Z) (weight : Q)
    (context : jsstring) : M unit :=
  fun db =>
    if negb (is_some (find_entity_by_id entityId db))
    then (db, Err ConstraintFailed)
    else
      let id := next_rowid (seq_keywords db) (map kw_id (keywords db)) in
      (with_keywords db
         (keywords db ++
          [ {| kw_id := id; kw_keyword := keyword; kw_entity_id := entityId;
               kw_weight := weight; kw_context := context |} ]) id,
       Ok tt).

(** The row that holds the UNIQUE key [(from_entity_id, to_entity_id,
    relation_type)], if any. *)
Definition find_relation (fromId toId : Z) (type : jsstring) (db : DB)
  : option RelationRow :=
  find (fun r => (rel_from_entity_id r =? fromId)
                 && (rel_to_entity_id r =? toId)
                 && jseqb (rel_relation_type r) type)
       (relations db).

(** [INSERT OR IGNORE INTO relations (from_entity_id, to_entity_id,
    relation_type, branch_id)]: a row that would repeat the UNIQUE key is
    not inserted; a broken foreign key still fails. *)
Definition insert_or_ignore_relation (now : Z) (fromId toId : Z)
    (type : jsstring) (branchId : Z) : M unit :=
  fun db =>
    if is_some (find_relation fromId toId type db) then (db, Ok tt)
    else if negb (is_some (find_entity_by_id fromId db))
            || negb (is_some (find_entity_by_id toId db))
            || negb (is_some (find_branch_by_id branchId db))
    then (db, Err ConstraintFailed)
    else
      let id := next_rowid (seq_relations db) (map rel_id (relations db)) in
      (with_relations db
         (relations db ++
          [ {| rel_id := id; rel_from_entity_id := fromId;
               rel_to_entity_id := toId; rel_relation_type := type;
               rel_branch_id := branchId; rel_created_at := now |} ]) id,
       Ok tt).

(** [INSERT OR IGNORE INTO cross_references (from_entity_id,
    target_branch_id, target_entity_name)]; the table declares no UNIQUE
    key, so that nothing is ever ignored. *)
Definition insert_or_ignore_cross_reference (now : Z) (fromId : Z)
    (targetBranchId : Z) (targetName : jsstring) : M unit :=
  fun db =>
    if negb (is_some (find_entity_by_id fromId db))
       || negb (is_some (find_branch_by_id targetBranchId db))
    then (db, Err ConstraintFailed)
    else
      let id := next_rowid (seq_cross_references db)
                           (map cr_id (cross_references db)) in
      (with_cross_references db
         (cross_references db ++
          [ {| cr_id := id; cr_from_entity_id := fromId;
               cr_target_branch_id := targetBranchId;
               cr_target_entity_name := targetName;
               cr_created_at := now |} ]) id,
       Ok tt).

(** [UPDATE entities SET updated_at = ? WHERE id = ?] *)
Definition touch_entity (now : Z) (id : Z) : M unit :=
  fun db =>
    (with_entities db
       (map (fun e =>
               if ent_id e =? id then
                 {| ent_id := ent_id e; ent_name := ent_name e;
                    ent_entity_type := ent_entity_type e;
                    ent_branch_id := ent_branch_id e;
                    ent_status := ent_status e;
                    ent_status_reason := ent_status_reason e;
                    ent_original_content := ent_original_content e;
                    ent_optimized_content := ent_optimized_content e;
                    ent_created_at := ent_created_at e;
                    ent_updated_at := now;
                    ent_last_accessed := ent_last_accessed e |}
               else e)
            (entities db))
       (seq_entities db),
     Ok tt).

(** ** The SQLite store: connection and branches
       (sqlite-connection.ts, sqlite-branch-operations.ts) *)

(** [branchName || "main"] *)
Definition branch_or_main (branchName : option jsstring) : jsstring :=
  match branchName with
  | Some n => if truthy n then n else js "main"
  | None => js "main"
  end.

Definition getBranchId (now : Z) (branchName : option jsstring) : M Z :=
  let name := branch_or_main branchName in
  branch <- query (find_branch_by_name name) ;;
  match branch with
  | Some branch => ret (br_id branch)
  | None =>
      insert_branch now name (js "Auto-created branch: " ++ name) ;;;
      newBranch <- query (find_branch_by_name name) ;;
      match newBranch with
      | Some newBranch => ret (br_id newBranch)
      | None => throw TypeError
      end
  end.

Definition getBranchName (branchId : Z) : M jsstring :=
  branch <- query (find_branch_by_id branchId) ;;
  match branch with
  | None => throw (BranchIdNotFound branchId)
  | Some branch => ret (br_name branch)
  end.

Record MemoryBranchInfo := {
  info_name : jsstring;
  info_purpose : jsstring;
  entityCount : Z;
  relationCount : Z;
  info_lastUpdated : Z;
}.

Definition createBranch (now : Z) (branchName : jsstring)
    (purpose : option jsstring) : M MemoryBranchInfo :=
  let purpose :=
    match purpose with
    | Some p => if truthy p then p else js "Custom branch: " ++ branchName
    | None => js "Custom branch: " ++ branchName
    end in
  insert_branch now branchName purpose ;;;
  ret {| info_name := branchName; info_purpose := purpose;
         entityCount := 0; relationCount := 0; info_lastUpdated := now |}.

Definition deleteBranch (now : Z) (branchName : jsstring) : M unit :=
  if jseqb branchName (js "main") then throw CannotDeleteMainBranch
  else
    branchId <- getBranchId now (Some branchName) ;;
    delete_branch_row branchId.

(** ** The SQLite store: entities (sqlite-entity-operations.ts) *)

(** Insertion of [x] in an increasing list without repetition. *)
Fixpoint insert_increasing (x : Z) (l : list Z) : list Z :=
  match l with
  | [] => [x]
  | y :: r => if x <? y then x :: l
              else if x =? y then l
              else y :: insert_increasing x r
  end.

(** A key that [Object.keys] lists among the integer keys, which come
    first and in increasing order. *)
Definition is_array_index (id : Z) : bool := (0 <=? id) && (id <? 4294967295).

(** [getCrossReferences(entityName, branchId)]: the cross-references of
    the entity joined with their target branch, in the order of the target
    branch ids, grouped by target branch. *)
Definition getCrossReferences (entityName : jsstring) (branchId : Z) (db : DB)
  : list CrossReference :=
  let crossRefs :=
    flat_map
      (fun cr =>
         match find_branch_by_id (cr_target_branch_id cr) db,
               find_entity_by_id (cr_from_entity_id cr) db with
         | Some mb, Some e =>
             if jseqb (ent_name e) entityName && (ent_branch_id e =? branchId)
             then [(cr_target_branch_id cr, cr_target_entity_name cr,
                    br_name mb)]
             else []
         | _, _ => []
         end)
      (cross_references db) in
  let ordered :=
    fold_right insert_increasing [] (map (fun r => fst (fst r)) crossRefs) in
  let keys :=
    filter (fun id => is_array_index id = true) ordered
    ++ filter (fun id => negb (is_array_index id) = true) ordered in
  map (fun id =>
         let group := filter (fun r => (fst (fst r) =? id) = true) crossRefs in
         {| memoryBranch := match group with
                            | r :: _ => snd r
                            | [] => []
                            end;
            entityNames := map (fun r => snd (fst r)) group |})
      keys.

Definition createCrossReference (now : Z) (entityName targetBranch : jsstring)
    (targetEntityNames : list jsstring) (sourceBranch : option jsstring)
  : M unit :=
  sourceBranchId <- getBranchId now sourceBranch ;;
  targetBranchId <- getBranchId now (Some targetBranch) ;;
  sourceEntity <- query (find_entity entityName sourceBranchId) ;;
  match sourceEntity with
  | None => throw (EntityNotFound entityName (branch_or_main sourceBranch))
  | Some sourceEntity =>
      for_fold targetEntityNames tt
        (fun _ targetEntityName =>
           try_catch
             (targetEntity <-
                query (find_entity targetEntityName targetBranchId) ;;
              match targetEntity with
              | None => ret tt
              | Some _ =>
                  insert_or_ignore_cross_reference now (ent_id sourceEntity)
                    targetBranchId targetEntityName
              end)
             (fun _ => ret tt))
  end.

(** ["a|b".split("|")] *)
Fixpoint split_char_from (sep : N) (cur : jsstring) (s : jsstring)
  : list jsstring :=
  match s with
  | [] => [rev cur]
  | c :: r => if (c =? sep)%N then rev cur :: split_char_from sep [] r
              else split_char_from sep (c :: cur) r
  end.

Definition PIPE : N := 124%N.

(** [GROUP_CONCAT(o.content, '|')] over the contents of a group: NULL for
    an empty group. *)
Definition group_concat (contents : list jsstring) : option jsstring :=
  match contents with
  | [] => None
  | _ => Some (join [PIPE] contents)
  end.

(** One row of [convertRowsToEntities]: the columns of the entity and the
    concatenated observations. *)
Definition convertRowToEntity (row : EntityRow) (obs : option jsstring)
    (db : DB) : Entity :=
  {| name := ent_name row;
     entityType := ent_entity_type row;
     observations := match obs with
                     | Some o => if truthy o then split_char_from PIPE [] o
                                 else []
                     | None => []
                     end;
     crossRefs := getCrossReferences (ent_name row) (ent_branch_id row) db;
     status := Some (ent_status row);
     statusReason := ent_status_reason row;
     lastUpdated := Some (ent_updated_at row);
     keywordData := None |}.

Definition convertRowsToEntities (rows : list (EntityRow * option jsstring))
  : M (list Entity) :=
  query (fun db => map (fun r => convertRowToEntity (fst r) (snd r) db) rows).

(** [(s || "").toString().trim() || fallback] *)
Definition trimmed_or (s fallback : jsstring) : jsstring :=
  let t := trim s in if truthy t then t else fallback.

Definition createSingleEntity (now : Z) (entity : Entity) (branchId : Z)
  : M Entity :=
  let validName := trimmed_or (name entity) (js "Unnamed Entity") in
  let validEntityType := trimmed_or (entityType entity) (js "Unknown") in
  let validObservations :=
    filter (fun obs => truthy obs && truthy (trim obs) = true)
           (observations entity) in
  existing <- query (find_entity validName branchId) ;;
  match existing with
  | Some _ => throw (EntityAlreadyExists validName)
  | None =>
      let originalContent :=
        {| content_name := validName; content_entityType := validEntityType;
           content_observations := validObservations |} in
      insert_entity now validName validEntityType branchId
        (match status entity with Some s => s | None => active end)
        (match statusReason entity with
         | Some r => if truthy r then Some r else None
         | None => None
         end)
        originalContent ;;;
      entityRow <- query (find_entity validName branchId) ;;
      match entityRow with
      | None => throw TypeError
      | Some entityRow =>
          for_fold (indexed_from 0 validObservations) tt
            (fun _ '(i, obs) =>
               insert_observation now (ent_id entityRow) obs obs i) ;;;
          match keywordData entity with
          | Some keywords =>
              for_fold keywords tt
                (fun _ keyword =>
                   if truthy keyword && truthy (trim keyword) then
                     insert_keyword (toLowerCase (trim keyword))
                       (ent_id entityRow) 1 (js "entity_content")
                   else ret tt)
          | None => ret tt
          end ;;;
          match crossRefs entity with
          | [] => ret tt
          | refs =>
              branchName <- getBranchName branchId ;;
              for_fold refs tt
                (fun _ crossRef =>
                   try_catch
                     (createCrossReference now validName
                        (memoryBranch crossRef) (entityNames crossRef)
                        (Some branchName))
                     (fun _ => ret tt))
          end ;;;
          entityCrossRefs <- query (getCrossReferences validName branchId) ;;
          ret {| name := validName;
                 entityType := validEntityType;
                 observations := validObservations;
                 crossRefs := entityCrossRefs;
                 status := Some (match status entity with
                                 | Some s => s
                                 | None => active
                                 end);
                 statusReason := statusReason entity;
                 lastUpdated := Some now;
                 keywordData := None |}
      end
  end.

Definition createEntities (now : Z) (entities : list Entity)
    (branchName : option jsstring) : M (list Entity) :=
  branchId <- getBranchId now branchName ;;
  for_fold entities []
    (fun created entity =>
       try_catch
         (createdEntity <- createSingleEntity now entity branchId ;;
          ret (created ++ [createdEntity]))
         (fun _ => ret created)).

Record ObservationsInput := {
  entityName : jsstring;
  contents : list jsstring;
}.

Record ObservationsAdded := {
  added_entityName : jsstring;
  addedObservations : list jsstring;
}.

(** [SELECT COALESCE(MAX(sequence_order), -1) as max_seq FROM observations
    WHERE entity_id = ?] *)
Definition max_sequence_order (entityId : Z) (db : DB) : Z :=
  match map obs_sequence_order
            (filter (fun o => (obs_entity_id o =? entityId) = true)
                    (observations_table db)) with
  | [] => -1
  | s :: rest => fold_right Z.max s rest
  end.

(** [x || -1] on a number: zero is falsy. *)
Definition or_minus_one (x : Z) : Z := if x =? 0 then -1 else x.

(** The body of the inner loop of [addObservations], for the content at
    index [i]. *)
Definition addObservations_body (now : Z) (entityId startSeq : Z)
    (added : list jsstring) (item : Z * jsstring) : M (list jsstring) :=
  let '(i, content) := item in
  if truthy content && truthy (trim content) then
    insert_observation now entityId content content (startSeq + i) ;;;
    ret (added ++ [content])
  else ret added.

Definition addObservations (now : Z) (observationsList : list ObservationsInput)
    (branchName : option jsstring) : M (list ObservationsAdded) :=
  branchId <- getBranchId now branchName ;;
  for_fold observationsList []
    (fun results obs =>
       try_catch
         (entity <- query (find_entity (entityName obs) branchId) ;;
          match entity with
          | None => ret results
          | Some entity =>
              max_seq <- query (max_sequence_order (ent_id entity)) ;;
              let startSeq := or_minus_one max_seq + 1 in
              added <-
                for_fold (indexed_from 0 (contents obs)) []
                  (addObservations_body now (ent_id entity) startSeq) ;;
              touch_entity now (ent_id entity) ;;;
              ret (results ++
                   [ {| added_entityName := entityName obs;
                        addedObservations := added |} ])
          end)
         (fun _ => ret results)).

(** ** The SQLite store: relations (sqlite-relation-operations.ts) *)

(** The body of the loop of [createRelations], for one relation of the
    batch. *)
Definition createRelations_body `{Driver} (now : Z) (branchId : Z)
    (createdRelations : list Relation) (relation : Relation)
  : M (list Relation) :=
  if negb (truthy (from relation)) || negb (truthy (to relation))
     || negb (truthy (relationType relation))
  then ret createdRelations
  else
    try_catch
      (fromEntity <- query (find_entity (from relation) branchId) ;;
       toEntity <- query (find_entity (to relation) branchId) ;;
       match fromEntity, toEntity with
       | None, _ => ret createdRelations
       | Some _, None => ret createdRelations
       | Some fromEntity, Some toEntity =>
           runQuery_write
             (insert_or_ignore_relation now (ent_id fromEntity)
                (ent_id toEntity) (relationType relation) branchId) ;;;
           ret (createdRelations ++ [relation])
       end)
      (fun _ => ret createdRelations).

Definition createRelations `{Driver} (now : Z)
    (relationsToCreate : list Relation) (branchName : option jsstring)
  : M (list Relation) :=
  match relationsToCreate with
  | [] => ret []
  | _ =>
      branchId <- getBranchId now branchName ;;
      for_fold relationsToCreate [] (createRelations_body now branchId)
  end.

(** The rows of [relations r JOIN entities ef ON r.from_entity_id = ef.id
    JOIN entities et ON r.to_entity_id = et.id] that satisfy [cond], as
    relations between names. *)
Definition select_relations (cond : RelationRow -> EntityRow -> EntityRow -> bool)
    (db : DB) : list Relation :=
  flat_map
    (fun r =>
       match find_entity_by_id (rel_from_entity_id r) db,
             find_entity_by_id (rel_to_entity_id r) db with
       | Some ef, Some et =>
           if cond r ef et
           then [ {| from := ent_name ef; to := ent_name et;
                     relationType := rel_relation_type r |} ]
           else []
       | _, _ => []
       end)
    (relations db).

Definition name_in (names : list jsstring) (n : jsstring) : bool :=
  existsb (jseqb n) names.

(** [if (branchId)]: an id that is given and is not zero. *)
Definition given_id (branchId : option Z) : option Z :=
  match branchId with
  | Some id => if id =? 0 then None else Some id
  | None => None
  end.

Definition getRelationsForEntities (entityNames : list jsstring)
    (branchId : option Z) : M (list Relation) :=
  match entityNames with
  | [] => ret []
  | _ =>
      query (select_relations
               (fun r ef et =>
                  (name_in entityNames (ent_name ef)
                   || name_in entityNames (ent_name et))
                  && match given_id branchId with
                     | Some id => rel_branch_id r =? id
                     | None => true
                     end))
  end.

Definition getAllRelationsForBranch (branchId : Z) : M (list Relation) :=
  query (select_relations (fun r _ _ => rel_branch_id r =? branchId)).

(** ** The SQLite store: export (sqlite/index.ts) *)

Definition observations_of (e : EntityRow) (db : DB) : list ObservationRow :=
  filter (fun o => (obs_entity_id o =? ent_id e) = true)
         (observations_table db).

Definition keywords_of (e : EntityRow) (db : DB) : list KeywordRow :=
  filter (fun k => (kw_entity_id k =? ent_id e) = true) (keywords db).

Definition exportBranch (now : Z) (branchName : option jsstring)
  : M KnowledgeGraph :=
  branchId <- getBranchId now branchName ;;
  entityRows <-
    query (fun db =>
             map (fun e => (e, group_concat (map obs_content
                                                 (observations_of e db))))
                 (filter (fun e => (ent_branch_id e =? branchId) = true)
                         (entities db))) ;;
  exported <- convertRowsToEntities entityRows ;;
  exportedRelations <- getAllRelationsForBranch branchId ;;
  ret {| graph_entities := exported; graph_relations := exportedRelations |}.

(** ** Search (sqlite-search-operations.ts) *)

(** A row that a search strategy returns: the columns of the entity, its
    concatenated observations and the relevance score. *)
Record Row := {
  row_entity : EntityRow;
  row_observations : option jsstring;
  relevance_score : Q;
}.

(** The full-text index of SQLite (FTS5) is outside of the sources. For
    the MATCH expression and the entities that the index mirrors, the
    engine yields the matching rowids with their rank, in the order of the
    rank, or fails ([None]) on an expression that it rejects. *)
Class FtsEngine := {
  fts_match : jsstring -> list EntityRow -> option (list (Z * Q));
}.

Definition PERCENT : N := 37%N.
Definition UNDERSCORE : N := 95%N.

(** Equality of two characters under LIKE: the case of ASCII letters is
    ignored. *)
Definition like_eq (p c : N) : bool :=
  ((p =? c) || (p <? 128) && (c <? 128) && (lower_char p =? lower_char c))%N.

(** [text LIKE pattern]: [%] stands for any sequence and [_] for any one
    character. *)
Fixpoint sql_like (pattern : jsstring) : jsstring -> bool :=
  match pattern with
  | [] => fun text => match text with [] => true | _ => false end
  | p :: pattern' =>
      if (p =? PERCENT)%N then
        fix any (text : jsstring) : bool :=
          sql_like pattern' text
          || match text with [] => false | _ :: text' => any text' end
      else if (p =? UNDERSCORE)%N then
        fun text =>
          match text with [] => false | _ :: text' => sql_like pattern' text' end
      else
        fun text =>
          match text with
          | [] => false
          | c :: text' => like_eq p c && sql_like pattern' text'
          end
  end.

(** [x LIKE `%${term}%`] *)
Definition like_term (term text : jsstring) : bool :=
  sql_like ([PERCENT] ++ term ++ [PERCENT]) text.

(** The separators [[\s\-_,./]] of the query. *)
Definition is_query_separator (c : N) : bool :=
  (is_space c || (c =? 45) || (c =? 95) || (c =? 44) || (c =? 46)
   || (c =? 47))%N.

Definition stopWords : list jsstring :=
  map js [ "the"; "and"; "or"; "but"; "in"; "on"; "at"; "to"; "for"; "of";
           "with"; "by" ]%string.

(** [Array.from(new Set(terms))]: the first occurrence of every term. *)
Fixpoint unique_terms (seen terms : list jsstring) : list jsstring :=
  match terms with
  | [] => []
  | t :: r => if name_in seen t then unique_terms seen r
              else t :: unique_terms (t :: seen) r
  end.

Definition prepareSearchTerms (q : jsstring) : list jsstring :=
  let terms :=
    map trim
      (filter (fun term => (1 <? length term)%nat = true)
              (split_runs is_query_separator (toLowerCase q))) in
  filter (fun term => negb (name_in stopWords term) = true)
         (unique_terms [] terms).

(** [includeStatuses && includeStatuses.length > 0 ? includeStatuses :
    ["active"]] *)
Definition effective_statuses (includeStatuses : option (list EntityStatus))
  : list EntityStatus :=
  match includeStatuses with
  | Some (s :: r) => s :: r
  | _ => [active]
  end.

Definition status_in (statuses : list EntityStatus) (s : EntityStatus) : bool :=
  existsb (EntityStatus_eqb s) statuses.

(** [e.branch_id = ?] when a branch id is given, and [e.status IN (...)]. *)
Definition branch_and_status (branchId : option Z)
    (statuses : list EntityStatus) (e : EntityRow) : bool :=
  match branchId with
  | Some id => ent_branch_id e =? id
  | None => true
  end && status_in statuses (ent_status e).

(** The rows of a LEFT JOIN for one row of the left table. *)
Definition left_join {A : Type} (matching : list A) : list (option A) :=
  match matching with
  | [] => [None]
  | _ => map Some matching
  end.

Definition Qmax_list (x : Q) (l : list Q) : Q := fold_right Qmax x l.

(** The rows of
    [entities e LEFT JOIN observations o LEFT JOIN keywords k] for [e]
    that pass the WHERE clause of the keyword strategy. *)
Definition keyword_join (searchTerms : list jsstring) (e : EntityRow) (db : DB)
  : list (option ObservationRow * KeywordRow) :=
  flat_map
    (fun o =>
       flat_map
         (fun k =>
            match k with
            | Some k =>
                if existsb (fun term => like_term term (kw_keyword k))
                           searchTerms
                then [(o, k)] else []
            | None => []
            end)
         (left_join (keywords_of e db)))
    (left_join (observations_of e db)).

(** The observation contents of joined rows, for GROUP_CONCAT. *)
Definition joined_contents {B : Type}
    (rows : list (option ObservationRow * B)) : list jsstring :=
  flat_map (fun r => match fst r with
                     | Some o => [obs_content o]
                     | None => []
                     end) rows.

Definition searchByKeywords (searchTerms : list jsstring)
    (branchId : option Z) (includeStatuses : option (list EntityStatus))
    (db : DB) : list Row :=
  let statuses := effective_statuses includeStatuses in
  let groups :=
    flat_map
      (fun e =>
         if branch_and_status branchId statuses e then
           match keyword_join searchTerms e db with
           | [] => []
           | (o, k) :: rest =>
               let rows := (o, k) :: rest in
               [ {| row_entity := e;
                    row_observations := group_concat (joined_contents rows);
                    relevance_score :=
                      (inject_Z (Z.of_nat (length rows))
                       * Qmax_list (kw_weight k)
                                   (map (fun r => kw_weight (snd r)) rest))%Q
                 |} ]
           end
         else [])
      (entities db) in
  sort_desc relevance_score groups.

(** The rowids of the engine that are entities of the branch and status
    asked for, once each. *)
Fixpoint fts_rows (hits : list (Z * Q)) (seen : list Z) (branchId : option Z)
    (statuses : list EntityStatus) (db : DB) : list Row :=
  match hits with
  | [] => []
  | (rowid, rank) :: rest =>
      match find_entity_by_id rowid db with
      | Some e =>
          if branch_and_status branchId statuses e
             && negb (existsb (Z.eqb rowid) seen)
          then {| row_entity := e;
                  row_observations :=
                    group_concat (map obs_content (observations_of e db));
                  relevance_score := rank |}
               :: fts_rows rest (rowid :: seen) branchId statuses db
          else fts_rows rest seen branchId statuses db
      | None => fts_rows rest seen branchId statuses db
      end
  end.

Definition searchByFTS `{FtsEngine} (searchTerms : list jsstring)
    (branchId : option Z) (includeStatuses : option (list EntityStatus))
    (db : DB) : list Row :=
  let statuses := effective_statuses includeStatuses in
  let q := join (js " OR ") searchTerms in
  match fts_match q (entities db) with
  | Some hits => fts_rows hits [] branchId statuses db
  | None => []
  end.

(** The LIKE parameters of [searchByLike] in the order in which the
    code pushes them: for every term four copies of its pattern (two for
    the WHERE condition on name and type, two for the score of name and
    type), then for every term two copies (the WHERE condition on the
    content and its score). *)
Definition like_params (searchTerms : list jsstring) : list jsstring :=
  flat_map (fun term => let p := [PERCENT] ++ term ++ [PERCENT] in
                        [p; p; p; p]) searchTerms
  ++ flat_map (fun term => let p := [PERCENT] ++ term ++ [PERCENT] in [p; p])
              searchTerms.

(** Consecutive parameters taken two by two. *)
Fixpoint pairs {A : Type} (l : list A) : list (A * A) :=
  match l with
  | a :: b :: r => (a, b) :: pairs r
  | _ => []
  end.

(** The anonymous placeholders of the statement receive the parameters
    in the order of the text of the statement: first the score expression
    in the SELECT list (a pair for name and type per term, then one for the
    content per term), then the WHERE clause (likewise). *)
Definition score_name_type_params (searchTerms : list jsstring)
  : list (jsstring * jsstring) :=
  pairs (firstn (2 * length searchTerms) (like_params searchTerms)).

Definition score_content_params (searchTerms : list jsstring)
  : list jsstring :=
  firstn (length searchTerms)
         (skipn (2 * length searchTerms) (like_params searchTerms)).

Definition where_name_type_params (searchTerms : list jsstring)
  : list (jsstring * jsstring) :=
  pairs (firstn (2 * length searchTerms)
                (skipn (3 * length searchTerms) (like_params searchTerms))).

Definition where_content_params (searchTerms : list jsstring)
  : list jsstring :=
  firstn (length searchTerms)
         (skipn (5 * length searchTerms) (like_params searchTerms)).

(** The score expression of the LIKE strategy on one joined row. *)
Definition like_score (searchTerms : list jsstring) (e : EntityRow)
    (o : option ObservationRow) : Z :=
  fold_right Z.add 0
    (map (fun p =>
            if sql_like (fst p) (ent_name e) then 10
            else if sql_like (snd p) (ent_entity_type e) then 8
            else 0) (score_name_type_params searchTerms))
  + fold_right Z.add 0
      (map (fun p =>
              match o with
              | Some o => if sql_like p (obs_content o) then 3 else 0
              | None => 0
              end) (score_content_params searchTerms)).

(** The WHERE clause of the LIKE strategy, before branch and status. *)
Definition like_where (searchTerms : list jsstring) (e : EntityRow)
    (o : option ObservationRow) : bool :=
  existsb (fun p => sql_like (fst p) (ent_name e)
                    || sql_like (snd p) (ent_entity_type e))
          (where_name_type_params searchTerms)
  || existsb (fun p => match o with
                       | Some o => sql_like p (obs_content o)
                       | None => false
                       end) (where_content_params searchTerms).

(** The LIKE strategy. The score of a group is an expression over bare
    columns, which SQLite evaluates on one row of the group: the first
    joined row that passes the WHERE clause. *)
Definition searchByLike (searchTerms : list jsstring) (branchId : option Z)
    (includeStatuses : option (list EntityStatus)) (db : DB) : list Row :=
  let statuses := effective_statuses includeStatuses in
  let groups :=
    flat_map
      (fun e =>
         if branch_and_status branchId statuses e then
           let rows :=
             filter (fun o => like_where searchTerms e o = true)
                    (left_join (observations_of e db)) in
           match rows with
           | [] => []
           | o :: _ =>
               let score := like_score searchTerms e o in
               if 0 <? score then
                 [ {| row_entity := e;
                      row_observations :=
                        group_concat
                          (joined_contents (map (fun o => (o, tt)) rows));
                      relevance_score := inject_Z score |} ]
               else []
           end
         else [])
      (entities db) in
  sort_desc relevance_score
    (sort_desc (fun r => inject_Z (ent_last_accessed (row_entity r))) groups).

(** The [Map] from entity ids to rows, in insertion order. *)
Fixpoint map_get (id : Z) (m : list (Z * Row)) : option Row :=
  match m with
  | [] => None
  | (k, v) :: r => if k =? id then Some v else map_get id r
  end.

Fixpoint map_set (id : Z) (v : Row) (m : list (Z * Row)) : list (Z * Row) :=
  match m with
  | [] => [(id, v)]
  | (k, w) :: r => if k =? id then (k, v) :: r else (k, w) :: map_set id v r
  end.

Definition with_score (r : Row) (score : Q) : Row :=
  {| row_entity := row_entity r; row_observations := row_observations r;
     relevance_score := score |}.

(** One strategy merged into the map: a row that is already there gains
    [bonus], a new row enters with the score [bonus]. *)
Definition merge_strategy (bonus : Q) (found : list Row)
    (results : list (Z * Row)) : list (Z * Row) :=
  fold_left
    (fun results result =>
       let id := ent_id (row_entity result) in
       match map_get id results with
       | Some existing =>
           map_set id (with_score existing (relevance_score existing + bonus)%Q)
                   results
       | None => map_set id (with_score result bonus) results
       end)
    found results.

Definition executeEnhancedSearch `{FtsEngine} (searchTerms : list jsstring)
    (branchId : option Z) (includeStatuses : option (list EntityStatus))
    (db : DB) : list Row :=
  match searchTerms with
  | [] => []
  | _ =>
      let results : list (Z * Row) := [] in
      let keywordResults :=
        searchByKeywords searchTerms branchId includeStatuses db in
      let results :=
        fold_left
          (fun results result =>
             map_set (ent_id (row_entity result))
                     (with_score result (relevance_score result + 15)%Q)
                     results)
          keywordResults results in
      let ftsResults := searchByFTS searchTerms branchId includeStatuses db in
      let results := merge_strategy 10 ftsResults results in
      let likeResults := searchByLike searchTerms branchId includeStatuses db in
      let results := merge_strategy 5 likeResults results in
      firstn 50
        (sort_desc relevance_score
           (filter (fun result => Qgtb (relevance_score result) 0 = true)
                   (map snd results)))
  end.

Definition STAR : jsstring := js "*".

(** The rows that [performSearch] hands to [convertRowsToEntities]. *)
Definition performSearch_rows `{FtsEngine} (now : Z) (q : jsstring)
    (branchName : option jsstring)
    (includeStatuses : option (list EntityStatus)) : M (list Row) :=
  branchId <-
    match branchName with
    | Some b =>
        if truthy b && negb (jseqb b STAR)
        then (id <- getBranchId now (Some b) ;; ret (Some id))
        else ret None
    | None => ret None
    end ;;
  let searchTerms := prepareSearchTerms q in
  query (executeEnhancedSearch searchTerms branchId includeStatuses).

Definition performSearch `{FtsEngine} (now : Z) (q : jsstring)
    (branchName : option jsstring)
    (includeStatuses : option (list EntityStatus)) : M (list Entity) :=
  results <- performSearch_rows now q branchName includeStatuses ;;
  convertRowsToEntities
    (map (fun r => (row_entity r, row_observations r)) results).

Definition searchEntities `{FtsEngine} (now : Z) (q : jsstring)
    (branchName : option jsstring)
    (includeStatuses : option (list EntityStatus)) : M KnowledgeGraph :=
  found <- performSearch now q branchName includeStatuses ;;
  foundRelations <-
    match found with
    | [] => ret []
    | _ =>
        branchId <-
          match branchName with
          | Some b =>
              if truthy b then (id <- getBranchId now (Some b) ;; ret (Some id))
              else ret None
          | None => ret None
          end ;;
        getRelationsForEntities (map name found) branchId
    end ;;
  ret {| graph_entities := found; graph_relations := foundRelations |}.

(** ** Predicates on states *)

(** A branch of that name exists. *)
Definition has_branch (n : jsstring) (db : DB) : Prop :=
  is_some (find_branch_by_name n db) = true.

(** The foreign keys to [memory_branches] hold, as SQLite enforces them:
    the branch of every entity, relation and cross-reference exists. *)
Definition branch_keys_hold (db : DB) : bool :=
  forallb (fun e => is_some (find_branch_by_id (ent_branch_id e) db))
          (entities db)
  && forallb (fun r => is_some (find_branch_by_id (rel_branch_id r) db))
             (relations db)
  && forallb (fun c => is_some (find_branch_by_id (cr_target_branch_id c) db))
             (cross_references db).

(** The row that [getBranchId] inserts for a missing branch. *)
Definition auto_created_branch (now id : Z) (n : jsstring) : BranchRow :=
  {| br_id := id; br_name := n;
     br_purpose := js "Auto-created branch: " ++ n;
     br_created_at := now; br_updated_at := now |}.

(** An operation keeps a property of the state, also when it throws. *)
Definition preserves {A : Type} (P : DB -> Prop) (m : M A) : Prop :=
  forall db, P db -> P (fst (m db)).

(** An operation leaves the state with a property. *)
Definition establishes {A : Type} (P : DB -> Prop) (m : M A) : Prop :=
  forall db, P (fst (m db)).

(** An operation never throws. *)
Definition succeeds {A : Type} (m : M A) : Prop :=
  forall db, exists a, snd (m db) = Ok a.

(** A text in which every white-space character is a single space that
    follows a character that is not white space ([after_space] tells that
    the text follows a white-space character). *)
Fixpoint single_spaced (after_space : bool) (s : jsstring) : Prop :=
  match s with
  | [] => True
  | c :: r =>
      if is_space c then c = SPACE /\ after_space = false /\ single_spaced true r
      else single_spaced false r
  end.

Definition starts_without_space (s : jsstring) : Prop :=
  match s with
  | [] => True
  | c :: _ => is_space c = false
  end.

(** The entity is a row of the table and passes the branch and status
    predicates of the search. *)
Definition in_scope (branchId : option Z)
    (includeStatuses : option (list EntityStatus)) (db : DB) (e : EntityRow)
  : Prop :=
  In e (entities db)
  /\ branch_and_status branchId (effective_statuses includeStatuses) e = true.

Definition values_in_scope (branchId : option Z)
    (includeStatuses : option (list EntityStatus)) (db : DB)
    (results : list (Z * Row)) : Prop :=
  forall kv, In kv results ->
    in_scope branchId includeStatuses db (row_entity (snd kv)).

(** [content && content.trim()] *)
Definition non_blank (content : jsstring) : bool :=
  truthy content && truthy (trim content).

(** The sequence orders that the loop gives to the contents from index
    [i] on that are not blank. *)
Fixpoint appended_orders (startSeq i : Z) (cs : list jsstring) : list Z :=
  match cs with
  | [] => []
  | c :: r => if non_blank c then (startSeq + i) :: appended_orders startSeq (i + 1) r
              else appended_orders startSeq (i + 1) r
  end.

(** ** Engines and states used in the examples *)

(** An engine whose MATCH fails: the case that [searchByFTS] catches. *)
Definition fts_unavailable : FtsEngine :=
  {| fts_match := fun _ _ => None |}.

(** An engine that answers every query with the given hits. *)
Definition fts_fixed (hits : list (Z * Q)) : FtsEngine :=
  {| fts_match := fun _ _ => Some hits |}.

Definition mkEntity (n type : string) (obs : list string) : Entity :=
  {| name := js n; entityType := js type; observations := map js obs;
     crossRefs := []; status := None; statusReason := None;
     lastUpdated := None; keywordData := None |}.

Definition mkRelation (a b type : string) : Relation :=
  {| from := js a; to := js b; relationType := js type |}.

(** Entities ["alpha"] (with one observation) and ["beta"] in the main
    branch, created at time 1 in a fresh store. *)
Definition db_alpha_beta : DB :=
  fst (createEntities 1
         [mkEntity "alpha" "Service" ["first"]%string; mkEntity "beta" "Service" []]
         None (initial_db 0)).

Definition alpha_uses_beta : Relation := mkRelation "alpha" "beta" "uses".

(** The same store with the row of the relation ["alpha" uses "beta"] in
    the relations table. No operation of the program writes such a row
    ([reachable_no_relation]): the state is that of a database file whose
    relations were written by other means. *)
Definition db_alpha_uses_beta : DB :=
  with_relations db_alpha_beta
    [ {| rel_id := 1; rel_from_entity_id := 1; rel_to_entity_id := 2;
         rel_relation_type := js "uses"; rel_branch_id := 1;
         rel_created_at := 2 |} ] 1.

(** Entity ["older"], created at time 1 with six keywords that contain
    ["kappa"], and entity ["newer"], created at time 2 with the keyword
    ["kappa"]; neither has an observation at its creation, and at time 3
    ["newer"] receives the observation ["kappa"]. *)
Definition db_older_newer : DB :=
  let with_keywords (n : string) (kws : list string) : Entity :=
    {| name := js n; entityType := js "Note"; observations := [];
       crossRefs := []; status := None; statusReason := None;
       lastUpdated := None; keywordData := Some (map js kws) |} in
  let db :=
    fst (createEntities 1
           [with_keywords "older"%string
              ["kappa"; "kappa2"; "kappa3"; "kappa4"; "kappa5"; "kappa6"]%string]
           None (initial_db 0)) in
  let db :=
    fst (createEntities 2 [with_keywords "newer"%string ["kappa"]%string]
           None db) in
  fst (addObservations 3
         [ {| entityName := js "newer"; contents := [js "kappa"] |} ]
         None db).

(** Entity ["web"] in the branch ["frontend"] and entity ["api"] in the
    branch ["backend"], both mentioning ["login"]. *)
Definition db_two_branches : DB :=
  let db := fst (createEntities 1 [mkEntity "web" "Form" ["login page"]%string]
                   (Some (js "frontend")) (initial_db 0)) in
  fst (createEntities 2 [mkEntity "api" "Endpoint" ["login route"]%string]
         (Some (js "backend")) db).

(** The store of ["web"] and ["api"] with a third entity, ["old web"], in
    the branch ["frontend"]: it mentions ["login"] too, and its status is
    [deprecated]. *)
Definition db_two_statuses : DB :=
  fst (createEntities 3
         [ {| name := js "old web"; entityType := js "Form";
              observations := [js "login page"]; crossRefs := [];
              status := Some deprecated; statusReason := None;
              lastUpdated := None; keywordData := None |} ]
         (Some (js "frontend")) db_two_branches).

(** The order that the specification asks of the merged results: by
    decreasing relevance, and by decreasing [last_accessed] among rows of
    equal relevance. *)
Definition ranked_before (a b : Row) : Prop :=
  (relevance_score b < relevance_score a)%Q
  \/ ((relevance_score a == relevance_score b)%Q
      /\ ent_last_accessed (row_entity b) <= ent_last_accessed (row_entity a)).

Fixpoint ranked (l : list Row) : Prop :=
  match l with
  | [] => True
  | a :: r => (forall b, In b r -> ranked_before a b) /\ ranked r
  end.

(** ** Text processor: the scores (text-processor.js) *)

(** The [stemmer] package, outside of the sources. *)
Class Stemmer := { stemmer : jsstring -> jsstring }.

Module TextProcessorImpl.

(** [[a-zA-Z]] *)
Definition is_letter (c : N) : bool :=
  (is_upper c || (97 <=? c) && (c <=? 122))%N.

(** [text.match(/[a-zA-Z]+/g) || []]: the maximal runs of letters, from
    the left; [cur] is the run that is being read, reversed. *)
Fixpoint letter_runs_from (cur : jsstring) (s : jsstring) : list jsstring :=
  match s with
  | [] => match cur with [] => [] | _ => [rev cur] end
  | c :: r =>
      if is_letter c then letter_runs_from (c :: cur) r
      else match cur with
           | [] => letter_runs_from [] r
           | _ => rev cur :: letter_runs_from [] r
           end
  end.

Definition letter_runs (s : jsstring) : list jsstring := letter_runs_from [] s.

Definition stopWords : list jsstring :=
  map js
    [ "a"; "an"; "and"; "are"; "as"; "at"; "be"; "by"; "for"; "from"; "has";
      "he"; "in"; "is"; "it"; "its"; "of"; "on"; "that"; "the"; "to"; "was";
      "will"; "with"; "have"; "this"; "but"; "they"; "been"; "into";
      "during"; "including"; "or" ]%string.

Definition isStopWord (word : jsstring) : bool :=
  name_in stopWords (toLowerCase word).

Definition extractMeaningfulWords `{Stemmer} (text : jsstring)
  : list jsstring :=
  let words := letter_runs (toLowerCase text) in
  map stemmer
    (List.filter (fun word => negb (isStopWord word))
       (List.filter (fun word => (2 <? length word)%nat) words)).

(** The cells [matrix[j][1..]] of one row of the Levenshtein matrix.
    [c2] is [str2[j - 1]]; [str1] is what is left of the first string;
    [prev] holds [matrix[j - 1]] from the cell above-left of the current
    one on, and [left] is the cell to the left of the current one. *)
Fixpoint lev_row (c2 : N) (str1 : jsstring) (prev : list Z) (left : Z)
  : list Z :=
  match str1, prev with
  | c1 :: str1', diag :: ((up :: _) as prev') =>
      let substitutionCost := if (c1 =? c2)%N then 0 else 1 in
      let cell :=
        Z.min (Z.min (left + 1) (up + 1)) (diag + substitutionCost) in
      cell :: lev_row c2 str1' prev' cell
  | _, _ => []
  end.

(** The last row of the matrix, built row by row from [matrix[j - 1]]. *)
Fixpoint lev_rows (str1 str2 : jsstring) (j : Z) (prev : list Z) : list Z :=
  match str2 with
  | [] => prev
  | c2 :: str2' => lev_rows str1 str2' (j + 1) (j :: lev_row c2 str1 prev j)
  end.

(** [matrix[str2.length][str1.length]] *)
Definition levenshtein (str1 str2 : jsstring) : Z :=
  let first_row := map Z.of_nat (seq 0 (S (length str1))) in
  nth (length str1) (lev_rows str1 str2 1 first_row) 0.

Definition calculateBasicSimilarity `{Rounding} (str1 str2 : jsstring) : Q :=
  if jseqb str1 str2 then 1%Q
  else if (length str1 =? 0)%nat || (length str2 =? 0)%nat then 0%Q
  else
    let distance := levenshtein str1 str2 in
    let maxLength := Z.of_nat (Nat.max (length str1) (length str2)) in
    rnd (1 - rnd (inject_Z distance / inject_Z maxLength))%Q.

Definition calculateSentenceSimilarity `{Stemmer} `{Rounding}
    (text1 text2 : jsstring) : Q :=
  if negb (truthy text1) || negb (truthy text2) then 0%Q
  else
    let basicScore :=
      calculateBasicSimilarity (toLowerCase text1) (toLowerCase text2) in
    let words1 := extractMeaningfulWords text1 in
    let words2 := extractMeaningfulWords text2 in
    if (length words1 =? 0)%nat || (length words2 =? 0)%nat then basicScore
    else
      let wordSetSimilarity :=
        rnd (calculateSetSimilarity (list_to_set words1 : gset jsstring)
                                    (list_to_set words2)) in
      Qmax basicScore (rnd (wordSetSimilarity * rnd 0.8)).

(** [wordCounts.set(word, (wordCounts.get(word) || 0) + 1)] on a [Map],
    which keeps the keys in the order of their first insertion. *)
Fixpoint count_word (word : jsstring) (wordCounts : list (jsstring * Z))
  : list (jsstring * Z) :=
  match wordCounts with
  | [] => [(word, 1)]
  | (w, n) :: rest =>
      if jseqb w word then (w, n + 1) :: rest
      else (w, n) :: count_word word rest
  end.

Record Keyword := { kw_word : jsstring; kw_score : Q }.

Definition extractKeywords `{Stemmer} `{Rounding} (text : jsstring)
    (maxKeywords : nat) : list Keyword :=
  let words := extractMeaningfulWords text in
  let wordCounts := fold_left (fun m word => count_word word m) words [] in
  firstn maxKeywords
    (sort_desc kw_score
       (map (fun '(word, count) =>
               {| kw_word := word;
                  kw_score := rnd (inject_Z count
                                   / inject_Z (Z.of_nat (length words))) |})
            wordCounts)).

Definition calculateSemanticSimilarity `{Stemmer} `{Rounding}
    (text1 text2 : jsstring) : Q :=
  let sentenceScore := calculateSentenceSimilarity text1 text2 in
  let keywords1 := extractKeywords text1 20 in
  let keywords2 := extractKeywords text2 20 in
  let keywordSet1 : gset jsstring := list_to_set (map kw_word keywords1) in
  let keywordSet2 : gset jsstring := list_to_set (map kw_word keywords2) in
  let keywordScore := rnd (calculateSetSimilarity keywordSet1 keywordSet2) in
  let semanticScore :=
    rnd (rnd (sentenceScore * rnd 0.6) + rnd (keywordScore * rnd 0.4))%Q in
  Qmin semanticScore 1.

(** [name.toLowerCase().replace(/[^a-z0-9\s]/g, " ")] *)
Definition clean_name (name : jsstring) : jsstring :=
  map (fun c => if ((97 <=? c) && (c <=? 122))%N || is_digit c || is_space c
                then c else SPACE)
      (toLowerCase name).

(** [s.endsWith(p)] *)
Definition ends_with (p s : jsstring) : bool := starts_with (rev p) (rev s).

(** The [score] of [detectNamePatterns]; the list of pattern names is for
    display. *)
Definition detectNamePatterns `{Rounding} (name1 name2 : jsstring) : Q :=
  let words1 :=
    List.filter (fun w => (2 <? length w)%nat)
                (split_runs is_space (clean_name name1)) in
  let words2 :=
    List.filter (fun w => (2 <? length w)%nat)
                (split_runs is_space (clean_name name2)) in
  let sharedWords := List.filter (fun w => name_in words2 w) words1 in
  let score := 0%Q in
  let score :=
    if (0 <? length sharedWords)%nat
    then rnd (score + rnd (inject_Z (Z.of_nat (length sharedWords)) * 0.25))%Q
    else score in
  let score :=
    fold_left
      (fun score word1 =>
         fold_left
           (fun score word2 =>
              if negb (jseqb word1 word2) then
                let score :=
                  if starts_with word2 word1 || starts_with word1 word2
                  then rnd (score + rnd 0.1)%Q else score in
                if ends_with word2 word1 || ends_with word1 word2
                then rnd (score + rnd 0.1)%Q else score
              else score)
           words2 score)
      words1 score in
  Qmin score 1.

End TextProcessorImpl.

(** The text processor of the sources as the processor of the detector. *)
Definition textProcessor `{Stemmer} `{Rounding} : TextProcessor :=
  {| calculateSentenceSimilarity := TextProcessorImpl.calculateSentenceSimilarity;
     calculateSemanticSimilarity := TextProcessorImpl.calculateSemanticSimilarity;
     detectNamePatterns_score := TextProcessorImpl.detectNamePatterns |}.

(** A stemmer that leaves every word as it is. *)
Definition no_stemmer : Stemmer := {| stemmer := fun w => w |}.


(** What holds of the cell [matrix[j][i]] of the Levenshtein matrix of
    [s1] and [s2]: it lies between the difference of the two indices and
    their maximum, and it is zero only where the two prefixes are equal. *)
Definition cell_ok (s1 s2 : jsstring) (j i : nat) (v : Z) : Prop :=
  Z.abs (Z.of_nat i - Z.of_nat j) <= v <= Z.max (Z.of_nat i) (Z.of_nat j)
  /\ (v = 0 -> firstn i s1 = firstn j s2).

Definition row_ok (s1 s2 : jsstring) (j : nat) (row : list Z) : Prop :=
  length row = S (length s1)
  /\ forall i v, nth_error row i = Some v -> cell_ok s1 s2 j i v.

(** The only white-space characters of [s] are plain spaces. *)
Definition plain_spaces (s : jsstring) : Prop :=
  Forall (fun c => is_space c = true -> c = SPACE) s.

(** [MemoryOptimizer.calculateSimilarity]: the Jaccard index of the two
    sets of lower-case words. *)
Definition calculateSimilarity (text1 text2 : jsstring) : Q :=
  let words1 : gset jsstring :=
    list_to_set (split_runs is_space (toLowerCase text1)) in
  let words2 : gset jsstring :=
    list_to_set (split_runs is_space (toLowerCase text2)) in
  let intersection : gset jsstring := filter (fun x => x ∈ words2) words1 in
  let union : gset jsstring := words1 ∪ words2 in
  if (0 <? size union)%nat
  then (inject_Z (Z.of_nat (size intersection))
        / inject_Z (Z.of_nat (size union)))%Q
  else 0%Q.

(** ** The SQLite store: deletions and updates
       (sqlite-entity-operations.ts, sqlite-relation-operations.ts) *)

(** [DELETE FROM observations WHERE entity_id = ?] *)
Definition delete_observations_of (entityId : Z) : M unit :=
  fun db =>
    (with_observations db
       (List.filter (fun o => negb (obs_entity_id o =? entityId))
                    (observations_table db))
       (seq_observations db),
     Ok tt).

(** [DELETE FROM observations WHERE entity_id = ? AND content = ?] *)
Definition delete_observation (entityId : Z) (content : jsstring) : M unit :=
  fun db =>
    (with_observations db
       (List.filter (fun o => negb ((obs_entity_id o =? entityId)
                                    && jseqb (obs_content o) content))
                    (observations_table db))
       (seq_observations db),
     Ok tt).

(** [DELETE FROM relations WHERE from_entity_id = ? OR to_entity_id = ?] *)
Definition delete_relations_of (entityId : Z) : M unit :=
  fun db =>
    (with_relations db
       (List.filter (fun r => negb ((rel_from_entity_id r =? entityId)
                                    || (rel_to_entity_id r =? entityId)))
                    (relations db))
       (seq_relations db),
     Ok tt).

(** [DELETE FROM keywords WHERE entity_id = ?] *)
Definition delete_keywords_of (entityId : Z) : M unit :=
  fun db =>
    (with_keywords db
       (List.filter (fun k => negb (kw_entity_id k =? entityId))
                    (keywords db))
       (seq_keywords db),
     Ok tt).

(** [DELETE FROM cross_references WHERE from_entity_id = ?] *)
Definition delete_cross_references_of (entityId : Z) : M unit :=
  fun db =>
    (with_cross_references db
       (List.filter (fun c => negb (cr_from_entity_id c =? entityId))
                    (cross_references db))
       (seq_cross_references db),
     Ok tt).

(** [DELETE FROM entities WHERE id = ?]. The foreign keys of
    observations, relations, keywords and cross-references to the entity
    are ON DELETE CASCADE: their rows go with it. *)
Definition delete_entity_row (id : Z) : M unit :=
  (fun db =>
     (with_entities db
        (List.filter (fun e => negb (ent_id e =? id)) (entities db))
        (seq_entities db),
      Ok tt)) ;;;
  delete_observations_of id ;;;
  delete_relations_of id ;;;
  delete_keywords_of id ;;;
  delete_cross_references_of id.

(** [DELETE FROM relations WHERE from_entity_id = ? AND to_entity_id = ?
    AND relation_type = ? AND branch_id = ?] *)
Definition delete_relation (fromId toId : Z) (type : jsstring) (branchId : Z)
  : M unit :=
  fun db =>
    (with_relations db
       (List.filter (fun r => negb ((rel_from_entity_id r =? fromId)
                                    && (rel_to_entity_id r =? toId)
                                    && jseqb (rel_relation_type r) type
                                    && (rel_branch_id r =? branchId)))
                    (relations db))
       (seq_relations db),
     Ok tt).

(** [UPDATE entities SET entity_type = ?, status = ?, status_reason = ?,
    updated_at = ? WHERE id = ?] *)
Definition update_entity_row (now : Z) (id : Z) (type : jsstring)
    (st : EntityStatus) (reason : option jsstring) : M unit :=
  fun db =>
    (with_entities db
       (map (fun e =>
               if ent_id e =? id then
                 {| ent_id := ent_id e; ent_name := ent_name e;
                    ent_entity_type := type;
                    ent_branch_id := ent_branch_id e;
                    ent_status := st;
                    ent_status_reason := reason;
                    ent_original_content := ent_original_content e;
                    ent_optimized_content := ent_optimized_content e;
                    ent_created_at := ent_created_at e;
                    ent_updated_at := now;
                    ent_last_accessed := ent_last_accessed e |}
               else e)
            (entities db))
       (seq_entities db),
     Ok tt).

(** [UPDATE memory_branches SET updated_at = ? WHERE id = ?] *)
Definition touch_branch (now : Z) (id : Z) : M unit :=
  fun db =>
    (with_memory_branches db
       (map (fun b =>
               if br_id b =? id then
                 {| br_id := br_id b; br_name := br_name b;
                    br_purpose := br_purpose b;
                    br_created_at := br_created_at b;
                    br_updated_at := now |}
               else b)
            (memory_branches db))
       (seq_memory_branches db),
     Ok tt).

Definition updateEntity (now : Z) (entity : Entity)
    (branchName : option jsstring) : M Entity :=
  branchId <- getBranchId now branchName ;;
  existingEntity <- query (find_entity (name entity) branchId) ;;
  match existingEntity with
  | None => throw (EntityNotFound (name entity) (branch_or_main branchName))
  | Some existingEntity =>
      update_entity_row now (ent_id existingEntity) (entityType entity)
        (match status entity with Some s => s | None => active end)
        (match statusReason entity with
         | Some r => if truthy r then Some r else None
         | None => None
         end) ;;;
      delete_observations_of (ent_id existingEntity) ;;;
      for_fold (indexed_from 0 (observations entity)) tt
        (fun _ '(i, obs) =>
           insert_observation now (ent_id existingEntity) obs obs i) ;;;
      delete_cross_references_of (ent_id existingEntity) ;;;
      match crossRefs entity with
      | [] => ret tt
      | refs =>
          branchName <- getBranchName branchId ;;
          for_fold refs tt
            (fun _ crossRef =>
               try_catch
                 (createCrossReference now (name entity)
                    (memoryBranch crossRef) (entityNames crossRef)
                    (Some branchName))
                 (fun _ => ret tt))
      end ;;;
      entityCrossRefs <- query (getCrossReferences (name entity) branchId) ;;
      ret {| name := name entity;
             entityType := entityType entity;
             observations := observations entity;
             crossRefs := entityCrossRefs;
             status := status entity;
             statusReason := statusReason entity;
             lastUpdated := Some now;
             keywordData := keywordData entity |}
  end.

Definition deleteEntities (now : Z) (entityNames : list jsstring)
    (branchName : option jsstring) : M unit :=
  match entityNames with
  | [] => ret tt
  | _ =>
      branchId <- getBranchId now branchName ;;
      for_fold entityNames tt
        (fun _ entityName =>
           try_catch
             (entity <- query (find_entity entityName branchId) ;;
              match entity with
              | None => ret tt
              | Some entity =>
                  delete_observations_of (ent_id entity) ;;;
                  delete_relations_of (ent_id entity) ;;;
                  delete_keywords_of (ent_id entity) ;;;
                  delete_cross_references_of (ent_id entity) ;;;
                  delete_entity_row (ent_id entity)
              end)
             (fun error => throw error))
  end.

Definition findEntityByName (now : Z) (n : jsstring)
    (branchName : option jsstring) : M (option Entity) :=
  branchId <-
    match branchName with
    | Some b => if truthy b then (id <- getBranchId now (Some b) ;; ret (Some id))
                else ret None
    | None => ret None
    end ;;
  results <-
    query (fun db =>
             map (fun e => (e, group_concat (map obs_content
                                                 (observations_of e db))))
                 (List.filter
                    (fun e => jseqb (ent_name e) n
                              && match given_id branchId with
                                 | Some id => ent_branch_id e =? id
                                 | None => true
                                 end)
                    (entities db))) ;;
  match results with
  | [] => ret None
  | _ =>
      found <- convertRowsToEntities results ;;
      ret (hd_error found)
  end.

Record ObservationsDeletion := {
  deletion_entityName : jsstring;
  deletion_observations : list jsstring;
}.

Definition deleteObservations (now : Z) (deletions : list ObservationsDeletion)
    (branchName : option jsstring) : M unit :=
  branchId <- getBranchId now branchName ;;
  for_fold deletions tt
    (fun _ deletion =>
       try_catch
         (entity <-
            query (find_entity (deletion_entityName deletion) branchId) ;;
          match entity with
          | None => ret tt
          | Some entity =>
              for_fold (deletion_observations deletion) tt
                (fun _ obsContent =>
                   delete_observation (ent_id entity) obsContent) ;;;
              touch_entity now (ent_id entity)
          end)
         (fun _ => ret tt)).

(** The body of the loop of [deleteRelations], for one relation of the
    list. *)
Definition deleteRelations_body `{Driver} (branchId : Z) (_ : unit)
    (relation : Relation) : M unit :=
  if negb (truthy (from relation)) || negb (truthy (to relation))
     || negb (truthy (relationType relation))
  then ret tt
  else
    try_catch
      (fromEntity <- query (find_entity (from relation) branchId) ;;
       toEntity <- query (find_entity (to relation) branchId) ;;
       match fromEntity, toEntity with
       | Some fromEntity, Some toEntity =>
           runQuery_write
             (delete_relation (ent_id fromEntity) (ent_id toEntity)
                (relationType relation) branchId)
       | _, _ => ret tt
       end)
      (fun _ => ret tt).

Definition deleteRelations `{Driver} (now : Z)
    (relationsToDelete : list Relation) (branchName : option jsstring)
  : M unit :=
  match relationsToDelete with
  | [] => ret tt
  | _ =>
      branchId <- getBranchId now branchName ;;
      for_fold relationsToDelete tt (deleteRelations_body branchId)
  end.

(** [importData(data, branchName)] of the SQLite store, for data that is
    given. *)
Definition importData `{Driver} (now : Z) (data : KnowledgeGraph)
    (branchName : option jsstring) : M unit :=
  branchId <- getBranchId now branchName ;;
  match graph_entities data with
  | [] => ret tt
  | es => createEntities now es branchName ;;; ret tt
  end ;;;
  match graph_relations data with
  | [] => ret tt
  | rs => createRelations now rs branchName ;;; ret tt
  end ;;;
  runQuery_write (touch_branch now branchId).

(** The observations that a call of [deleteObservations] names: those of
    an entity that a deletion names, with a content that this deletion
    lists. *)
Definition named_for_deletion (deletions : list ObservationsDeletion)
    (branchId : Z) (db : DB) (o : ObservationRow) : bool :=
  existsb
    (fun d =>
       match find_entity (deletion_entityName d) branchId db with
       | Some e => (obs_entity_id o =? ent_id e)
                   && name_in (deletion_observations d) (obs_content o)
       | None => false
       end)
    deletions.

(** The columns of an entity that no UPDATE of the store changes. *)
Definition entity_key (e : EntityRow) : Z * jsstring * Z :=
  (ent_id e, ent_name e, ent_branch_id e).

(** The entity rows have distinct ids and, within a branch, distinct
    names, as the PRIMARY KEY and the UNIQUE constraint of the table
    require. *)
Definition entity_keys_unique (db : DB) : Prop :=
  List.NoDup (map ent_id (entities db))
  /\ List.NoDup (map (fun e => (ent_name e, ent_branch_id e)) (entities db)).

(** An entity of the branch that one of the names names, and the id of
    such an entity. *)
Definition named_entity (names : list jsstring) (branchId : Z)
    (e : EntityRow) : bool :=
  (ent_branch_id e =? branchId) && name_in names (ent_name e).

Definition named_entity_id (names : list jsstring) (branchId : Z) (db : DB)
    (id : Z) : bool :=
  existsb (fun e => named_entity names branchId e && (ent_id e =? id))
          (entities db).

(** [db'] is [db] without the entities of the branch that the names
    name, and without the observations, relations, keywords and
    cross-references of these entities. *)
Definition entities_deleted (names : list jsstring) (branchId : Z)
    (db db' : DB) : Prop :=
  let gone := named_entity_id names branchId db in
  entities db'
  = List.filter (fun e => negb (named_entity names branchId e)) (entities db)
  /\ observations_table db'
     = List.filter (fun o => negb (gone (obs_entity_id o)))
                   (observations_table db)
  /\ relations db'
     = List.filter (fun r => negb (gone (rel_from_entity_id r)
                                   || gone (rel_to_entity_id r)))
                   (relations db)
  /\ keywords db'
     = List.filter (fun k => negb (gone (kw_entity_id k))) (keywords db)
  /\ cross_references db'
     = List.filter (fun c => negb (gone (cr_from_entity_id c)))
                   (cross_references db)
  /\ memory_branches db' = memory_branches db.

(** What a cross-reference row says. *)
Definition cross_reference_key (c : CrossRefRow) : Z * Z * jsstring :=
  (cr_from_entity_id c, cr_target_branch_id c, cr_target_entity_name c).

(** The relation rows that a call of [deleteRelations] names: the rows
    of the branch between the two entities of the branch that a complete
    relation of the list names, with its type. *)
Definition named_relation (rels : list Relation) (branchId : Z) (db : DB)
    (r : RelationRow) : bool :=
  existsb
    (fun rel =>
       truthy (from rel) && truthy (to rel) && truthy (relationType rel)
       && match find_entity (from rel) branchId db,
                find_entity (to rel) branchId db with
          | Some f, Some t =>
              (rel_from_entity_id r =? ent_id f)
              && (rel_to_entity_id r =? ent_id t)
              && jseqb (rel_relation_type r) (relationType rel)
              && (rel_branch_id r =? branchId)
          | _, _ => false
          end)
    rels.

(** What an observation row says: its entity, its two contents and its
    sequence order. *)
Definition observation_key (o : ObservationRow)
  : Z * jsstring * jsstring * Z :=
  (obs_entity_id o, obs_content o, obs_optimized_content o,
   obs_sequence_order o).

(** The tables that neither the resolution of a branch name nor a
    cross-reference touches are as in [db]. *)
Definition same_entities_and_observations (db db' : DB) : Prop :=
  entities db' = entities db /\ observations_table db' = observations_table db.

(** The id of the entity of a search row. *)
Definition row_id (r : Row) : Z := ent_id (row_entity r).

(** The [Map] of the merge holds every id once, and under every id a row
    of the entity with that id. *)
Definition keyed_by_id (m : list (Z * Row)) : Prop :=
  List.NoDup (map fst m) /\ forall kv, In kv m -> row_id (snd kv) = fst kv.

(** The row of the main branch and the row of ["alpha"] in the store of
    ["alpha"] and ["beta"]. *)
Definition main_branch_row : BranchRow :=
  {| br_id := 1; br_name := js "main";
     br_purpose := js "Main project memory - core entities, business logic, and system architecture";
     br_created_at := 0; br_updated_at := 0 |}.

Definition alpha_row : EntityRow :=
  let content :=
    {| content_name := js "alpha"; content_entityType := js "Service";
       content_observations := [js "first"] |} in
  {| ent_id := 1; ent_name := js "alpha"; ent_entity_type := js "Service";
     ent_branch_id := 1; ent_status := active; ent_status_reason := None;
     ent_original_content := content; ent_optimized_content := content;
     ent_created_at := 1; ent_updated_at := 1; ent_last_accessed := 1 |}.

(** ** The stores of the program *)

(** The relations table is empty. *)
Definition no_relation (db : DB) : Prop := relations db = [].


(** [x] stands before an occurrence of [y] in [l]. *)
Definition before {A : Type} (l : list A) (x y : A) : Prop :=
  exists l1 l2, l = l1 ++ x :: l2 /\ In y l2.

(** The entity ids of the rows that the three strategies return, in the
    order in which [executeEnhancedSearch] reads them: the rows of the
    keyword strategy, then those of the full-text strategy, then those of
    the LIKE strategy. *)
Definition produced_ids `{FtsEngine} (searchTerms : list jsstring)
    (branchId : option Z) (includeStatuses : option (list EntityStatus))
    (db : DB) : list Z :=
  map row_id
    (searchByKeywords searchTerms branchId includeStatuses db
     ++ searchByFTS searchTerms branchId includeStatuses db
     ++ searchByLike searchTerms branchId includeStatuses db).

(** The id [i] is produced before the id [j] is: it occurs at a place
    before which [j] does not occur. *)
Definition first_produced_before (ids : list Z) (i j : Z) : Prop :=
  exists l1 l2, ids = l1 ++ i :: l2 /\ ~ In j l1 /\ i <> j.

(** The keys of the [Map] after the ids have been set in it, one after the
    other: a new key goes to the end. *)
Fixpoint add_keys (keys ids : list Z) : list Z :=
  match ids with
  | [] => keys
  | i :: r =>
      add_keys (if existsb (Z.eqb i) keys then keys else keys ++ [i]) r
  end.

(** * Properties *)

(** ** Sorting *)

Lemma firstn_In_inv {A : Type} (n : nat) (l : list A) (y : A) :
  In y (firstn n l) -> In y l.
Proof.
  revert l. induction n as [|n IH]; intros [|x r]; simpl; try tauto.
  intros [->|Hy]; [left; reflexivity|right; apply IH; assumption].
Qed.

Section SortDescFacts.
Context {A : Type} (key : A -> Q).

Lemma insert_desc_In (x y : A) (l : list A) :
  In y (insert_desc key x l) <-> y = x \/ In y l.
Proof.
  induction l as [|z r IH]; simpl.
  - intuition.
  - destruct (Qle_bool (key z) (key x)); simpl.
    + intuition.
    + rewrite IH. intuition.
Qed.

Lemma sort_desc_In (y : A) (l : list A) :
  In y (sort_desc key l) <-> In y l.
Proof.
  induction l as [|x r IH]; simpl.
  - reflexivity.
  - rewrite insert_desc_In, IH. intuition.
Qed.

Lemma sort_desc_length (l : list A) :
  length (sort_desc key l) = length l.
Proof.
  assert (Hins : forall x l', length (insert_desc key x l') = S (length l')).
  { intros x l'. induction l' as [|z r IH]; simpl; [reflexivity|].
    destruct (Qle_bool (key z) (key x)); simpl; [reflexivity|].
    now rewrite IH. }
  induction l as [|x r IH]; simpl; [reflexivity|].
  now rewrite Hins, IH.
Qed.

Lemma insert_desc_sorted (x : A) (l : list A) :
  sorted_desc key l -> sorted_desc key (insert_desc key x l).
Proof.
  induction l as [|z r IH]; simpl.
  - intros _. split; [intros y []|exact I].
  - intros [Hz Hr].
    destruct (Qle_bool (key z) (key x)) eqn:E; simpl.
    + apply Qle_bool_iff in E. split; [|split; assumption].
      intros y [<-|Hy]; [assumption|].
      apply Qle_trans with (key z); [apply Hz; assumption|assumption].
    + split; [|apply IH; assumption].
      intros y Hy. apply insert_desc_In in Hy as [->|Hy].
      * apply Qlt_le_weak. apply Qnot_le_lt. intros H.
        apply Qle_bool_iff in H. congruence.
      * apply Hz; assumption.
Qed.

Lemma sort_desc_sorted (l : list A) : sorted_desc key (sort_desc key l).
Proof.
  induction l as [|x r IH]; simpl; [exact I|].
  apply insert_desc_sorted; assumption.
Qed.

(** The sort is stable: the elements of one key keep their order. *)
Lemma insert_desc_stable (k : Q) (x : A) (l : list A) :
  List.filter (fun y => Qeq_bool (key y) k) (insert_desc key x l)
  = List.filter (fun y => Qeq_bool (key y) k) (x :: l).
Proof.
  induction l as [|z r IH]; [reflexivity|].
  cbn [insert_desc]. destruct (Qle_bool (key z) (key x)) eqn:E; [reflexivity|].
  cbn [List.filter] in *. rewrite IH.
  destruct (Qeq_bool (key x) k) eqn:Ex; [|reflexivity].
  destruct (Qeq_bool (key z) k) eqn:Ez; [|reflexivity].
  apply Qeq_bool_iff in Ex, Ez.
  assert (Hle : (key z <= key x)%Q) by (rewrite Ex, Ez; apply Qle_refl).
  apply Qle_bool_iff in Hle. congruence.
Qed.

Lemma sort_desc_stable (k : Q) (l : list A) :
  List.filter (fun y => Qeq_bool (key y) k) (sort_desc key l)
  = List.filter (fun y => Qeq_bool (key y) k) l.
Proof.
  induction l as [|x r IH]; [reflexivity|].
  cbn [sort_desc]. rewrite insert_desc_stable.
  cbn [List.filter]. now rewrite IH.
Qed.

Lemma firstn_sorted (n : nat) (l : list A) :
  sorted_desc key l -> sorted_desc key (firstn n l).
Proof.
  revert l. induction n as [|n IH]; intros [|x r]; simpl; try tauto.
  intros [Hx Hr]. split; [|apply IH; assumption].
  intros y Hy. apply Hx. eapply firstn_In_inv; eassumption.
Qed.
End SortDescFacts.

(** ** Jaccard similarity *)

Section Jaccard.
Context {A : Type} {EqA : EqDecision A} {CountA : Countable A}.

Lemma filter_member_intersection (X Y : gset A) :
  filter (fun x => x ∈ Y) X = X ∩ Y.
Proof.
  apply set_eq. intros x. rewrite elem_of_filter, elem_of_intersection.
  tauto.
Qed.

Lemma size_zero_empty (X : gset A) : (size X =? 0)%nat = true <-> X = ∅.
Proof.
  rewrite Nat.eqb_eq. split.
  - intros Hs. apply leibniz_equiv. apply size_empty_inv. exact Hs.
  - intros ->. apply size_empty.
Qed.

Lemma calculateSetSimilarity_self (X : gset A) :
  (calculateSetSimilarity X X == 1)%Q.
Proof.
  unfold calculateSetSimilarity.
  destruct (size X =? 0)%nat eqn:E; simpl; [reflexivity|].
  rewrite filter_member_intersection.
  rewrite intersection_idemp_L, union_idemp_L.
  apply Nat.eqb_neq in E.
  apply Qmult_inv_r. unfold Qeq, inject_Z. simpl. lia.
Qed.

Lemma calculateSetSimilarity_empty_r (X : gset A) :
  X <> ∅ -> (calculateSetSimilarity X ∅ == 0)%Q.
Proof.
  intros HX. unfold calculateSetSimilarity.
  destruct (size X =? 0)%nat eqn:E.
  - apply size_zero_empty in E. contradiction.
  - rewrite size_empty. simpl. reflexivity.
Qed.

Lemma calculateSetSimilarity_comm (X Y : gset A) :
  (calculateSetSimilarity X Y == calculateSetSimilarity Y X)%Q.
Proof.
  unfold calculateSetSimilarity.
  rewrite !filter_member_intersection.
  rewrite (andb_comm (size X =? 0)%nat), (orb_comm (size X =? 0)%nat).
  rewrite (intersection_comm_L Y X), (union_comm_L Y X).
  reflexivity.
Qed.

(** C8, as amended: for all sets [X] and [Y], the Jaccard similarity of
    [X] with itself is 1, that of a non-empty [X] with the empty set is 0,
    and the similarity is symmetric. *)
Theorem calculateSetSimilarity_laws (X Y : gset A) :
  (calculateSetSimilarity X X == 1)%Q
  /\ (X <> ∅ -> (calculateSetSimilarity X ∅ == 0)%Q)
  /\ (calculateSetSimilarity X Y == calculateSetSimilarity Y X)%Q.
Proof.
  split; [apply calculateSetSimilarity_self|].
  split; [apply calculateSetSimilarity_empty_r|].
  apply calculateSetSimilarity_comm.
Qed.
End Jaccard.

(** The laws at a set of one element and the empty set. *)
Lemma calculateSetSimilarity_laws_witness :
  ({[ 1%N ]} : gset N) <> ∅
  /\ (calculateSetSimilarity ({[ 1%N ]} : gset N) ∅ == 0)%Q.
Proof.
  assert (Hne : ({[ 1%N ]} : gset N) <> ∅).
  { intros Heq. assert (Hin : 1%N ∈ (∅ : gset N)).
    { rewrite <- Heq. apply elem_of_singleton. reflexivity. }
    exact (not_elem_of_empty _ Hin). }
  split; [exact Hne|].
  exact (proj1 (proj2 (calculateSetSimilarity_laws {[ 1%N ]} ∅)) Hne).
Defined.

(** C8, as stated, fails where both sets are empty: the similarity of the
    empty set with the empty set is 1, not 0. *)
Lemma calculateSetSimilarity_empty_empty :
  (calculateSetSimilarity (∅ : gset N) ∅ == 1)%Q
  /\ ~ (calculateSetSimilarity (∅ : gset N) ∅ == 0)%Q.
Proof.
  assert (E : calculateSetSimilarity (∅ : gset N) ∅ = 1%Q).
  { unfold calculateSetSimilarity. rewrite size_empty. reflexivity. }
  rewrite E. split; [reflexivity|]. intros Hq. discriminate Hq.
Qed.

(** ** Relationship detector *)

Section Detector.
Context {tp : TextProcessor} {rounding : Rounding}.

Lemma detect_candidates_In (target : Entity) (candidates : list Entity)
    (r : SimilarEntity) :
  In r (detect_candidates target candidates) ->
  In (sim_entity r) candidates
  /\ name (sim_entity r) <> name target
  /\ similarity r = calculateEntitySimilarity target (sim_entity r)
  /\ Qgtb (similarity r) SIMILARITY_THRESHOLD = true
  /\ confidence r = determineConfidence (similarity r).
Proof.
  induction candidates as [|c rest IH]; simpl; [intros []|].
  unfold jseqb. destruct (bool_decide (name c = name target)) eqn:En.
  - intros Hr. destruct (IH Hr) as [Hin Hrest]. split; [right|]; assumption.
  - apply bool_decide_eq_false in En.
    destruct (Qgtb (calculateEntitySimilarity target c) SIMILARITY_THRESHOLD)
      eqn:Et.
    + intros [<-|Hr]; simpl.
      * repeat split; try reflexivity; try assumption. left; reflexivity.
      * destruct (IH Hr) as [Hin Hrest]. split; [right|]; assumption.
    + intros Hr. destruct (IH Hr) as [Hin Hrest]. split; [right|]; assumption.
Qed.

Lemma Qgtb_lt (a b : Q) : Qgtb a b = true <-> (b < a)%Q.
Proof.
  unfold Qgtb. rewrite negb_true_iff. split.
  - intros E. apply Qnot_le_lt. intros Hle. apply Qle_bool_iff in Hle.
    congruence.
  - intros Hlt. destruct (Qle_bool a b) eqn:E; [|reflexivity].
    apply Qle_bool_iff in E. exfalso. exact (Qlt_not_le _ _ Hlt E).
Qed.

End Detector.

(** ** Memory optimizer *)

Lemma collapse_spaces_single_spaced (b : bool) (s : jsstring) :
  single_spaced b (collapse_spaces_from b s).
Proof.
  revert b. induction s as [|c r IH]; intros b; simpl; [exact I|].
  destruct (is_space c) eqn:Ec.
  - destruct b; [apply IH|]. simpl. auto.
  - simpl. rewrite Ec. apply IH.
Qed.

Lemma collapse_spaces_fixed (b : bool) (s : jsstring) :
  single_spaced b s -> collapse_spaces_from b s = s.
Proof.
  revert b. induction s as [|c r IH]; intros b; simpl; [reflexivity|].
  destruct (is_space c) eqn:Ec.
  - intros (-> & -> & Hr). f_equal. apply IH. exact Hr.
  - intros Hr. f_equal. apply IH. exact Hr.
Qed.

Lemma single_spaced_weaken (s : jsstring) :
  single_spaced true s -> single_spaced false s.
Proof.
  destruct s as [|c r]; simpl; [tauto|].
  destruct (is_space c); [|tauto]. intros (_ & Hf & _). discriminate Hf.
Qed.

Lemma single_spaced_no_newline (b : bool) (s : jsstring) :
  single_spaced b s -> Forall (fun c => (c =? NEWLINE)%N = false) s.
Proof.
  revert b. induction s as [|c r IH]; intros b; simpl; [constructor|].
  destruct (is_space c) eqn:Ec.
  - intros (-> & _ & Hr). constructor; [reflexivity|]. eapply IH. exact Hr.
  - intros Hr. constructor; [|eapply IH; exact Hr].
    destruct (c =? NEWLINE)%N eqn:En; [|reflexivity].
    apply N.eqb_eq in En. subst c. discriminate Ec.
Qed.

Lemma squeeze_newlines_fuel_fixed (fuel : nat) (s : jsstring) :
  Forall (fun c => (c =? NEWLINE)%N = false) s ->
  squeeze_newlines_fuel fuel s = s.
Proof.
  revert s. induction fuel as [|fuel IH]; intros s Hs; simpl; [reflexivity|].
  destruct s as [|c r]; [reflexivity|].
  inversion Hs as [|? ? Hc Hr]; subst. rewrite Hc. f_equal. apply IH. exact Hr.
Qed.

Lemma trimStart_starts_without_space (s : jsstring) :
  starts_without_space (trimStart s).
Proof.
  induction s as [|c r IH]; simpl; [exact I|].
  destruct (is_space c) eqn:Ec; [exact IH|]. simpl. exact Ec.
Qed.

Lemma trimStart_fixed (s : jsstring) :
  starts_without_space s -> trimStart s = s.
Proof. destruct s as [|c r]; simpl; [reflexivity|]. now intros ->. Qed.

Lemma trimStart_single_spaced (b : bool) (s : jsstring) :
  single_spaced b s -> single_spaced false (trimStart s).
Proof.
  revert b. induction s as [|c r IH]; intros b; simpl; [tauto|].
  destruct (is_space c) eqn:Ec.
  - intros (_ & _ & Hr). eapply IH. exact Hr.
  - intros Hr. simpl. rewrite Ec. exact Hr.
Qed.

Lemma trimStart_snoc (s : jsstring) (c : N) :
  trimStart (s ++ [c]) =
  match trimStart s with
  | [] => if is_space c then [] else [c]
  | t => t ++ [c]
  end.
Proof.
  induction s as [|d r IH]; simpl.
  - destruct (is_space c); reflexivity.
  - destruct (is_space d); [exact IH|reflexivity].
Qed.

(** [trimEnd] by recursion from the left. *)
Lemma trimEnd_cons (c : N) (s : jsstring) :
  trimEnd (c :: s) =
  match trimEnd s with
  | [] => if is_space c then [] else [c]
  | t => c :: t
  end.
Proof.
  unfold trimEnd. simpl. rewrite trimStart_snoc.
  destruct (trimStart (rev s)) as [|d t] eqn:E; simpl.
  - destruct (is_space c); reflexivity.
  - rewrite rev_app_distr. simpl.
    destruct (rev t ++ [d]) eqn:E'; [|reflexivity].
    destruct (rev t); discriminate E'.
Qed.

Lemma trimEnd_single_spaced (b : bool) (s : jsstring) :
  single_spaced b s -> single_spaced b (trimEnd s).
Proof.
  revert b. induction s as [|c r IH]; intros b Hs; [exact I|].
  rewrite trimEnd_cons. simpl in Hs.
  destruct (trimEnd r) as [|d t] eqn:E.
  - destruct (is_space c) eqn:Ec; simpl; [exact I|]. rewrite Ec. exact I.
  - simpl. simpl in IH. destruct (is_space c) eqn:Ec.
    + destruct Hs as (Hc & Hb & Hr). repeat split; try assumption.
      apply (IH true Hr).
    + apply (IH false Hs).
Qed.

Lemma trimEnd_starts_without_space (s : jsstring) :
  starts_without_space s -> starts_without_space (trimEnd s).
Proof.
  destruct s as [|c r]; [intros _; exact I|].
  rewrite trimEnd_cons. simpl. intros Ec.
  destruct (trimEnd r); [rewrite Ec|]; simpl; exact Ec.
Qed.

Lemma trimEnd_idempotent (s : jsstring) : trimEnd (trimEnd s) = trimEnd s.
Proof.
  unfold trimEnd. rewrite rev_involutive.
  rewrite (trimStart_fixed (trimStart (rev s))); [reflexivity|].
  apply trimStart_starts_without_space.
Qed.

Lemma minimalCompression_trim_collapse (text : jsstring) :
  minimalCompression text = trim (collapse_spaces text).
Proof.
  unfold minimalCompression, squeeze_newlines.
  rewrite squeeze_newlines_fuel_fixed; [reflexivity|].
  apply (single_spaced_no_newline false).
  apply collapse_spaces_single_spaced.
Qed.

Lemma minimalCompression_idempotent (text : jsstring) :
  minimalCompression (minimalCompression text) = minimalCompression text.
Proof.
  rewrite (minimalCompression_trim_collapse text).
  set (c := collapse_spaces text).
  assert (Hc : single_spaced false c) by apply collapse_spaces_single_spaced.
  assert (Ht : single_spaced false (trim c)).
  { unfold trim. apply trimEnd_single_spaced.
    eapply trimStart_single_spaced. exact Hc. }
  rewrite minimalCompression_trim_collapse.
  unfold collapse_spaces at 1. rewrite (collapse_spaces_fixed false _ Ht).
  unfold trim at 1. rewrite trimStart_fixed.
  - unfold trim. apply trimEnd_idempotent.
  - unfold trim. apply trimEnd_starts_without_space.
    apply trimStart_starts_without_space.
Qed.

(** C7, as amended: for every input text, [optimize] at the level
    [minimal] is idempotent on the optimized text. *)
Theorem optimize_minimal_idempotent (x : jsstring) :
  optimized (optimize minimal (optimized (optimize minimal x)))
  = optimized (optimize minimal x).
Proof. simpl. apply minimalCompression_idempotent. Qed.

(** C7, as stated, fails at the levels [balanced] and [aggressive]:
    ["go a very a go"] is optimized to ["go a a go"] and that to ["go go"]
    at the level [balanced], and ["o-is r"] to ["o-=r"] and that to the
    empty text at the level [aggressive]. *)
Lemma optimize_not_idempotent :
  (optimized (optimize balanced (js "go a very a go")) = js "go a a go"
   /\ optimized (optimize balanced (js "go a a go")) = js "go go"
   /\ optimized (optimize aggressive (js "o-is r")) = js "o-=r"
   /\ optimized (optimize aggressive (js "o-=r")) = js "")
  /\ ~ (forall (level : CompressionLevel) (x : jsstring),
          optimized (optimize level (optimized (optimize level x)))
          = optimized (optimize level x)).
Proof.
  split; [repeat split; vm_compute; reflexivity|].
  intros Hall. specialize (Hall aggressive (js "o-is r")).
  vm_compute in Hall. discriminate Hall.
Qed.

(** ** The store monad *)

Lemma preserves_ret {A : Type} (P : DB -> Prop) (a : A) : preserves P (ret a).
Proof. intros db H. exact H. Qed.

Lemma preserves_throw {A : Type} (P : DB -> Prop) (e : Error) :
  preserves P (@throw A e).
Proof. intros db H. exact H. Qed.

Lemma preserves_query {A : Type} (P : DB -> Prop) (q : DB -> A) : preserves P (query q).
Proof. intros db H. exact H. Qed.

Lemma preserves_bind {A B : Type} (P : DB -> Prop) (m : M A) (k : A -> M B) :
  preserves P m -> (forall a, preserves P (k a)) -> preserves P (bind m k).
Proof.
  intros Hm Hk db H. unfold bind. specialize (Hm db H).
  destruct (m db) as [db' [a|e]]; simpl in *; [apply Hk|]; assumption.
Qed.

Lemma preserves_try_catch {A : Type} (P : DB -> Prop) (m : M A) (h : Error -> M A) :
  preserves P m -> (forall e, preserves P (h e)) ->
  preserves P (try_catch m h).
Proof.
  intros Hm Hh db H. unfold try_catch. specialize (Hm db H).
  destruct (m db) as [db' [a|e]]; simpl in *; [|apply Hh]; assumption.
Qed.

Lemma preserves_for_fold {A B : Type} (P : DB -> Prop) (l : list A) (acc : B)
    (body : B -> A -> M B) :
  (forall acc x, preserves P (body acc x)) -> preserves P (for_fold l acc body).
Proof.
  intros Hbody. revert acc. induction l as [|x r IH]; intros acc; simpl.
  - apply preserves_ret.
  - apply preserves_bind; [apply Hbody|]. intros acc'.
    intros db H. apply IH. exact H.
Qed.

Lemma preserves_runQuery_write `{Driver} (P : DB -> Prop) (m : M unit) :
  preserves P m -> preserves P (runQuery_write m).
Proof.
  intros Hm. unfold runQuery_write.
  destruct all_executes_writes; [exact Hm|apply preserves_throw].
Qed.

Lemma establishes_bind {A B : Type} (P : DB -> Prop) (m : M A) (k : A -> M B) :
  establishes P m -> (forall a, preserves P (k a)) -> establishes P (bind m k).
Proof.
  intros Hm Hk db. unfold bind. specialize (Hm db).
  destruct (m db) as [db' [a|e]]; simpl in *; [apply Hk|]; assumption.
Qed.

Lemma succeeds_ret {A : Type} (a : A) : succeeds (ret a).
Proof. intros db. exists a. reflexivity. Qed.

Lemma succeeds_query {A : Type} (q : DB -> A) : succeeds (query q).
Proof. intros db. exists (q db). reflexivity. Qed.

Lemma succeeds_bind {A B : Type} (m : M A) (k : A -> M B) :
  succeeds m -> (forall a, succeeds (k a)) -> succeeds (bind m k).
Proof.
  intros Hm Hk db. unfold bind. destruct (Hm db) as [a Ha].
  destruct (m db) as [db' [a'|e]]; simpl in Ha; [|discriminate].
  apply Hk.
Qed.

Lemma succeeds_try_catch {A : Type} (m : M A) (h : Error -> M A) :
  (forall e, succeeds (h e)) -> succeeds (try_catch m h).
Proof.
  intros Hh db. unfold try_catch.
  destruct (m db) as [db' [a|e]]; [exists a; reflexivity|apply Hh].
Qed.

Lemma succeeds_for_fold {A B : Type} (l : list A) (acc : B) (body : B -> A -> M B) :
  (forall acc x, succeeds (body acc x)) -> succeeds (for_fold l acc body).
Proof.
  intros Hbody. revert acc. induction l as [|x r IH]; intros acc; simpl.
  - apply succeeds_ret.
  - apply succeeds_bind; [apply Hbody|]. intros acc'. apply IH.
Qed.

(** ** Branches *)

Lemma find_snoc {A : Type} (f : A -> bool) (l : list A) (x : A) :
  find f (l ++ [x]) =
  match find f l with
  | Some y => Some y
  | None => if f x then Some x else None
  end.
Proof.
  induction l as [|y r IH]; simpl; [reflexivity|].
  destruct (f y); [reflexivity|exact IH].
Qed.

Lemma jseqb_refl (a : jsstring) : jseqb a a = true.
Proof. unfold jseqb. apply bool_decide_eq_true. reflexivity. Qed.

Lemma jseqb_eq (a b : jsstring) : jseqb a b = true <-> a = b.
Proof. unfold jseqb. apply bool_decide_eq_true. Qed.

Lemma find_branch_by_name_name (n : jsstring) (db : DB) (b : BranchRow) :
  find_branch_by_name n db = Some b -> br_name b = n /\ In b (memory_branches db).
Proof.
  unfold find_branch_by_name. intros Hf. apply find_some in Hf as [Hin Hn].
  apply jseqb_eq in Hn. split; assumption.
Qed.

Lemma getBranchId_existing (now : Z) (branchName : option jsstring) (db : DB)
    (b : BranchRow) :
  find_branch_by_name (branch_or_main branchName) db = Some b ->
  getBranchId now branchName db = (db, Ok (br_id b)).
Proof.
  intros Hf. unfold getBranchId, bind, query. rewrite Hf. reflexivity.
Qed.

Lemma getBranchId_missing (now : Z) (branchName : option jsstring) (db : DB) :
  find_branch_by_name (branch_or_main branchName) db = None ->
  let id := next_rowid (seq_memory_branches db)
                       (map br_id (memory_branches db)) in
  getBranchId now branchName db =
  (with_memory_branches db
     (memory_branches db
      ++ [auto_created_branch now id (branch_or_main branchName)]) id,
   Ok id).
Proof.
  intros Hf id. unfold getBranchId, bind, query, insert_branch.
  cbv beta. rewrite !Hf. cbv beta iota delta [is_some].
  unfold find_branch_by_name in *. cbn [memory_branches with_memory_branches].
  rewrite find_snoc, Hf. cbn [br_name]. rewrite jseqb_refl. reflexivity.
Qed.

Lemma getBranchId_succeeds (now : Z) (branchName : option jsstring) :
  succeeds (getBranchId now branchName).
Proof.
  intros db.
  destruct (find_branch_by_name (branch_or_main branchName) db) as [b|] eqn:E.
  - rewrite (getBranchId_existing _ _ _ _ E). eexists. reflexivity.
  - rewrite (getBranchId_missing now _ _ E). eexists. reflexivity.
Qed.

Lemma getBranchId_establishes (now : Z) (branchName : option jsstring) :
  establishes (has_branch (branch_or_main branchName))
              (getBranchId now branchName).
Proof.
  intros db. unfold has_branch.
  destruct (find_branch_by_name (branch_or_main branchName) db) as [b|] eqn:E.
  - rewrite (getBranchId_existing _ _ _ _ E). simpl. now rewrite E.
  - rewrite (getBranchId_missing now _ _ E). simpl.
    unfold find_branch_by_name in *. simpl. rewrite find_snoc, E. simpl.
    now rewrite jseqb_refl.
Qed.

Lemma getBranchId_resolves (now : Z) (branchName : option jsstring) (db : DB) :
  exists db1 br,
    getBranchId now branchName db = (db1, Ok (br_id br))
    /\ find_branch_by_name (branch_or_main branchName) db1 = Some br
    /\ entities db1 = entities db
    /\ relations db1 = relations db.
Proof.
  destruct (find_branch_by_name (branch_or_main branchName) db) as [br|] eqn:E.
  - exists db, br. rewrite (getBranchId_existing _ _ _ _ E). auto.
  - eexists.
    exists (auto_created_branch now
              (next_rowid (seq_memory_branches db)
                          (map br_id (memory_branches db)))
              (branch_or_main branchName)).
    rewrite (getBranchId_missing now _ _ E).
    split; [reflexivity|]. split; [|split; reflexivity].
    unfold find_branch_by_name in *.
    cbn [memory_branches with_memory_branches]. rewrite find_snoc, E.
    cbn [auto_created_branch br_name]. rewrite jseqb_refl. reflexivity.
Qed.

(** The statements other than the deletion of a branch keep every branch
    row. *)
Lemma has_branch_same_branches (n : jsstring) (db db' : DB) :
  memory_branches db' = memory_branches db -> has_branch n db ->
  has_branch n db'.
Proof.
  unfold has_branch, find_branch_by_name. now intros ->.
Qed.

Lemma insert_branch_has_branch (now : Z) (n m purpose : jsstring) :
  preserves (has_branch n) (insert_branch now m purpose).
Proof.
  intros db Hn. unfold insert_branch.
  destruct (is_some (find_branch_by_name m db)); [exact Hn|].
  unfold has_branch, find_branch_by_name in *.
  cbn [fst memory_branches with_memory_branches]. rewrite find_snoc.
  destruct (find _ (memory_branches db)); [reflexivity|discriminate Hn].
Qed.

Lemma insert_entity_has_branch (now : Z) (n x type : jsstring) (branchId : Z)
    (st : EntityStatus) (reason : option jsstring) (content : EntityContent) :
  preserves (has_branch n) (insert_entity now x type branchId st reason content).
Proof.
  intros db Hn. unfold insert_entity.
  destruct (_ || _); [exact Hn|].
  eapply has_branch_same_branches; [|exact Hn]. reflexivity.
Qed.

Lemma insert_observation_has_branch (now : Z) (n : jsstring) (entityId : Z)
    (c o : jsstring) (i : Z) :
  preserves (has_branch n) (insert_observation now entityId c o i).
Proof.
  intros db Hn. unfold insert_observation.
  destruct (negb _); [exact Hn|].
  eapply has_branch_same_branches; [|exact Hn]. reflexivity.
Qed.

Lemma insert_keyword_has_branch (n k : jsstring) (entityId : Z) (w : Q)
    (c : jsstring) :
  preserves (has_branch n) (insert_keyword k entityId w c).
Proof.
  intros db Hn. unfold insert_keyword.
  destruct (negb _); [exact Hn|].
  eapply has_branch_same_branches; [|exact Hn]. reflexivity.
Qed.

Lemma insert_or_ignore_relation_has_branch (now : Z) (n : jsstring)
    (a b : Z) (type : jsstring) (branchId : Z) :
  preserves (has_branch n) (insert_or_ignore_relation now a b type branchId).
Proof.
  intros db Hn. unfold insert_or_ignore_relation.
  destruct (is_some _); [exact Hn|].
  destruct (_ || _); [exact Hn|].
  eapply has_branch_same_branches; [|exact Hn]. reflexivity.
Qed.

Lemma insert_or_ignore_cross_reference_has_branch (now : Z) (n : jsstring)
    (a b : Z) (target : jsstring) :
  preserves (has_branch n) (insert_or_ignore_cross_reference now a b target).
Proof.
  intros db Hn. unfold insert_or_ignore_cross_reference.
  destruct (_ || _); [exact Hn|].
  eapply has_branch_same_branches; [|exact Hn]. reflexivity.
Qed.

Lemma touch_entity_has_branch (now : Z) (n : jsstring) (id : Z) :
  preserves (has_branch n) (touch_entity now id).
Proof.
  intros db Hn. eapply has_branch_same_branches; [|exact Hn]. reflexivity.
Qed.

Create HintDb store_preserves discriminated.

#[local] Hint Resolve insert_branch_has_branch insert_entity_has_branch
  insert_observation_has_branch insert_keyword_has_branch
  insert_or_ignore_relation_has_branch
  insert_or_ignore_cross_reference_has_branch touch_entity_has_branch
  : store_preserves.

(** One step through the structure of an operation, for a goal
    [preserves P m] or [succeeds m]. *)
Ltac store_step :=
  match goal with
  | |- preserves _ (bind _ _) => apply preserves_bind; [|intros ?]
  | |- preserves _ (ret _) => apply preserves_ret
  | |- preserves _ (throw _) => apply preserves_throw
  | |- preserves _ (query _) => apply preserves_query
  | |- preserves _ (runQuery_write _) => apply preserves_runQuery_write
  | |- preserves _ (try_catch _ _) => apply preserves_try_catch; [|intros ?]
  | |- preserves _ (for_fold _ _ _) => apply preserves_for_fold; intros ? ?
  | |- succeeds (bind _ _) => apply succeeds_bind; [|intros ?]
  | |- succeeds (ret _) => apply succeeds_ret
  | |- succeeds (query _) => apply succeeds_query
  | |- succeeds (try_catch _ _) => apply succeeds_try_catch; intros ?
  | |- succeeds (for_fold _ _ _) => apply succeeds_for_fold; intros ? ?
  | |- _ (match ?x with _ => _ end) => destruct x
  | |- _ _ (match ?x with _ => _ end) => destruct x
  end.

Ltac store_auto := repeat (store_step || solve [eauto with store_preserves]).

Lemma getBranchId_has_branch (now : Z) (n : jsstring)
    (branchName : option jsstring) :
  preserves (has_branch n) (getBranchId now branchName).
Proof. unfold getBranchId. store_auto. Qed.

#[local] Hint Resolve getBranchId_has_branch getBranchId_succeeds
  : store_preserves.

Lemma createCrossReference_has_branch (now : Z) (n entity targetBranch : jsstring)
    (targets : list jsstring) (sourceBranch : option jsstring) :
  preserves (has_branch n)
    (createCrossReference now entity targetBranch targets sourceBranch).
Proof. unfold createCrossReference. store_auto. Qed.

#[local] Hint Resolve createCrossReference_has_branch : store_preserves.

Lemma createSingleEntity_has_branch (now : Z) (n : jsstring) (entity : Entity)
    (branchId : Z) :
  preserves (has_branch n) (createSingleEntity now entity branchId).
Proof. unfold createSingleEntity, getBranchName. store_auto. Qed.

#[local] Hint Resolve createSingleEntity_has_branch : store_preserves.

Lemma createEntities_branch (now : Z) (es : list Entity)
    (branchName : option jsstring) :
  succeeds (createEntities now es branchName)
  /\ establishes (has_branch (branch_or_main branchName))
                 (createEntities now es branchName).
Proof.
  unfold createEntities. split; [store_auto|].
  apply establishes_bind; [apply getBranchId_establishes|]. intros id.
  store_auto.
Qed.

Lemma addObservations_branch (now : Z) (obs : list ObservationsInput)
    (branchName : option jsstring) :
  succeeds (addObservations now obs branchName)
  /\ establishes (has_branch (branch_or_main branchName))
                 (addObservations now obs branchName).
Proof.
  unfold addObservations, addObservations_body. split; [store_auto|].
  apply establishes_bind; [apply getBranchId_establishes|]. intros id.
  store_auto.
Qed.

Lemma createRelations_branch `{Driver} (now : Z) (rels : list Relation)
    (branchName : option jsstring) :
  succeeds (createRelations now rels branchName)
  /\ (rels <> [] ->
      establishes (has_branch (branch_or_main branchName))
                  (createRelations now rels branchName)).
Proof.
  unfold createRelations. split.
  - destruct rels; unfold createRelations_body; store_auto.
  - destruct rels as [|r rest]; [congruence|]. intros _.
    apply establishes_bind; [apply getBranchId_establishes|]. intros id.
    unfold createRelations_body. store_auto.
Qed.

Lemma exportBranch_branch (now : Z) (branchName : option jsstring) :
  succeeds (exportBranch now branchName)
  /\ establishes (has_branch (branch_or_main branchName))
                 (exportBranch now branchName).
Proof.
  unfold exportBranch, convertRowsToEntities, getAllRelationsForBranch.
  split; [store_auto|].
  apply establishes_bind; [apply getBranchId_establishes|]. intros id.
  store_auto.
Qed.

Lemma createCrossReference_branches (now : Z) (entity targetBranch : jsstring)
    (targets : list jsstring) (sourceBranch : option jsstring) :
  establishes (has_branch (branch_or_main sourceBranch))
    (createCrossReference now entity targetBranch targets sourceBranch)
  /\ establishes (has_branch (branch_or_main (Some targetBranch)))
       (createCrossReference now entity targetBranch targets sourceBranch).
Proof.
  unfold createCrossReference. split.
  - apply establishes_bind; [apply getBranchId_establishes|]. intros id.
    store_auto.
  - intros db. unfold bind at 1.
    destruct (getBranchId now sourceBranch db) as [db1 [id|e]] eqn:E1.
    + revert db1 E1. intros db1 _. revert db1.
      apply establishes_bind; [apply getBranchId_establishes|]. intros id2.
      store_auto.
    + destruct (getBranchId_succeeds now sourceBranch db) as [a Ha].
      rewrite E1 in Ha. discriminate Ha.
Qed.

Lemma next_rowid_fresh (seq : Z) (ids : list Z) (x : Z) :
  In x ids -> x < next_rowid seq ids.
Proof.
  unfold next_rowid. induction ids as [|y r IH]; simpl; [intros []|].
  intros [->|Hx]; [lia|]. specialize (IH Hx). lia.
Qed.

Lemma next_rowid_above (seq : Z) (ids : list Z) : seq < next_rowid seq ids.
Proof.
  unfold next_rowid.
  induction ids as [|x l IH]; cbn [fold_right]; lia.
Qed.

Lemma find_branch_by_id_In (id : Z) (db : DB) :
  is_some (find_branch_by_id id db) = true ->
  In id (map br_id (memory_branches db)).
Proof.
  unfold find_branch_by_id.
  destruct (find _ (memory_branches db)) as [b|] eqn:E; [|discriminate].
  intros _. apply find_some in E as [Hin Hid]. apply Z.eqb_eq in Hid.
  subst id. apply in_map. exact Hin.
Qed.

Lemma existsb_false_forall {A : Type} (f : A -> bool) (l : list A) :
  (forall x, In x l -> f x = false) -> existsb f l = false.
Proof.
  induction l as [|y r IH]; simpl; [reflexivity|].
  intros Hall. rewrite (Hall y (or_introl eq_refl)). apply IH.
  intros x Hx. apply Hall. right. exact Hx.
Qed.

Lemma filter_all {A : Type} (f : A -> bool) (l : list A) :
  (forall x, In x l -> f x = true) ->
  filter (fun x => f x = true) l = l.
Proof.
  induction l as [|y r IH]; [reflexivity|].
  intros Hall. rewrite filter_cons_True by (apply Hall; left; reflexivity).
  f_equal. apply IH. intros x Hx. apply Hall. right. exact Hx.
Qed.

(** A row of id [id] is referred to by nothing when [id] is larger than
    every branch id and the foreign keys hold. *)
Lemma fresh_branch_unreferenced (db : DB) (id : Z) :
  branch_keys_hold db = true ->
  (forall x, In x (map br_id (memory_branches db)) -> x < id) ->
  existsb (fun e => ent_branch_id e =? id) (entities db)
  || existsb (fun r => rel_branch_id r =? id) (relations db)
  || existsb (fun c => cr_target_branch_id c =? id) (cross_references db)
  = false.
Proof.
  unfold branch_keys_hold. rewrite !andb_true_iff, !forallb_forall.
  intros [[He Hr] Hc] Hfresh.
  rewrite !existsb_false_forall; [reflexivity| | |].
  - intros c Hin. apply Z.eqb_neq. intros Heq.
    specialize (Hfresh _ (find_branch_by_id_In _ _ (Hc c Hin))). lia.
  - intros r Hin. apply Z.eqb_neq. intros Heq.
    specialize (Hfresh _ (find_branch_by_id_In _ _ (Hr r Hin))). lia.
  - intros e Hin. apply Z.eqb_neq. intros Heq.
    specialize (Hfresh _ (find_branch_by_id_In _ _ (He e Hin))). lia.
Qed.

Lemma branch_or_main_given (b : jsstring) :
  b <> [] -> branch_or_main (Some b) = b.
Proof. destruct b; [congruence|reflexivity]. Qed.

(** [deleteBranch] on a branch that does not exist: the row is created and
    deleted again, which leaves the table as it was and the sequence of
    the table one higher. *)
Lemma deleteBranch_missing (now : Z) (b : jsstring) (db : DB) :
  b <> [] -> b <> js "main" -> find_branch_by_name b db = None ->
  branch_keys_hold db = true ->
  deleteBranch now b db =
  (with_memory_branches db (memory_branches db)
     (next_rowid (seq_memory_branches db) (map br_id (memory_branches db))),
   Ok tt).
Proof.
  intros Hb Hmain Hf Hfk. unfold deleteBranch.
  destruct (jseqb b (js "main")) eqn:Em;
    [apply jseqb_eq in Em; contradiction|].
  unfold bind. rewrite getBranchId_missing;
    rewrite (branch_or_main_given b Hb); [|exact Hf].
  set (id := next_rowid _ _).
  unfold delete_branch_row.
  cbn [entities relations cross_references memory_branches
       seq_memory_branches with_memory_branches].
  rewrite (fresh_branch_unreferenced db id Hfk)
    by (intros x Hx; apply next_rowid_fresh; exact Hx).
  rewrite filter_app.
  rewrite (filter_cons_False _ (auto_created_branch now id b))
    by (cbn [auto_created_branch br_id]; rewrite Z.eqb_refl; discriminate).
  rewrite filter_nil, app_nil_r.
  rewrite (filter_all (fun x => negb (br_id x =? id))); [reflexivity|].
  intros x Hx. apply negb_true_iff. apply Z.eqb_neq.
  pose proof (next_rowid_fresh (seq_memory_branches db) _ _
                (in_map br_id _ _ Hx)) as Hlt.
  fold id in Hlt. lia.
Qed.

(** C10: for every branch name other than ["main"] for which no branch
    exists, the resolution of the name inserts a branch row of that name
    instead of failing, and so does every store operation that resolves
    it: [createEntities], [addObservations], [createRelations] (on a
    non-empty batch) and [exportBranch] succeed and leave the branch in
    place, [createCrossReference] leaves its source and its target branch in
    place; [deleteBranch] creates the row and deletes it again without an
    error: the table of branches is as before, and the id that the row
    took is used up, the next branch gets a higher one. This holds
    whatever the driver does with a statement sent through [runQuery]. *)
Theorem missing_branch_is_created {driver : Driver} (now : Z) (b : jsstring)
    (db : DB) :
  b <> [] -> b <> js "main" -> find_branch_by_name b db = None ->
  (let id := next_rowid (seq_memory_branches db)
                        (map br_id (memory_branches db)) in
   getBranchId now (Some b) db =
   (with_memory_branches db
      (memory_branches db ++ [auto_created_branch now id b]) id, Ok id))
  /\ (forall es,
        (exists created, snd (createEntities now es (Some b) db) = Ok created)
        /\ has_branch b (fst (createEntities now es (Some b) db)))
  /\ (forall obs,
        (exists added, snd (addObservations now obs (Some b) db) = Ok added)
        /\ has_branch b (fst (addObservations now obs (Some b) db)))
  /\ (forall rels, rels <> [] ->
        (exists created, snd (createRelations now rels (Some b) db) = Ok created)
        /\ has_branch b (fst (createRelations now rels (Some b) db)))
  /\ (forall entity targetBranch targets,
        has_branch b
          (fst (createCrossReference now entity targetBranch targets (Some b)
                  db)))
  /\ (forall entity targets sourceBranch,
        has_branch b
          (fst (createCrossReference now entity b targets sourceBranch db)))
  /\ ((exists g, snd (exportBranch now (Some b) db) = Ok g)
      /\ has_branch b (fst (exportBranch now (Some b) db)))
  /\ (branch_keys_hold db = true ->
      snd (deleteBranch now b db) = Ok tt
      /\ memory_branches (fst (deleteBranch now b db)) = memory_branches db
      /\ (let id := next_rowid (seq_memory_branches db)
                               (map br_id (memory_branches db)) in
          deleteBranch now b db
          = delete_branch_row id (fst (getBranchId now (Some b) db))
          /\ seq_memory_branches (fst (deleteBranch now b db)) = id
          /\ seq_memory_branches db < id
          /\ fst (deleteBranch now b db) <> db)).
Proof.
  intros Hb Hmain Hf.
  pose proof (branch_or_main_given b Hb) as Hbm.
  split.
  { pose proof (getBranchId_missing now (Some b) db) as Hg.
    rewrite Hbm in Hg. exact (Hg Hf). }
  split.
  { intros es. destruct (createEntities_branch now es (Some b)) as [Hs He].
    rewrite Hbm in He. split; [apply Hs|apply He]. }
  split.
  { intros obs. destruct (addObservations_branch now obs (Some b)) as [Hs He].
    rewrite Hbm in He. split; [apply Hs|apply He]. }
  split.
  { intros rels Hne.
    destruct (createRelations_branch now rels (Some b)) as [Hs He].
    rewrite Hbm in He. split; [apply Hs|apply (He Hne)]. }
  split.
  { intros entity targetBranch targets.
    destruct (createCrossReference_branches now entity targetBranch targets
                (Some b)) as [Hs _].
    rewrite Hbm in Hs. apply Hs. }
  split.
  { intros entity targets sourceBranch.
    destruct (createCrossReference_branches now entity b targets sourceBranch)
      as [_ Ht].
    rewrite Hbm in Ht. apply Ht. }
  split.
  { destruct (exportBranch_branch now (Some b)) as [Hs He].
    rewrite Hbm in He. split; [apply Hs|apply He]. }
  intros Hfk.
  assert (Hrun : deleteBranch now b db
                 = delete_branch_row
                     (next_rowid (seq_memory_branches db)
                                 (map br_id (memory_branches db)))
                     (fst (getBranchId now (Some b) db))).
  { unfold deleteBranch.
    destruct (jseqb b (js "main")) eqn:Em;
      [apply jseqb_eq in Em; contradiction|].
    pose proof (getBranchId_missing now (Some b) db) as Hg.
    rewrite Hbm in Hg. unfold bind. rewrite (Hg Hf). reflexivity. }
  assert (Hseq : seq_memory_branches db
                 < next_rowid (seq_memory_branches db)
                              (map br_id (memory_branches db))).
  { apply next_rowid_above. }
  cbv zeta. rewrite <- Hrun.
  rewrite (deleteBranch_missing now b db Hb Hmain Hf Hfk).
  cbn [fst snd memory_branches seq_memory_branches with_memory_branches].
  split; [reflexivity|]. split; [reflexivity|].
  split; [reflexivity|]. split; [reflexivity|]. split; [exact Hseq|].
  intros Heq. apply (f_equal seq_memory_branches) in Heq.
  cbn [seq_memory_branches with_memory_branches] in Heq. lia.
Qed.

(** The branch ["docs"] on a fresh store, which has the main branch
    alone. *)
Lemma missing_branch_is_created_witness :
  js "docs" <> [] /\ js "docs" <> js "main"
  /\ find_branch_by_name (js "docs") (initial_db 0) = None
  /\ branch_keys_hold (initial_db 0) = true
  /\ snd (deleteBranch 1 (js "docs") (initial_db 0)) = Ok tt
  /\ memory_branches (fst (deleteBranch 1 (js "docs") (initial_db 0)))
     = memory_branches (initial_db 0)
  /\ seq_memory_branches (initial_db 0) = 1
  /\ seq_memory_branches (fst (deleteBranch 1 (js "docs") (initial_db 0))) = 2
  /\ has_branch (js "docs")
       (fst (createEntities 1 [] (Some (js "docs")) (initial_db 0))).
Proof.
  assert (H1 : js "docs" <> []) by (vm_compute; discriminate).
  assert (H2 : js "docs" <> js "main") by (vm_compute; discriminate).
  assert (H3 : find_branch_by_name (js "docs") (initial_db 0) = None)
    by reflexivity.
  assert (H4 : branch_keys_hold (initial_db 0) = true) by reflexivity.
  destruct (@missing_branch_is_created driver_refuses 1 (js "docs")
              (initial_db 0) H1 H2 H3)
    as (_ & Hcreate & _ & _ & _ & _ & _ & Hdelete).
  destruct (Hdelete H4) as (Hok & Hsame & _ & Hseq & _).
  split; [exact H1|]. split; [exact H2|]. split; [exact H3|].
  split; [exact H4|]. split; [exact Hok|]. split; [exact Hsame|].
  split; [reflexivity|]. split; [exact Hseq|].
  exact (proj2 (Hcreate [])).
Defined.

(** An empty branch name is no name: it resolves to the main branch, and
    in a fresh store [deleteBranch("")] deletes the row of the main
    branch. *)
Lemma empty_branch_name_is_main :
  getBranchId 1 (Some []) (initial_db 0) = (initial_db 0, Ok 1)
  /\ snd (deleteBranch 1 [] (initial_db 0)) = Ok tt
  /\ memory_branches (fst (deleteBranch 1 [] (initial_db 0))) = [].
Proof. repeat split. Qed.

(** ** Relations: the INSERT that the driver refuses *)

Lemma find_entity_id (n : jsstring) (branchId : Z) (db : DB) (e : EntityRow) :
  find_entity n branchId db = Some e ->
  is_some (find_entity_by_id (ent_id e) db) = true.
Proof.
  unfold find_entity, find_entity_by_id. intros Hf.
  apply find_some in Hf as [Hin _].
  destruct (find _ (entities db)) as [x|] eqn:E; [reflexivity|].
  apply (find_none _ _ E) in Hin. rewrite Z.eqb_refl in Hin. discriminate Hin.
Qed.

Section CreateRelationsLoop.
Context {driver : Driver}.
Variables (now : Z) (branchId : Z).

(** With a driver that refuses the INSERT the error is caught and the
    relation is dropped. *)
Lemma createRelations_body_refused (acc : list Relation) (r : Relation) (db : DB) :
  all_executes_writes = false ->
  createRelations_body now branchId acc r db = (db, Ok acc).
Proof.
  unfold createRelations_body, runQuery_write. intros ->.
  destruct (_ || _); [reflexivity|].
  unfold try_catch, bind, query, throw.
  destruct (find_entity (from r) branchId db); [|reflexivity].
  destruct (find_entity (to r) branchId db); reflexivity.
Qed.

Lemma createRelations_loop_refused (rels acc : list Relation) (db : DB) :
  all_executes_writes = false ->
  for_fold rels acc (createRelations_body now branchId) db = (db, Ok acc).
Proof.
  intros Hno. induction rels as [|r rest IH]; [reflexivity|].
  cbn [for_fold]. unfold bind.
  rewrite (createRelations_body_refused acc r db Hno). exact IH.
Qed.

End CreateRelationsLoop.

Lemma find_branch_by_name_id (n : jsstring) (db : DB) (br : BranchRow) :
  find_branch_by_name n db = Some br ->
  is_some (find_branch_by_id (br_id br) db) = true.
Proof.
  unfold find_branch_by_name, find_branch_by_id. intros Hf.
  apply find_some in Hf as [Hin _].
  destruct (find _ (memory_branches db)) as [x|] eqn:E; [reflexivity|].
  apply (find_none _ _ E) in Hin. rewrite Z.eqb_refl in Hin. discriminate Hin.
Qed.

(** When the driver refuses the INSERT, [createRelations] stores no
    relation and returns none, whatever the batch, already at the first
    call. *)
Lemma createRelations_refused {driver : Driver} (now : Z)
    (rels : list Relation) (branchName : option jsstring) (db : DB) :
  all_executes_writes = false ->
  snd (createRelations now rels branchName db) = Ok []
  /\ relations (fst (createRelations now rels branchName db)) = relations db.
Proof.
  intros Hno. unfold createRelations. destruct rels as [|r0 rest].
  - split; reflexivity.
  - destruct (getBranchId_resolves now branchName db)
      as (dbA & br & Hg & _ & _ & Hr).
    unfold bind. rewrite Hg, (createRelations_loop_refused _ _ _ _ _ Hno).
    split; [reflexivity|exact Hr].
Qed.

(** C1: the INSERT of [createRelations] goes through [runQuery], which the
    driver of the program refuses; the error is caught inside the loop,
    before the relation is pushed. So every call of [createRelations]
    returns the empty list and leaves the relations table as it is: a
    second call with the same batch writes nothing at all and returns no
    created relation, and a relation that exists already is never in the
    list that is returned. *)
Theorem createRelations_again_adds_nothing (now now' : Z)
    (rels : list Relation) (branchName : option jsstring) (db : DB) :
  let createRelations := @createRelations driver_refuses in
  exists db1,
    createRelations now rels branchName db = (db1, Ok [])
    /\ relations db1 = relations db
    /\ createRelations now' rels branchName db1 = (db1, Ok []).
Proof.
  cbv zeta. unfold createRelations. destruct rels as [|r0 rest].
  - exists db. repeat split.
  - destruct (getBranchId_resolves now branchName db)
      as (db1 & br & Hg & Hf & _ & Hr).
    exists db1. unfold bind.
    rewrite Hg, (getBranchId_existing now' _ _ _ Hf).
    rewrite !(@createRelations_loop_refused driver_refuses _ _ _ _ _ eq_refl).
    repeat split. exact Hr.
Qed.

(** ** Observations: what [addObservations] appends *)

Lemma appended_orders_bound (startSeq i : Z) (cs : list jsstring) (s : Z) :
  In s (appended_orders startSeq i cs) -> startSeq + i <= s.
Proof.
  revert i. induction cs as [|c r IH]; intros i; simpl; [intros []|].
  destruct (non_blank c); [intros [<-|Hs]; [lia|]|intros Hs];
    specialize (IH _ Hs); lia.
Qed.

Lemma appended_orders_increasing (startSeq i : Z) (cs : list jsstring) :
  StronglySorted Z.lt (appended_orders startSeq i cs).
Proof.
  revert i. induction cs as [|c r IH]; intros i; simpl; [constructor|].
  destruct (non_blank c); [|apply IH].
  constructor; [apply IH|]. apply Forall_forall. intros s Hs.
  apply list_elem_of_In in Hs.
  apply appended_orders_bound in Hs. lia.
Qed.

Lemma addObservations_loop (now entityId startSeq : Z) (cs : list jsstring)
    (i : Z) (acc : list jsstring) (db : DB) :
  is_some (find_entity_by_id entityId db) = true ->
  exists db' rows,
    for_fold (indexed_from i cs) acc
      (addObservations_body now entityId startSeq) db
    = (db', Ok (acc ++ List.filter non_blank cs))
    /\ observations_table db' = observations_table db ++ rows
    /\ entities db' = entities db
    /\ memory_branches db' = memory_branches db
    /\ map obs_content rows = List.filter non_blank cs
    /\ map obs_sequence_order rows = appended_orders startSeq i cs
    /\ (forall o, In o rows -> obs_entity_id o = entityId).
Proof.
  revert i acc db. induction cs as [|c r IH]; intros i acc db He.
  - exists db, []. cbn. rewrite !app_nil_r. repeat split; auto.
    intros o [].
  - cbn [indexed_from for_fold List.filter appended_orders].
    unfold bind at 1. unfold addObservations_body at 1. fold (non_blank c).
    destruct (non_blank c) eqn:Ec.
    + unfold bind at 1. unfold insert_observation at 1. rewrite He.
      cbn [negb]. unfold ret at 1.
      set (db1 := with_observations db _ _).
      destruct (IH (i + 1) (acc ++ [c]) db1 He)
        as (db' & rows & Hloop & Ho & Hent & Hm & Hc & Hs & Hid).
      exists db'. eexists. rewrite Hloop. rewrite <- app_assoc.
      split; [reflexivity|]. rewrite Ho. subst db1.
      cbn [observations_table with_observations]. rewrite <- app_assoc.
      split; [reflexivity|]. split; [exact Hent|]. split; [exact Hm|].
      cbn [app map obs_content obs_sequence_order].
      split; [now rewrite Hc|]. split; [now rewrite Hs|].
      intros o [<-|Ho']; [reflexivity|apply Hid; exact Ho'].
    + unfold ret at 1.
      destruct (IH (i + 1) acc db He)
        as (db' & rows & Hloop & Ho & Hent & Hm & Hc & Hs & Hid).
      exists db', rows. rewrite Hloop. repeat split; assumption.
Qed.

(** [addObservations] for one entity that exists: the contents that are
    not blank are appended in order and returned; their sequence orders
    increase strictly from [startSeq] on, which is one more than the maximum
    before the call, except that it is 0 when that maximum is 0. *)
Lemma addObservations_appends (now : Z) (n : jsstring) (cs : list jsstring)
    (branchName : option jsstring) (db : DB) (br : BranchRow) (e : EntityRow) :
  find_branch_by_name (branch_or_main branchName) db = Some br ->
  find_entity n (br_id br) db = Some e ->
  let max_seq := max_sequence_order (ent_id e) db in
  let startSeq := (if max_seq =? 0 then 0 else max_seq + 1) in
  exists db' rows,
    addObservations now [ {| entityName := n; contents := cs |} ] branchName db
    = (db', Ok [ {| added_entityName := n;
                    addedObservations := List.filter non_blank cs |} ])
    /\ observations_table db' = observations_table db ++ rows
    /\ map obs_content rows = List.filter non_blank cs
    /\ (forall o, In o rows -> obs_entity_id o = ent_id e)
    /\ StronglySorted Z.lt (map obs_sequence_order rows)
    /\ (forall o, In o rows -> startSeq <= obs_sequence_order o).
Proof.
  intros Hbr He max_seq startSeq. unfold addObservations.
  unfold bind at 1. rewrite (getBranchId_existing now _ _ _ Hbr).
  cbn [for_fold]. unfold bind at 1. unfold try_catch at 1.
  unfold bind at 1. unfold query at 1. cbn [entityName]. rewrite He.
  unfold bind at 1. unfold query at 1. fold max_seq.
  assert (Hstart : or_minus_one max_seq + 1 = startSeq).
  { unfold or_minus_one, startSeq. destruct (max_seq =? 0); reflexivity. }
  rewrite Hstart. cbn [contents].
  destruct (addObservations_loop now (ent_id e) startSeq cs 0 [] db
              (find_entity_id _ _ _ _ He))
    as (db1 & rows & Hloop & Ho & Hent & Hm & Hc & Hs & Hid).
  unfold bind at 1. rewrite Hloop. unfold bind at 1.
  unfold touch_entity at 1. unfold ret. cbn [app].
  eexists. exists rows. split; [reflexivity|].
  cbn [observations_table with_entities].
  split; [exact Ho|]. split; [exact Hc|]. split; [exact Hid|].
  rewrite Hs. split; [apply appended_orders_increasing|].
  intros o Hin. apply (in_map obs_sequence_order) in Hin.
  rewrite Hs in Hin. apply appended_orders_bound in Hin. lia.
Qed.

(** ** Entities, observations and relations at concrete inputs *)

(** C9 (the code departs from the claim): an entity whose name is empty
    or blank is created without an error and stored under the name
    ["Unnamed Entity"]. *)
Theorem createEntities_blank_name_is_stored :
  (exists db e,
     createEntities 1 [mkEntity "" "Invalid" []] None (initial_db 0)
     = (db, Ok [e])
     /\ name e = js "Unnamed Entity"
     /\ map ent_name (entities db) = [js "Unnamed Entity"])
  /\ (exists db e,
        createEntities 1 [mkEntity "   " "Invalid" []] None (initial_db 0)
        = (db, Ok [e])
        /\ name e = js "Unnamed Entity"
        /\ map ent_name (entities db) = [js "Unnamed Entity"]).
Proof.
  split; eexists; eexists; (split; [vm_compute; reflexivity|]);
    split; reflexivity.
Qed.

(** C3 (the code departs from the claim): for an entity whose only
    observation has the sequence order 0, the observation that
    [addObservations] appends receives the sequence order 0 again, which
    is not greater than the maximum before the call. *)
Theorem addObservations_repeats_sequence_zero :
  let input := [ {| entityName := js "alpha"; contents := [js "second"] |} ] in
  let call := addObservations 2 input None db_alpha_beta in
  max_sequence_order 1 db_alpha_beta = 0
  /\ snd call =
     Ok [ {| added_entityName := js "alpha";
             addedObservations := [js "second"] |} ]
  /\ map (fun o => (obs_entity_id o, obs_content o, obs_sequence_order o))
         (observations_table (fst call))
     = [(1, js "first", 0); (1, js "second", 0)].
Proof. repeat split. Qed.

(** ** The stores of the program hold no relation *)

Lemma insert_branch_no_relation (now : Z) (n purpose : jsstring) :
  preserves no_relation (insert_branch now n purpose).
Proof.
  intros d H. unfold insert_branch. destruct (is_some _); exact H.
Qed.

Lemma delete_branch_row_no_relation (id : Z) :
  preserves no_relation (delete_branch_row id).
Proof.
  intros d H. unfold delete_branch_row. destruct (_ || _); exact H.
Qed.

Lemma insert_entity_no_relation (now : Z) (n type : jsstring) (branchId : Z)
    (st : EntityStatus) (reason : option jsstring) (content : EntityContent) :
  preserves no_relation (insert_entity now n type branchId st reason content).
Proof.
  intros d H. unfold insert_entity. destruct (_ || _); exact H.
Qed.

Lemma insert_observation_no_relation (now entityId : Z) (c o : jsstring)
    (i : Z) :
  preserves no_relation (insert_observation now entityId c o i).
Proof.
  intros d H. unfold insert_observation. destruct (negb _); exact H.
Qed.

Lemma insert_keyword_no_relation (k : jsstring) (entityId : Z) (w : Q)
    (c : jsstring) :
  preserves no_relation (insert_keyword k entityId w c).
Proof.
  intros d H. unfold insert_keyword. destruct (negb _); exact H.
Qed.

Lemma insert_or_ignore_cross_reference_no_relation (now a b : Z)
    (target : jsstring) :
  preserves no_relation (insert_or_ignore_cross_reference now a b target).
Proof.
  intros d H. unfold insert_or_ignore_cross_reference.
  destruct (_ || _); exact H.
Qed.

Lemma touch_entity_no_relation (now id : Z) :
  preserves no_relation (touch_entity now id).
Proof. intros d H. exact H. Qed.

Lemma update_entity_row_no_relation (now id : Z) (type : jsstring)
    (st : EntityStatus) (reason : option jsstring) :
  preserves no_relation (update_entity_row now id type st reason).
Proof. intros d H. exact H. Qed.

Lemma delete_observations_of_no_relation (id : Z) :
  preserves no_relation (delete_observations_of id).
Proof. intros d H. exact H. Qed.

Lemma delete_observation_no_relation (id : Z) (content : jsstring) :
  preserves no_relation (delete_observation id content).
Proof. intros d H. exact H. Qed.

Lemma delete_keywords_of_no_relation (id : Z) :
  preserves no_relation (delete_keywords_of id).
Proof. intros d H. exact H. Qed.

Lemma delete_cross_references_of_no_relation (id : Z) :
  preserves no_relation (delete_cross_references_of id).
Proof. intros d H. exact H. Qed.

Lemma delete_relations_of_no_relation (id : Z) :
  preserves no_relation (delete_relations_of id).
Proof.
  intros d H. unfold no_relation, delete_relations_of in *.
  cbn [fst relations with_relations]. now rewrite H.
Qed.

#[local] Hint Resolve insert_branch_no_relation delete_branch_row_no_relation
  insert_entity_no_relation insert_observation_no_relation
  insert_keyword_no_relation insert_or_ignore_cross_reference_no_relation
  touch_entity_no_relation update_entity_row_no_relation
  delete_observations_of_no_relation delete_observation_no_relation
  delete_keywords_of_no_relation delete_cross_references_of_no_relation
  delete_relations_of_no_relation : store_preserves.

Lemma delete_entity_row_no_relation (id : Z) :
  preserves no_relation (delete_entity_row id).
Proof.
  unfold delete_entity_row. store_auto.
  intros d H. exact H.
Qed.

#[local] Hint Resolve delete_entity_row_no_relation : store_preserves.
















(** ** Search *)

(** What [getRelationsForEntities] selects: every relation has its
    from-endpoint or its to-endpoint among the names, and its row is of the
    given branch when a branch id is given. *)
Lemma getRelationsForEntities_either_endpoint (names : list jsstring)
    (branchId : option Z) (db : DB) (r : Relation) :
  (exists rels,
     getRelationsForEntities names branchId db = (db, Ok rels)
     /\ (In r rels ->
         (name_in names (from r) = true \/ name_in names (to r) = true)
         /\ exists row ef et,
              In row (relations db)
              /\ find_entity_by_id (rel_from_entity_id row) db = Some ef
              /\ find_entity_by_id (rel_to_entity_id row) db = Some et
              /\ r = {| from := ent_name ef; to := ent_name et;
                        relationType := rel_relation_type row |}
              /\ forall id, given_id branchId = Some id ->
                            rel_branch_id row = id)).
Proof.
  unfold getRelationsForEntities. destruct names as [|n ns].
  - exists []. split; [reflexivity|]. intros [].
  - eexists. split; [reflexivity|]. unfold select_relations. intros Hr.
    apply in_flat_map in Hr as (row & Hrow & Hr).
    destruct (find_entity_by_id (rel_from_entity_id row) db) as [ef|] eqn:Ef;
      [|destruct Hr].
    destruct (find_entity_by_id (rel_to_entity_id row) db) as [et|] eqn:Et;
      [|destruct Hr].
    destruct (_ && _) eqn:Ec; [|destruct Hr]. destruct Hr as [<-|[]].
    apply andb_true_iff in Ec as [Hany Hbranch]. cbn [from to].
    split; [apply orb_true_iff; exact Hany|].
    exists row, ef, et. repeat split; try assumption.
    intros id Hid. rewrite Hid in Hbranch. apply Z.eqb_eq. exact Hbranch.
Qed.



(** C5, as stated, fails on the tie-break: for the query ["kappa"] the
    entity ["older"] is found through its six keywords (6 + 15) and
    ["newer"] through its keyword and its observation (1 + 15 + 5); both
    have the merged relevance 21, and ["older"], whose [last_accessed] is
    the smaller one, comes first; so it is when the full-text index is
    unavailable and when it reports no row. *)
Lemma executeEnhancedSearch_tie_not_by_last_accessed :
  let tie (engine : FtsEngine) :=
    let results :=
      @executeEnhancedSearch engine (prepareSearchTerms (js "kappa"))
        (Some 1) None db_older_newer in
    map (fun r => (ent_name (row_entity r), relevance_score r,
                   ent_last_accessed (row_entity r))) results
    = [(js "older", 21%Q, 1); (js "newer", 21%Q, 2)]
    /\ ~ ranked results in
  tie fts_unavailable /\ tie (fts_fixed []).
Proof.
  assert (Hnot : forall results a b rest,
             results = a :: b :: rest ->
             relevance_score a = 21%Q -> relevance_score b = 21%Q ->
             ent_last_accessed (row_entity a) = 1 ->
             ent_last_accessed (row_entity b) = 2 ->
             ~ ranked results).
  { intros results a b rest -> Ha Hb Hta Htb [Hfirst _].
    destruct (Hfirst b (or_introl eq_refl)) as [Hlt|[_ Hle]].
    - rewrite Ha, Hb in Hlt. discriminate Hlt.
    - rewrite Hta, Htb in Hle. lia. }
  cbv zeta.
  split; (split; [vm_compute; reflexivity|]);
    (eapply Hnot; [vm_compute; reflexivity|reflexivity..]).
Qed.

(** *** Every strategy filters by branch and status, and the merge keeps
        the entity of every row *)

Section SearchScope.
Context {engine : FtsEngine}.
Variables (branchId : option Z) (includeStatuses : option (list EntityStatus))
          (db : DB).

Local Abbreviation in_scope := (in_scope branchId includeStatuses db).
Local Abbreviation values_in_scope :=
  (values_in_scope branchId includeStatuses db).

Lemma searchByKeywords_in_scope (searchTerms : list jsstring) (r : Row) :
  In r (searchByKeywords searchTerms branchId includeStatuses db) ->
  in_scope (row_entity r).
Proof.
  unfold searchByKeywords. intros Hr. apply sort_desc_In in Hr.
  apply in_flat_map in Hr as (e & He & Hr).
  destruct (branch_and_status _ _ e) eqn:Eb; [|destruct Hr].
  destruct (keyword_join searchTerms e db) as [|[o k] rest]; [destruct Hr|].
  destruct Hr as [<-|[]]. split; assumption.
Qed.

Lemma fts_rows_in_scope (hits : list (Z * Q)) (seen : list Z) (r : Row) :
  In r (fts_rows hits seen branchId (effective_statuses includeStatuses) db) ->
  in_scope (row_entity r).
Proof.
  revert seen. induction hits as [|[rowid rank] rest IH]; intros seen;
    simpl; [intros []|].
  destruct (find_entity_by_id rowid db) as [e|] eqn:Ef; [|apply IH].
  destruct (branch_and_status _ _ e) eqn:Eb; simpl; [|apply IH].
  destruct (negb _); simpl; [|apply IH].
  intros [<-|Hr]; [|eapply IH; exact Hr].
  split; [|exact Eb]. unfold find_entity_by_id in Ef.
  apply find_some in Ef. apply Ef.
Qed.

Lemma searchByFTS_in_scope (searchTerms : list jsstring) (r : Row) :
  In r (searchByFTS searchTerms branchId includeStatuses db) ->
  in_scope (row_entity r).
Proof.
  unfold searchByFTS. destruct (fts_match _ _); [|intros []].
  apply fts_rows_in_scope.
Qed.

Lemma searchByLike_in_scope (searchTerms : list jsstring) (r : Row) :
  In r (searchByLike searchTerms branchId includeStatuses db) ->
  in_scope (row_entity r).
Proof.
  unfold searchByLike. intros Hr. apply sort_desc_In in Hr.
  apply sort_desc_In in Hr. apply in_flat_map in Hr as (e & He & Hr).
  destruct (branch_and_status _ _ e) eqn:Eb; [|destruct Hr].
  destruct (filter _ _) as [|o rest]; [destruct Hr|].
  destruct (0 <? _); [|destruct Hr].
  destruct Hr as [<-|[]]. split; assumption.
Qed.

Lemma map_set_in_scope (id : Z) (v : Row) (results : list (Z * Row)) :
  in_scope (row_entity v) -> values_in_scope results ->
  values_in_scope (map_set id v results).
Proof.
  intros Hv. induction results as [|[k w] rest IH]; simpl; intros Hall.
  - intros kv [<-|[]]. exact Hv.
  - destruct (k =? id).
    + intros kv [<-|Hin]; [exact Hv|]. apply Hall. right. exact Hin.
    + intros kv [<-|Hin]; [apply (Hall (k, w)); left; reflexivity|].
      apply IH; [|exact Hin]. intros kv' Hin'. apply Hall. right. exact Hin'.
Qed.

Lemma map_get_in_scope (id : Z) (results : list (Z * Row)) (v : Row) :
  values_in_scope results -> map_get id results = Some v ->
  in_scope (row_entity v).
Proof.
  induction results as [|[k w] rest IH]; simpl; intros Hall; [discriminate|].
  destruct (k =? id).
  - intros [= <-]. apply (Hall (k, w)). left. reflexivity.
  - apply IH. intros kv Hin. apply Hall. right. exact Hin.
Qed.

Lemma merge_strategy_in_scope (bonus : Q) (found : list Row)
    (results : list (Z * Row)) :
  (forall r, In r found -> in_scope (row_entity r)) ->
  values_in_scope results -> values_in_scope (merge_strategy bonus found results).
Proof.
  unfold merge_strategy. revert results.
  induction found as [|r rest IH]; intros results Hfound Hall; simpl;
    [exact Hall|].
  apply IH; [intros r' Hr'; apply Hfound; right; exact Hr'|].
  destruct (map_get _ results) as [existing|] eqn:Eg.
  - apply map_set_in_scope; [|exact Hall].
    apply (map_get_in_scope _ _ _ Hall Eg).
  - apply map_set_in_scope; [|exact Hall].
    simpl. apply Hfound. left. reflexivity.
Qed.

Lemma keyword_merge_in_scope (found : list Row) (results : list (Z * Row)) :
  (forall r, In r found -> in_scope (row_entity r)) ->
  values_in_scope results ->
  values_in_scope
    (fold_left
       (fun results result =>
          map_set (ent_id (row_entity result))
                  (with_score result (relevance_score result + 15)%Q) results)
       found results).
Proof.
  revert results.
  induction found as [|r rest IH]; intros results Hfound Hall; simpl;
    [exact Hall|].
  apply IH; [intros r' Hr'; apply Hfound; right; exact Hr'|].
  apply map_set_in_scope; [|exact Hall]. simpl. apply Hfound. left.
  reflexivity.
Qed.

Lemma executeEnhancedSearch_in_scope (searchTerms : list jsstring) (r : Row) :
  In r (executeEnhancedSearch searchTerms branchId includeStatuses db) ->
  in_scope (row_entity r).
Proof.
  unfold executeEnhancedSearch. destruct searchTerms as [|t ts]; [intros []|].
  cbv zeta. intros Hr. apply firstn_In_inv in Hr. apply sort_desc_In in Hr.
  apply list_elem_of_In in Hr. apply list_elem_of_filter in Hr as [_ Hr].
  apply list_elem_of_In in Hr. apply in_map_iff in Hr as (kv & <- & Hkv).
  revert kv Hkv.
  apply merge_strategy_in_scope; [apply searchByLike_in_scope|].
  apply merge_strategy_in_scope; [apply searchByFTS_in_scope|].
  apply keyword_merge_in_scope; [apply searchByKeywords_in_scope|].
  intros kv [].
Qed.
End SearchScope.

Lemma status_in_In (statuses : list EntityStatus) (s : EntityStatus) :
  status_in statuses s = true -> In s statuses.
Proof.
  unfold status_in. intros Hs. apply existsb_exists in Hs as (x & Hx & Heq).
  destruct s, x; try discriminate Heq; exact Hx.
Qed.

Lemma STAR_not_empty (b : jsstring) :
  b <> [] -> b <> STAR -> truthy b && negb (jseqb b STAR) = true.
Proof.
  intros Hb Hs. destruct b; [congruence|]. simpl.
  destruct (jseqb _ STAR) eqn:E; [|reflexivity].
  apply jseqb_eq in E. contradiction.
Qed.

Section SearchEntities.
Context {engine : FtsEngine}.

(** C4: [searchEntities] always returns a graph; every entity of the graph
    comes from an entity row whose status is one of the statuses asked
    for, when a non-empty list of statuses is given, and is [active] when
    no list (or an empty one) is given; when a specific branch is requested
    (a name other than ["*"]), the row belongs to that branch; with ["*"]
    the entities may come from different branches, as they do for the query
    ["login"] on a store with the branches ["frontend"] and ["backend"]. *)
Theorem searchEntities_branch_and_status (now : Z) (q : jsstring)
    (branchName : option jsstring)
    (includeStatuses : option (list EntityStatus)) (db : DB) :
  (exists db' g,
     searchEntities now q branchName includeStatuses db = (db', Ok g)
     /\ entities db' = entities db
     /\ forall e, In e (graph_entities g) ->
          exists row,
            In row (entities db)
            /\ name e = ent_name row
            /\ status e = Some (ent_status row)
            /\ (forall statuses,
                  includeStatuses = Some statuses -> statuses <> [] ->
                  In (ent_status row) statuses)
            /\ (includeStatuses = None \/ includeStatuses = Some [] ->
                ent_status row = active)
            /\ forall b, branchName = Some b -> b <> [] -> b <> STAR ->
                 exists br,
                   find_branch_by_name b db' = Some br
                   /\ ent_branch_id row = br_id br)
  /\ (exists g,
        snd (@searchEntities fts_unavailable 3 (js "login") (Some STAR) None
               db_two_branches) = Ok g
        /\ map name (graph_entities g) = [js "api"; js "web"]
        /\ map (fun e => (ent_name e, ent_branch_id e))
               (entities db_two_branches)
           = [(js "web", 2); (js "api", 3)]).
Proof.
  split.
  2:{ eexists. split; [vm_compute; reflexivity|]. split; reflexivity. }
  unfold searchEntities, performSearch, performSearch_rows,
    convertRowsToEntities.
  (* the branch of the search *)
  set (resolve := match branchName with
                  | Some b => if truthy b && negb (jseqb b STAR) then _ else _
                  | None => _
                  end).
  assert (Hres : exists db1 bid,
             resolve db = (db1, Ok bid) /\ entities db1 = entities db
             /\ forall b, branchName = Some b -> b <> [] -> b <> STAR ->
                  exists br, find_branch_by_name b db1 = Some br
                             /\ bid = Some (br_id br)).
  { subst resolve. destruct branchName as [b|].
    - destruct (truthy b && negb (jseqb b STAR)) eqn:Eb.
      + destruct (getBranchId_resolves now (Some b) db)
          as (db1 & br & Hg & Hf & He & _).
        exists db1, (Some (br_id br)). unfold bind. rewrite Hg.
        split; [reflexivity|]. split; [exact He|].
        intros b' [= <-] Hne _. exists br.
        rewrite (branch_or_main_given b Hne) in Hf. auto.
      + exists db, None. split; [reflexivity|]. split; [reflexivity|].
        intros b' [= <-] Hne Hstar.
        rewrite (STAR_not_empty b Hne Hstar) in Eb. discriminate Eb.
    - exists db, None. split; [reflexivity|]. split; [reflexivity|].
      intros b' Hb'. discriminate Hb'. }
  destruct Hres as (db1 & bid & Hres & Hent1 & Hbranch).
  unfold bind at 1 2 3. rewrite Hres. unfold query at 1 2. cbv beta iota.
  set (rows := executeEnhancedSearch (prepareSearchTerms q) bid
                 includeStatuses db1).
  set (found := map _ (map _ rows)).
  (* the relations of the entities found *)
  set (relate := match found with [] => _ | _ => _ end).
  assert (Hrel : exists db' rels,
             relate db1 = (db', Ok rels) /\ entities db' = entities db1
             /\ forall b br, branchName = Some b -> b <> [] ->
                  find_branch_by_name b db1 = Some br ->
                  find_branch_by_name b db' = Some br).
  { subst relate. destruct found as [|e0 found'].
    - exists db1, []. split; [reflexivity|]. split; [reflexivity|]. auto.
    - destruct branchName as [b|].
      + destruct (truthy b) eqn:Et.
        * destruct (getBranchId_resolves now (Some b) db1)
            as (db2 & br2 & Hg & Hf & He & _).
          unfold bind. rewrite Hg. unfold getRelationsForEntities.
          cbn [map]. unfold query. eexists. eexists.
          split; [reflexivity|]. split; [exact He|].
          intros b' br [= <-] Hne Hf1.
          rewrite <- (branch_or_main_given b Hne) in Hf1.
          rewrite (getBranchId_existing _ _ _ _ Hf1) in Hg.
          injection Hg as <- _. rewrite (branch_or_main_given b Hne) in Hf1.
          exact Hf1.
        * unfold bind, ret, getRelationsForEntities. cbn [map]. unfold query.
          eexists. eexists. split; [reflexivity|]. split; [reflexivity|].
          auto.
      + unfold bind, ret, getRelationsForEntities. cbn [map]. unfold query.
        eexists. eexists. split; [reflexivity|]. split; [reflexivity|].
        auto. }
  destruct Hrel as (db' & rels & Hrel & Hent' & Hkeep).
  unfold bind. rewrite Hrel. exists db'. eexists. split; [reflexivity|].
  split; [congruence|].
  cbn [graph_entities]. intros e He. subst found.
  apply in_map_iff in He as ([row obs] & <- & Hin).
  apply in_map_iff in Hin as (r & [= <- <-] & Hr).
  apply executeEnhancedSearch_in_scope in Hr as [Hrow Hscope].
  exists (row_entity r). rewrite <- Hent1.
  split; [exact Hrow|]. split; [reflexivity|]. split; [reflexivity|].
  unfold branch_and_status in Hscope. apply andb_true_iff in Hscope as [Hb Hs].
  apply status_in_In in Hs.
  split.
  { intros statuses -> Hne. destruct statuses as [|s0 rest]; [congruence|].
    exact Hs. }
  split.
  { intros [->| ->]; destruct Hs as [Hs|[]]; symmetry; exact Hs. }
  intros b Hname Hne Hstar.
  destruct (Hbranch b Hname Hne Hstar) as (br & Hf & ->).
  exists br. split; [apply (Hkeep b br Hname Hne Hf)|].
  apply Z.eqb_eq. exact Hb.
Qed.
End SearchEntities.

(** The query ["login"] in the branch ["frontend"] with the filter
    [deprecated], on a store that has an active and a deprecated match in
    this branch and an active one in another branch: the deprecated entity
    of ["frontend"] alone is returned. *)
Lemma searchEntities_branch_and_status_witness :
  exists g e row br,
    snd (@searchEntities fts_unavailable 4 (js "login")
           (Some (js "frontend")) (Some [deprecated]) db_two_statuses) = Ok g
    /\ map name (graph_entities g) = [js "old web"]
    /\ In e (graph_entities g)
    /\ In row (entities db_two_statuses)
    /\ name e = ent_name row
    /\ ent_status row = deprecated
    /\ br_name br = js "frontend"
    /\ ent_branch_id row = br_id br.
Proof.
  destruct (@searchEntities_branch_and_status fts_unavailable 4 (js "login")
              (Some (js "frontend")) (Some [deprecated]) db_two_statuses)
    as ((db' & g & Hs & _ & Hall) & _).
  assert (Hg : snd (@searchEntities fts_unavailable 4 (js "login")
                      (Some (js "frontend")) (Some [deprecated])
                      db_two_statuses) = Ok g)
    by (now rewrite Hs).
  assert (Hnames : map name (graph_entities g) = [js "old web"]).
  { vm_compute in Hg. injection Hg as <-. reflexivity. }
  assert (Hin : exists e, In e (graph_entities g)).
  { destruct (graph_entities g) as [|e l]; [discriminate Hnames|].
    exists e. now left. }
  destruct Hin as [e He].
  destruct (Hall e He) as (row & Hrow & Hname & _ & Hstatus & _ & Hbranch).
  assert (Hne : js "frontend" <> []) by (vm_compute; discriminate).
  assert (Hstar : js "frontend" <> STAR) by (vm_compute; discriminate).
  destruct (Hbranch (js "frontend") eq_refl Hne Hstar) as (br & Hf & Hid).
  destruct (Hstatus [deprecated] eq_refl ltac:(discriminate)) as [Hd|[]].
  exists g, e, row, br. rewrite Hs.
  split; [reflexivity|]. split; [exact Hnames|]. split; [exact He|].
  split; [exact Hrow|]. split; [exact Hname|]. split; [symmetry; exact Hd|].
  split; [exact (proj1 (find_branch_by_name_name _ _ _ Hf))|exact Hid].
Defined.

(** * Further properties *)

(** ** Jaccard similarity: range *)

Section JaccardRange.
Context {A : Type} {EqA : EqDecision A} {CountA : Countable A}.

Lemma Qdiv_nat_bounds (a b : nat) :
  (0 < b)%nat -> (a <= b)%nat ->
  (0 <= inject_Z (Z.of_nat a) / inject_Z (Z.of_nat b) <= 1)%Q.
Proof.
  intros Hb Hab.
  assert (Hpos : (0 < inject_Z (Z.of_nat b))%Q).
  { unfold Qlt, inject_Z. simpl. lia. }
  split.
  - apply Qle_shift_div_l; [exact Hpos|]. rewrite Qmult_0_l.
    unfold Qle, inject_Z. simpl. lia.
  - apply Qle_shift_div_r; [exact Hpos|]. rewrite Qmult_1_l.
    unfold Qle, inject_Z. simpl. lia.
Qed.

Lemma Qdiv_nat_one (a b : nat) :
  (0 < b)%nat ->
  (inject_Z (Z.of_nat a) / inject_Z (Z.of_nat b) == 1)%Q <-> a = b.
Proof.
  intros Hb. unfold Qdiv, Qeq, Qmult, Qinv, inject_Z. simpl.
  destruct b as [|b]; [lia|]. simpl. lia.
Qed.

Lemma Qdiv_nat_zero (a b : nat) :
  (0 < b)%nat ->
  (inject_Z (Z.of_nat a) / inject_Z (Z.of_nat b) == 0)%Q <-> a = 0%nat.
Proof.
  intros Hb. unfold Qdiv, Qeq, Qmult, Qinv, inject_Z. simpl.
  destruct b as [|b]; [lia|]. simpl. lia.
Qed.

(** X1: the Jaccard similarity of two sets lies between 0 and 1; it is 1
    exactly when the two sets are equal (two empty sets included), and 0
    exactly when they share no element and are not both empty. *)
Theorem calculateSetSimilarity_range (X Y : gset A) :
  (0 <= calculateSetSimilarity X Y <= 1)%Q
  /\ ((calculateSetSimilarity X Y == 1)%Q <-> X = Y)
  /\ ((calculateSetSimilarity X Y == 0)%Q <->
      X ∩ Y = ∅ /\ (X <> ∅ \/ Y <> ∅)).
Proof.
  assert (Hnonempty : forall Z : gset A, size Z <> 0%nat -> Z <> ∅).
  { intros Z HZ ->. now rewrite size_empty in HZ. }
  unfold calculateSetSimilarity.
  destruct (size X =? 0)%nat eqn:EX; destruct (size Y =? 0)%nat eqn:EY;
    cbn [andb orb].
  - apply Nat.eqb_eq in EX, EY. apply size_empty_inv in EX, EY.
    apply leibniz_equiv in EX, EY. subst.
    split; [split; discriminate|].
    split; [split; intros _; reflexivity|].
    split; [discriminate|]. intros [_ [H|H]]; congruence.
  - apply Nat.eqb_eq in EX. apply size_empty_inv, leibniz_equiv in EX.
    apply Nat.eqb_neq in EY. subst X.
    pose proof (Hnonempty Y EY) as HY.
    split; [split; discriminate|].
    split; [split; [discriminate|congruence]|].
    split; [|reflexivity]. intros _.
    split; [apply intersection_empty_l_L|right; exact HY].
  - apply Nat.eqb_eq in EY. apply size_empty_inv, leibniz_equiv in EY.
    apply Nat.eqb_neq in EX. subst Y.
    pose proof (Hnonempty X EX) as HX.
    split; [split; discriminate|].
    split; [split; [discriminate|congruence]|].
    split; [|reflexivity]. intros _.
    split; [apply intersection_empty_r_L|left; exact HX].
  - apply Nat.eqb_neq in EX, EY.
    rewrite filter_member_intersection.
    assert (Hsub : X ∩ Y ⊆ X ∪ Y).
    { etransitivity; [apply intersection_subseteq_l|apply union_subseteq_l]. }
    pose proof (subseteq_size _ _ Hsub) as Hle.
    pose proof (subseteq_size _ _ (union_subseteq_l X Y)) as HXle.
    assert (Hpos : (0 < size (X ∪ Y))%nat) by lia.
    split; [apply Qdiv_nat_bounds; assumption|].
    split.
    + rewrite (Qdiv_nat_one _ _ Hpos). split.
      * intros Heq.
        assert (Hequal : X ∩ Y = X ∪ Y).
        { apply set_subseteq_size_eq; [exact Hsub|lia]. }
        apply set_eq. intros x.
        assert (Hx : x ∈ X ∩ Y <-> x ∈ X ∪ Y) by now rewrite Hequal.
        rewrite elem_of_intersection, elem_of_union in Hx. tauto.
      * intros ->. now rewrite intersection_idemp_L, union_idemp_L.
    + rewrite (Qdiv_nat_zero _ _ Hpos). split.
      * intros Hz. apply size_empty_inv, leibniz_equiv in Hz.
        split; [exact Hz|]. left. apply Hnonempty, EX.
      * intros [-> _]. apply size_empty.
Qed.
End JaccardRange.

(** ** Text processor *)


Lemma firstn_length_app {A : Type} (pre rest : list A) :
  firstn (length pre) (pre ++ rest) = pre.
Proof.
  rewrite firstn_app, firstn_all, Nat.sub_diag. simpl. apply app_nil_r.
Qed.

Lemma firstn_length_app_cons {A : Type} (pre : list A) (c : A) (rest : list A) :
  firstn (S (length pre)) (pre ++ c :: rest) = pre ++ [c].
Proof.
  replace (pre ++ c :: rest) with ((pre ++ [c]) ++ rest)
    by (rewrite <- app_assoc; reflexivity).
  replace (S (length pre)) with (length (pre ++ [c]))
    by (rewrite length_app; simpl; lia).
  apply firstn_length_app.
Qed.

Section Levenshtein.
Import TextProcessorImpl.
Variables (s1 s2 : jsstring).

Local Abbreviation cell_ok := (cell_ok s1 s2).
Local Abbreviation row_ok := (row_ok s1 s2).

Lemma lev_row_ok (j : nat) (pre2 : jsstring) (c2 : N) (rest2 : jsstring) :
  s2 = pre2 ++ c2 :: rest2 -> length pre2 = j ->
  forall (rest1 pre1 : jsstring) (prev : list Z) (left : Z),
    s1 = pre1 ++ rest1 ->
    length prev = S (length rest1) ->
    (forall k v, nth_error prev k = Some v -> cell_ok j (length pre1 + k) v) ->
    cell_ok (S j) (length pre1) left ->
    length (lev_row c2 rest1 prev left) = length rest1
    /\ forall k v, nth_error (lev_row c2 rest1 prev left) k = Some v ->
                   cell_ok (S j) (S (length pre1 + k)) v.
Proof.
  intros Hs2 Hj. induction rest1 as [|c1 r1 IH]; intros pre1 prev left Hs1 Hlen Hprev Hleft.
  - simpl. split; [reflexivity|]. intros [|k] v; discriminate.
  - destruct prev as [|diag [|up prev']]; simpl in Hlen; try lia.
    cbn [lev_row].
    set (cost := if (c1 =? c2)%N then 0 else 1).
    set (cell := Z.min (Z.min (left + 1) (up + 1)) (diag + cost)).
    assert (Hdiag : cell_ok j (length pre1) diag).
    { specialize (Hprev 0%nat diag eq_refl). now rewrite Nat.add_0_r in Hprev. }
    assert (Hup : cell_ok j (S (length pre1)) up).
    { specialize (Hprev 1%nat up eq_refl).
      now rewrite Nat.add_1_r in Hprev. }
    assert (Hcost : 0 <= cost <= 1) by (subst cost; destruct (c1 =? c2)%N; lia).
    assert (Hcell : cell_ok (S j) (S (length pre1)) cell).
    { destruct Hdiag as [Hd Hd0], Hup as [Hu _], Hleft as [Hl _].
      split; [subst cell; lia|].
      intros Hz.
      assert (Hdz : diag = 0 /\ cost = 0) by (subst cell; lia).
      destruct Hdz as [Hdz Hcz].
      assert (Hij : length pre1 = j) by lia.
      specialize (Hd0 Hdz).
      assert (Hc : c1 = c2).
      { subst cost. destruct (c1 =? c2)%N eqn:E; [|discriminate].
        now apply N.eqb_eq in E. }
      clear IH Hprev. subst j.
      rewrite Hs1, Hs2 in Hd0. rewrite Hij in Hd0 at 1.
      rewrite <- Hij in Hd0 at 1.
      rewrite !firstn_length_app in Hd0.
      rewrite Hs1, Hs2. rewrite <- Hij.
      rewrite firstn_length_app_cons. rewrite Hij.
      rewrite firstn_length_app_cons. congruence. }
    destruct (IH (pre1 ++ [c1]) (up :: prev') cell) as [IHlen IHcells].
    + rewrite Hs1, <- app_assoc. reflexivity.
    + simpl. lia.
    + intros k v Hk. rewrite length_app, Nat.add_1_r. simpl.
      specialize (Hprev (S k) v Hk).
      now rewrite Nat.add_succ_r in Hprev.
    + rewrite length_app, Nat.add_1_r. exact Hcell.
    + split; [simpl; now rewrite IHlen|].
      intros [|k] v Hk; simpl in Hk.
      * injection Hk as <-. now rewrite Nat.add_0_r.
      * specialize (IHcells k v Hk).
        rewrite length_app, Nat.add_1_r in IHcells. simpl in IHcells.
        now rewrite Nat.add_succ_r.
Qed.

Lemma lev_rows_ok (rest2 pre2 : jsstring) (row : list Z) :
  s2 = pre2 ++ rest2 ->
  row_ok (length pre2) row ->
  row_ok (length s2)
         (lev_rows s1 rest2 (Z.of_nat (length pre2) + 1) row).
Proof.
  revert pre2 row. induction rest2 as [|c2 r2 IH]; intros pre2 row Hs2 Hrow.
  - assert (Hl : length s2 = length pre2)
      by (rewrite Hs2, app_nil_r; reflexivity).
    simpl. rewrite Hl. exact Hrow.
  - cbn [lev_rows]. destruct Hrow as [Hlen Hcells].
    destruct (lev_row_ok (length pre2) pre2 c2 r2 Hs2 eq_refl s1 [] row
                (Z.of_nat (length pre2) + 1) eq_refl Hlen)
      as [Hl Hc].
    + intros k v Hk. apply Hcells. exact Hk.
    + split; [simpl; lia|]. simpl. lia.
    + specialize (IH (pre2 ++ [c2])
                     ((Z.of_nat (length pre2) + 1)
                      :: lev_row c2 s1 row (Z.of_nat (length pre2) + 1))).
      rewrite length_app, Nat.add_1_r in IH.
      replace (Z.of_nat (S (length pre2))) with (Z.of_nat (length pre2) + 1)
        in IH by lia.
      apply IH.
      * rewrite Hs2, <- app_assoc. reflexivity.
      * split; [simpl; now rewrite Hl|].
        intros [|i] v Hi; simpl in Hi.
        -- injection Hi as <-. split; [simpl; lia|]. simpl. lia.
        -- apply (Hc i v Hi).
Qed.

Lemma levenshtein_ok :
  cell_ok (length s2) (length s1) (levenshtein s1 s2).
Proof.
  unfold levenshtein.
  assert (Hfirst : row_ok 0 (map Z.of_nat (seq 0 (S (length s1))))).
  { split; [now rewrite length_map, length_seq|].
    intros i v Hi. rewrite nth_error_map in Hi.
    destruct (nth_error (seq 0 (S (length s1))) i) as [n|] eqn:E;
      [|discriminate].
    apply nth_error_In in E as Hin. apply in_seq in Hin.
    assert (Hn : n = i).
    { pose proof (nth_error_nth _ _ 0%nat E) as Hnth.
      assert (Hi' : (i < S (length s1))%nat).
      { rewrite <- (length_seq (S (length s1)) 0).
        apply nth_error_Some. congruence. }
      rewrite seq_nth in Hnth by exact Hi'.
      simpl in Hnth. lia. }
    simpl in Hi. injection Hi as <-. subst n.
    split; [lia|]. intros Hz. assert (i = 0%nat) by lia. subst i. reflexivity. }
  pose proof (lev_rows_ok s2 [] (map Z.of_nat (seq 0 (S (length s1))))
                eq_refl Hfirst) as [Hlen Hcells].
  change (Z.of_nat (@length N []) + 1) with 1 in Hlen, Hcells.
  apply Hcells. apply nth_error_nth'. rewrite Hlen. lia.
Qed.
End Levenshtein.

Lemma calculateBasicSimilarity_cases (str1 str2 : jsstring) :
  (str1 = str2
   /\ TextProcessorImpl.calculateBasicSimilarity str1 str2 = 1%Q)
  \/ (str1 <> str2
      /\ (0 <= TextProcessorImpl.calculateBasicSimilarity str1 str2)%Q
      /\ (TextProcessorImpl.calculateBasicSimilarity str1 str2 < 1)%Q).
Proof.
  unfold TextProcessorImpl.calculateBasicSimilarity, jseqb.
  cbn [rnd exact_arithmetic].
  destruct (bool_decide (str1 = str2)) eqn:E.
  - apply bool_decide_eq_true in E. left. split; [exact E|reflexivity].
  - apply bool_decide_eq_false in E. right. split; [exact E|].
    destruct ((length str1 =? 0)%nat || (length str2 =? 0)%nat) eqn:E0.
    + split; [discriminate|reflexivity].
    + apply orb_false_iff in E0 as [E1 E2]. apply Nat.eqb_neq in E1, E2.
      destruct (levenshtein_ok str1 str2) as [[Hlo Hhi] Hzero].
      set (d := TextProcessorImpl.levenshtein str1 str2) in *.
      assert (Hd : 1 <= d).
      { destruct (Z.eq_dec d 0) as [Hz|Hz]; [|lia]. exfalso. apply E.
        specialize (Hzero Hz).
        destruct (Nat.eq_dec (length str1) (length str2)) as [Hl|Hl].
        - rewrite Hl, firstn_all in Hzero. rewrite <- Hl, firstn_all in Hzero.
          exact Hzero.
        - lia. }
      set (m := Z.of_nat (Nat.max (length str1) (length str2))).
      assert (Hm : d <= m) by (subst m; lia).
      assert (Hmpos : (0 < inject_Z m)%Q)
        by (unfold Qlt, inject_Z; simpl; lia).
      assert (Hpos : (0 < inject_Z d / inject_Z m)%Q).
      { apply Qlt_shift_div_l; [exact Hmpos|]. rewrite Qmult_0_l.
        unfold Qlt, inject_Z. simpl. lia. }
      assert (Hle1 : (inject_Z d / inject_Z m <= 1)%Q).
      { apply Qle_shift_div_r; [exact Hmpos|]. rewrite Qmult_1_l.
        unfold Qle, inject_Z. simpl. lia. }
      split.
      * apply (Qplus_le_r _ _ (inject_Z d / inject_Z m)). ring_simplify.
        exact Hle1.
      * apply (Qplus_lt_l _ _ (inject_Z d / inject_Z m - 1)). ring_simplify.
        exact Hpos.
Qed.

Lemma calculateSetSimilarity_bounds `{Countable A} (X Y : gset A) :
  (0 <= calculateSetSimilarity X Y <= 1)%Q.
Proof.
  unfold calculateSetSimilarity.
  destruct (_ && _); [split; discriminate|].
  destruct (size X =? 0)%nat eqn:EX; [split; discriminate|].
  destruct (size Y =? 0)%nat eqn:EY; [split; discriminate|].
  cbn [orb]. apply Nat.eqb_neq in EX.
  rewrite filter_member_intersection.
  assert (Hsub : X ∩ Y ⊆ X ∪ Y).
  { etransitivity; [apply intersection_subseteq_l|apply union_subseteq_l]. }
  pose proof (subseteq_size _ _ Hsub) as Hle.
  pose proof (subseteq_size _ _ (union_subseteq_l X Y)) as HXle.
  set (a := size (X ∩ Y)) in *. set (b := size (X ∪ Y)) in *.
  assert (Hpos : (0 < inject_Z (Z.of_nat b))%Q).
  { unfold Qlt, inject_Z. simpl. lia. }
  split.
  - apply Qle_shift_div_l; [exact Hpos|]. rewrite Qmult_0_l.
    unfold Qle, inject_Z. simpl. lia.
  - apply Qle_shift_div_r; [exact Hpos|]. rewrite Qmult_1_l.
    unfold Qle, inject_Z. simpl. lia.
Qed.

Section TextProcessorScores.
Context {st : Stemmer}.
Import TextProcessorImpl.

Lemma calculateSentenceSimilarity_bounds (text1 text2 : jsstring) :
  (0 <= calculateSentenceSimilarity text1 text2 <= 1)%Q.
Proof.
  unfold calculateSentenceSimilarity. cbn [rnd exact_arithmetic].
  destruct (_ || _); [split; discriminate|].
  assert (Hb : (0 <= calculateBasicSimilarity (toLowerCase text1)
                          (toLowerCase text2) <= 1)%Q).
  { destruct (calculateBasicSimilarity_cases (toLowerCase text1)
                (toLowerCase text2)) as [[_ ->]|(_ & H0 & H1)];
      [split; discriminate|split; [exact H0|apply Qlt_le_weak, H1]]. }
  destruct Hb as [Hb0 Hb1].
  destruct (_ || _); [split; assumption|].
  set (J := calculateSetSimilarity _ _).
  pose proof (calculateSetSimilarity_bounds
                (list_to_set (extractMeaningfulWords text1) : gset jsstring)
                (list_to_set (extractMeaningfulWords text2))) as [HJ0 HJ1].
  fold J in HJ0, HJ1.
  split.
  - apply Qle_trans with (calculateBasicSimilarity (toLowerCase text1)
                            (toLowerCase text2)); [exact Hb0|].
    apply Q.le_max_l.
  - apply Q.max_lub; [exact Hb1|].
    apply Qle_trans with (1 * 0.8)%Q; [|discriminate].
    apply Qmult_le_compat_r; [exact HJ1|discriminate].
Qed.

Lemma calculateSemanticSimilarity_bounds (text1 text2 : jsstring) :
  (0 <= calculateSemanticSimilarity text1 text2 <= 1)%Q.
Proof.
  unfold calculateSemanticSimilarity. cbv zeta.
  cbn [rnd exact_arithmetic].
  pose proof (calculateSentenceSimilarity_bounds text1 text2) as [Hs0 _].
  set (K := calculateSetSimilarity _ _).
  pose proof (calculateSetSimilarity_bounds
                (list_to_set (map kw_word (extractKeywords text1 20))
                 : gset jsstring)
                (list_to_set (map kw_word (extractKeywords text2 20))))
    as [HK0 _].
  fold K in HK0.
  split; [|apply Q.le_min_r].
  apply Q.min_glb; [|discriminate].
  apply Qle_trans with (0 * 0.6 + 0 * 0.4)%Q; [discriminate|].
  apply Qplus_le_compat; (apply Qmult_le_compat_r; [assumption|discriminate]).
Qed.

Lemma detectNamePatterns_bounds (name1 name2 : jsstring) :
  (0 <= detectNamePatterns name1 name2 <= 1)%Q.
Proof.
  unfold detectNamePatterns. cbv zeta. cbn [rnd exact_arithmetic].
  split; [|apply Q.le_min_r].
  apply Q.min_glb; [|discriminate].
  set (words1 := List.filter _ (split_runs is_space (clean_name name1))).
  set (words2 := List.filter _ (split_runs is_space (clean_name name2))).
  set (shared := List.filter _ words1).
  assert (Hstart : (0 <= (if (0 <? length shared)%nat
                          then 0 + inject_Z (Z.of_nat (length shared)) * 0.25
                          else 0))%Q).
  { destruct (0 <? length shared)%nat; [|discriminate].
    rewrite Qplus_0_l.
    apply Qle_trans with (0 * 0.25)%Q; [discriminate|].
    apply Qmult_le_compat_r; [|discriminate].
    unfold Qle, inject_Z. simpl. lia. }
  revert Hstart. generalize (if (0 <? length shared)%nat
                             then (0 + inject_Z (Z.of_nat (length shared)) * 0.25)%Q
                             else 0%Q).
  induction words1 as [|w1 r1 IH]; intros score Hscore; simpl; [exact Hscore|].
  apply IH. clear IH.
  revert score Hscore. induction words2 as [|w2 r2 IH2]; intros score Hscore;
    simpl; [exact Hscore|].
  apply IH2.
  assert (Hadd : forall q : Q, (0 <= q)%Q -> (0 <= q + 0.1)%Q).
  { intros q Hq. apply Qle_trans with (0 + 0)%Q; [discriminate|].
    apply Qplus_le_compat; [exact Hq|discriminate]. }
  destruct (negb _); [|exact Hscore].
  destruct (_ || _); destruct (_ || _); auto.
Qed.

Lemma calculateSentenceSimilarity_self (text : jsstring) :
  text <> [] -> (calculateSentenceSimilarity text text == 1)%Q.
Proof.
  intros Hne. unfold calculateSentenceSimilarity.
  cbn [rnd exact_arithmetic].
  destruct text as [|c r]; [contradiction|]. cbn [truthy negb orb].
  assert (Hb : calculateBasicSimilarity (toLowerCase (c :: r))
                 (toLowerCase (c :: r)) = 1%Q).
  { unfold calculateBasicSimilarity, jseqb.
    now rewrite bool_decide_eq_true_2. }
  rewrite Hb. destruct (_ || _); [reflexivity|].
  apply Q.max_l.
  apply Qle_trans with (1 * 0.8)%Q; [|discriminate].
  apply Qmult_le_compat_r; [|discriminate].
  apply calculateSetSimilarity_bounds.
Qed.
End TextProcessorScores.

(** ** Relationship detector: bounds *)


Section DetectorBounds.
Context {tp : TextProcessor}.


End DetectorBounds.

(** ** JavaScript numbers: the nearest double *)

Section Binary64.
Local Open Scope Q_scope.

Lemma pow2_pos (e : Z) : 0 < pow2 e.
Proof.
  unfold pow2. destruct (e <? 0)%Z eqn:E; [reflexivity|].
  apply Z.ltb_ge in E. unfold Qlt, inject_Z. cbn [Qnum Qden].
  pose proof (Z.pow_pos_nonneg 2 e ltac:(lia) E). lia.
Qed.

Lemma pow2_le_52 (u : Z) : (u <= -52)%Z -> pow2 u <= 1 # 4503599627370496.
Proof.
  intros Hu. unfold pow2.
  destruct (u <? 0)%Z eqn:E; [|apply Z.ltb_ge in E; lia].
  unfold Qle. cbn [Qnum Qden]. rewrite Z.mul_1_l, Z.mul_1_l.
  rewrite Z2Pos.id by (apply Z.pow_pos_nonneg; lia).
  change (Z.pos 4503599627370496) with (2 ^ 52)%Z.
  apply Z.pow_le_mono_r; lia.
Qed.

Lemma pow2_ge_2 (e : Z) : (1 <= e)%Z -> 2 <= pow2 e.
Proof.
  intros He. unfold pow2.
  destruct (e <? 0)%Z eqn:E; [apply Z.ltb_lt in E; lia|].
  unfold Qle, inject_Z. cbn [Qnum Qden]. rewrite !Z.mul_1_r.
  change 2%Z with (2 ^ 1)%Z at 1. apply Z.pow_le_mono_r; lia.
Qed.

(** Rounding to the nearest integer moves a number by a half at most. *)
Lemma round_half_even_error (m : Q) :
  - (1 # 2) <= inject_Z (round_half_even m) - m <= 1 # 2.
Proof.
  destruct m as [a b]. unfold round_half_even. cbn [Qnum Qden].
  pose proof (Z.div_mod a (Zpos b) ltac:(lia)) as Hdm.
  pose proof (Z.mod_pos_bound a (Zpos b) ltac:(lia)) as Hr.
  set (f := (a / Zpos b)%Z) in *. set (r := (a mod Zpos b)%Z) in *.
  assert (Hcase : forall N : Z,
             (- Zpos b <= 2 * (N * Zpos b - a) <= Zpos b)%Z ->
             - (1 # 2) <= inject_Z N - (a # b) <= 1 # 2).
  { intros N HN. unfold Qle, Qminus, Qplus, Qopp, inject_Z.
    cbn [Qnum Qden]. split; lia. }
  apply Hcase.
  destruct (Z.compare_spec (2 * r) (Zpos b)) as [Heq|Hlt|Hgt].
  - destruct (Z.even f); lia.
  - lia.
  - lia.
Qed.

(** It does not cross an integer. *)
Lemma round_half_even_ge (m : Q) (lo : Z) :
  inject_Z lo <= m -> (lo <= round_half_even m)%Z.
Proof.
  destruct m as [a b]. unfold round_half_even, Qle, inject_Z.
  cbn [Qnum Qden]. rewrite Z.mul_1_r. intros Hlo.
  pose proof (Z.div_mod a (Zpos b) ltac:(lia)) as Hdm.
  pose proof (Z.mod_pos_bound a (Zpos b) ltac:(lia)) as Hr.
  set (f := (a / Zpos b)%Z) in *. set (r := (a mod Zpos b)%Z) in *.
  assert (Hf : (lo <= f)%Z) by nia.
  destruct (_ ?= _)%Z; [destruct (Z.even f)| |]; lia.
Qed.

Lemma round_half_even_le (m : Q) (hi : Z) :
  m <= inject_Z hi -> (round_half_even m <= hi)%Z.
Proof.
  destruct m as [a b]. unfold round_half_even, Qle, inject_Z.
  cbn [Qnum Qden]. rewrite Z.mul_1_r. intros Hhi.
  pose proof (Z.div_mod a (Zpos b) ltac:(lia)) as Hdm.
  pose proof (Z.mod_pos_bound a (Zpos b) ltac:(lia)) as Hr.
  set (f := (a / Zpos b)%Z) in *. set (r := (a mod Zpos b)%Z) in *.
  destruct (Z.compare_spec (2 * r) (Zpos b)) as [Heq|Hlt|Hgt].
  - destruct (Z.even f); nia.
  - nia.
  - nia.
Qed.

Lemma ilog2_small (x : Q) : ~ x == 0 -> Qabs x < 2 -> (ilog2 x <= 0)%Z.
Proof.
  intros Hx Hlt. unfold ilog2.
  set (e := (Z.log2 _ - Z.log2 _)%Z).
  destruct (Qle_bool (pow2 e) (Qabs x)) eqn:E.
  - apply Qle_bool_iff in E.
    destruct (Z_le_gt_dec e 0) as [H|H]; [exact H|].
    pose proof (pow2_ge_2 e ltac:(lia)) as H2. lra.
  - assert (He : (e <= 1)%Z); [|lia].
    subst e. destruct x as [a b]. cbn [Qnum Qden] in *.
    assert (Ha : (0 < Z.abs a)%Z).
    { destruct (Z.eq_dec a 0%Z) as [->|]; [|lia].
      exfalso. apply Hx. reflexivity. }
    pose proof (Z.log2_spec (Z.abs a) Ha) as [Hlo _].
    pose proof (Z.log2_spec (Zpos b) ltac:(lia)) as [_ Hhi].
    pose proof (Z.log2_nonneg (Z.abs a)) as Hna.
    pose proof (Z.log2_nonneg (Zpos b)) as Hnb.
    assert (Hab : (Z.abs a < 2 * Zpos b)%Z).
    { unfold Qlt, Qabs in Hlt. cbn [Qnum Qden] in Hlt. lia. }
    assert (Hpow : (2 ^ Z.log2 (Z.abs a)
                    < 2 ^ (Z.log2 (Zpos b) + 2))%Z).
    { replace (Z.log2 (Zpos b) + 2)%Z with (Z.succ (Z.succ (Z.log2 (Zpos b))))
        by lia.
      rewrite (Z.pow_succ_r 2 (Z.succ _)) by lia. lia. }
    apply Z.pow_lt_mono_r_iff in Hpow; lia.
Qed.

(** The nearest double of a number below 2 is within [2 ^ -53] of it. *)
Lemma round_binary64_error (x : Q) :
  -2 < x < 2 -> - half_ulp <= round_binary64 x - x <= half_ulp.
Proof.
  intros Hx2.
  assert (Hlt : Qabs x < 2) by (apply Qabs_Qlt_condition; split; lra).
  unfold round_binary64.
  destruct (Qeq_bool x 0) eqn:E0.
  - apply Qeq_bool_iff in E0. rewrite E0. unfold half_ulp. split; discriminate.
  - assert (Hx : ~ x == 0).
    { intros H. apply Qeq_bool_iff in H. congruence. }
    cbv zeta.
    pose proof (ilog2_small x Hx Hlt) as He.
    set (u := Z.max (ilog2 x - 52) (-1074)).
    assert (Hu : (u <= -52)%Z) by (subst u; lia).
    pose proof (pow2_pos u) as Hp. pose proof (pow2_le_52 u Hu) as Hp52.
    set (P := pow2 u) in *.
    pose proof (round_half_even_error (x / P)) as [Hlo Hhi].
    set (N := inject_Z (round_half_even (x / P))) in *.
    assert (Hne : ~ P == 0) by (intros H; rewrite H in Hp; discriminate Hp).
    assert (Hm : x / P * P == x) by (field; exact Hne).
    assert (Heq : N * P - x == (N - x / P) * P) by (rewrite <- Hm at 1; ring).
    rewrite Heq. unfold half_ulp.
    change (1 # 9007199254740992) with ((1 # 2) * (1 # 4503599627370496)).
    split; nra.
Qed.

(** The nearest double of a number that is not negative is not
    negative. *)
Lemma round_binary64_nonneg (x : Q) : 0 <= x -> 0 <= round_binary64 x.
Proof.
  intros Hx. unfold round_binary64.
  destruct (Qeq_bool x 0); [apply Qle_refl|]. cbv zeta.
  set (u := Z.max (ilog2 x - 52) (-1074)).
  pose proof (pow2_pos u) as Hp.
  assert (Hm : inject_Z 0 <= x / pow2 u).
  { change (inject_Z 0) with 0. apply Qle_shift_div_l; [exact Hp|].
    rewrite Qmult_0_l. exact Hx. }
  apply round_half_even_ge in Hm.
  apply Qmult_le_0_compat; [|apply Qlt_le_weak; exact Hp].
  unfold Qle, inject_Z. cbn [Qnum Qden]. lia.
Qed.

(** The nearest double of a number of the interval from 0 to 1 is at
    most 1. *)
Lemma round_binary64_le_1 (x : Q) : 0 <= x -> x <= 1 -> round_binary64 x <= 1.
Proof.
  intros Hx0 Hx1. unfold round_binary64.
  destruct (Qeq_bool x 0) eqn:E0; [discriminate|]. cbv zeta.
  assert (Hx : ~ x == 0).
  { intros H. apply Qeq_bool_iff in H. congruence. }
  assert (Hlt : Qabs x < 2).
  { apply Qabs_Qlt_condition. split; lra. }
  pose proof (ilog2_small x Hx Hlt) as He.
  set (u := Z.max (ilog2 x - 52) (-1074)).
  assert (Hu : (u < 0)%Z) by (subst u; lia).
  unfold pow2. apply Z.ltb_lt in Hu as Hb. rewrite Hb.
  set (P := Z.to_pos (2 ^ (- u))).
  assert (Hm : x / (1 # P) <= inject_Z (Zpos P)).
  { apply Qle_shift_div_r; [reflexivity|].
    assert (E : inject_Z (Zpos P) * (1 # P) == 1).
    { unfold Qeq, Qmult, inject_Z. cbn [Qnum Qden]. lia. }
    rewrite E. exact Hx1. }
  apply round_half_even_le in Hm.
  unfold Qle, Qmult, inject_Z. cbn [Qnum Qden]. lia.
Qed.

(** The literals that the definitions leave as they are are doubles. *)
Lemma round_binary64_literals :
  Forall (fun x => round_binary64 x == x) [0; 0.25; 0.5; 0.75; 1].
Proof. repeat constructor. Qed.

Lemma round_binary64_range (x : Q) :
  0 <= x -> 0 <= round_binary64 x /\ (x <= 1 -> round_binary64 x <= 1).
Proof.
  intros Hx. split; [apply round_binary64_nonneg; exact Hx|].
  apply round_binary64_le_1; exact Hx.
Qed.
End Binary64.

(** ** The scores under a rounding arithmetic *)

(** The scores stay between 0 and 1 in every arithmetic whose rounding
    keeps a number that is not negative so, and a number of the interval
    from 0 to 1 at most 1. *)
Section RoundedScores.
Context {rounding : Rounding}.
Hypothesis rnd_range :
  forall x : Q, (0 <= x)%Q -> (0 <= rnd x)%Q /\ ((x <= 1)%Q -> (rnd x <= 1)%Q).
Local Open Scope Q_scope.

Lemma rnd_nonneg (x : Q) : 0 <= x -> 0 <= rnd x.
Proof. intros H. apply rnd_range. exact H. Qed.

Lemma rnd_unit (x : Q) : 0 <= x <= 1 -> 0 <= rnd x <= 1.
Proof. intros [H0 H1]. destruct (rnd_range x H0) as [Hr0 Hr1]. auto. Qed.

Lemma rnd_unit_product (x c : Q) :
  0 <= x <= 1 -> 0 <= c <= 1 -> 0 <= rnd (x * rnd c) <= 1.
Proof.
  intros Hx Hc. apply rnd_unit in Hc. apply rnd_unit. split; nra.
Qed.

Lemma rnd_unit_complement (a b : Z) :
  (0 <= a <= b)%Z -> (0 < b)%Z ->
  0 <= rnd (1 - rnd (inject_Z a / inject_Z b)) <= 1.
Proof.
  intros Ha Hb.
  assert (Hpos : 0 < inject_Z b) by (unfold Qlt, inject_Z; simpl; lia).
  assert (Hq : 0 <= inject_Z a / inject_Z b <= 1).
  { split.
    - apply Qle_shift_div_l; [exact Hpos|]. rewrite Qmult_0_l.
      unfold Qle, inject_Z. simpl. lia.
    - apply Qle_shift_div_r; [exact Hpos|]. rewrite Qmult_1_l.
      unfold Qle, inject_Z. simpl. lia. }
  apply rnd_unit in Hq. apply rnd_unit. split; lra.
Qed.

Lemma calculateBasicSimilarity_unit (str1 str2 : jsstring) :
  0 <= TextProcessorImpl.calculateBasicSimilarity str1 str2 <= 1.
Proof.
  unfold TextProcessorImpl.calculateBasicSimilarity.
  destruct (jseqb str1 str2); [split; discriminate|].
  destruct (_ || _) eqn:E0; [split; discriminate|].
  apply orb_false_iff in E0 as [E1 E2]. apply Nat.eqb_neq in E1, E2.
  destruct (levenshtein_ok str1 str2) as [[Hlo Hhi] _].
  cbv zeta. apply rnd_unit_complement; lia.
Qed.

Context {st : Stemmer}.

Lemma calculateSentenceSimilarity_unit (text1 text2 : jsstring) :
  0 <= TextProcessorImpl.calculateSentenceSimilarity text1 text2 <= 1.
Proof.
  unfold TextProcessorImpl.calculateSentenceSimilarity.
  destruct (_ || _); [split; discriminate|]. cbv zeta.
  pose proof (calculateBasicSimilarity_unit (toLowerCase text1)
                (toLowerCase text2)) as [Hb0 Hb1].
  destruct (_ || _); [split; assumption|].
  pose proof (calculateSetSimilarity_bounds
                (list_to_set (TextProcessorImpl.extractMeaningfulWords text1)
                 : gset jsstring)
                (list_to_set (TextProcessorImpl.extractMeaningfulWords text2)))
    as HJ.
  apply rnd_unit in HJ.
  assert (H08 : 0 <= 0.8 <= 1) by (split; discriminate).
  pose proof (rnd_unit_product _ _ HJ H08) as [Hp0 Hp1].
  split.
  - eapply Qle_trans; [exact Hb0|apply Q.le_max_l].
  - apply Q.max_lub; assumption.
Qed.

Lemma calculateSemanticSimilarity_unit (text1 text2 : jsstring) :
  0 <= TextProcessorImpl.calculateSemanticSimilarity text1 text2 <= 1.
Proof.
  unfold TextProcessorImpl.calculateSemanticSimilarity. cbv zeta.
  split; [|apply Q.le_min_r].
  apply Q.min_glb; [|discriminate].
  pose proof (calculateSentenceSimilarity_unit text1 text2) as Hs.
  pose proof (calculateSetSimilarity_bounds
                (list_to_set
                   (map TextProcessorImpl.kw_word
                      (TextProcessorImpl.extractKeywords text1 20))
                 : gset jsstring)
                (list_to_set
                   (map TextProcessorImpl.kw_word
                      (TextProcessorImpl.extractKeywords text2 20)))) as HK.
  apply rnd_unit in HK.
  assert (H06 : 0 <= 0.6 <= 1) by (split; discriminate).
  assert (H04 : 0 <= 0.4 <= 1) by (split; discriminate).
  pose proof (rnd_unit_product _ _ Hs H06) as [Ha _].
  pose proof (rnd_unit_product _ _ HK H04) as [Hb _].
  apply rnd_nonneg. lra.
Qed.

Lemma detectNamePatterns_unit (name1 name2 : jsstring) :
  0 <= TextProcessorImpl.detectNamePatterns name1 name2 <= 1.
Proof.
  unfold TextProcessorImpl.detectNamePatterns. cbv zeta.
  split; [|apply Q.le_min_r].
  apply Q.min_glb; [|discriminate].
  set (words1 := List.filter _ (split_runs is_space
                                  (TextProcessorImpl.clean_name name1))).
  set (words2 := List.filter _ (split_runs is_space
                                  (TextProcessorImpl.clean_name name2))).
  set (shared := List.filter _ words1).
  set (start := if (0 <? length shared)%nat then _ else _).
  assert (Hstart : 0 <= start).
  { subst start. destruct (0 <? length shared)%nat; [|discriminate].
    apply rnd_nonneg.
    assert (Hn : 0 <= inject_Z (Z.of_nat (length shared)))
      by (unfold Qle, inject_Z; simpl; lia).
    assert (Hq : 0 <= inject_Z (Z.of_nat (length shared)) * 0.25) by nra.
    apply rnd_nonneg in Hq. lra. }
  clearbody start.
  assert (Hadd : forall q : Q, 0 <= q -> 0 <= rnd (q + rnd 0.1)).
  { intros q Hq. apply rnd_nonneg.
    assert (H01 : 0 <= rnd 0.1) by (apply rnd_nonneg; discriminate). lra. }
  revert start Hstart.
  induction words1 as [|w1 r1 IH]; intros score Hscore; simpl; [exact Hscore|].
  apply IH. clear IH.
  revert score Hscore. induction words2 as [|w2 r2 IH2]; intros score Hscore;
    simpl; [exact Hscore|].
  apply IH2.
  destruct (negb _); [|exact Hscore].
  destruct (_ || _); destruct (_ || _); auto.
Qed.

(** The scores of the detector with the text processor of the sources. *)
Lemma calculateTypeSimilarity_unit (entity1 entity2 : Entity) :
  0 <= @calculateTypeSimilarity textProcessor entity1 entity2 <= 1.
Proof.
  unfold calculateTypeSimilarity.
  destruct (jseqb _ _); [split; discriminate|].
  apply calculateSentenceSimilarity_unit.
Qed.

Lemma calculateContentSimilarity_unit (entity1 entity2 : Entity) :
  0 <= @calculateContentSimilarity textProcessor _ entity1 entity2 <= 1.
Proof.
  unfold calculateContentSimilarity. cbv zeta.
  destruct (_ || _).
  - apply rnd_unit. split; discriminate.
  - apply calculateSemanticSimilarity_unit.
Qed.

Lemma calculateStructuralSimilarity_unit (entity1 entity2 : Entity) :
  0 <= calculateStructuralSimilarity entity1 entity2 <= 1.
Proof.
  unfold calculateStructuralSimilarity. cbv zeta.
  split; [|apply Q.le_min_r].
  apply Q.min_glb; [|discriminate].
  set (n1 := Z.of_nat (length (observations entity1))).
  set (n2 := Z.of_nat (length (observations entity2))).
  set (score := if (0 <? n1)%Z && (0 <? n2)%Z then _ else _).
  assert (Hscore : 0 <= score).
  { subst score. destruct ((0 <? n1)%Z && (0 <? n2)%Z) eqn:E; [|discriminate].
    apply andb_true_iff in E as [E1 E2]. apply Z.ltb_lt in E1, E2.
    pose proof (rnd_unit_complement (Z.abs (n1 - n2)) (Z.max n1 n2)
                  ltac:(lia) ltac:(lia)) as Hc.
    assert (H04 : 0 <= 0.4 <= 1) by (split; discriminate).
    pose proof (rnd_unit_product _ _ Hc H04) as [Hp _].
    apply rnd_nonneg. lra. }
  clearbody score.
  destruct (option_eqb _ _ _); [|exact Hscore].
  apply rnd_nonneg.
  assert (H03 : 0 <= rnd 0.3) by (apply rnd_nonneg; discriminate). lra.
Qed.

Lemma calculateEntitySimilarity_unit (entity1 entity2 : Entity) :
  0 <= @calculateEntitySimilarity textProcessor _ entity1 entity2 <= 1.
Proof.
  unfold calculateEntitySimilarity. cbv zeta.
  split; [|apply Q.le_min_r].
  apply Q.min_glb; [|discriminate].
  pose proof (calculateSentenceSimilarity_unit (name entity1) (name entity2))
    as [Hn _].
  pose proof (calculateTypeSimilarity_unit entity1 entity2) as [Ht _].
  pose proof (calculateContentSimilarity_unit entity1 entity2) as [Hc _].
  pose proof (detectNamePatterns_unit (name entity1) (name entity2))
    as [Hp _].
  pose proof (calculateStructuralSimilarity_unit entity1 entity2) as [Hs _].
  assert (Hw : forall w x : Q, 0 <= w -> 0 <= x -> 0 <= rnd (rnd w * x)).
  { intros w x Hw Hx. apply rnd_nonneg. apply rnd_nonneg in Hw. nra. }
  assert (Hsum : forall a b : Q, 0 <= a -> 0 <= b -> 0 <= rnd (a + b)).
  { intros a b Ha Hb. apply rnd_nonneg. lra. }
  repeat apply Hsum; try (apply Hw; [discriminate|assumption]).
  apply rnd_nonneg. cbn [calculateSentenceSimilarity textProcessor] in *. nra.
Qed.
End RoundedScores.

(** ** The weighted sum in double precision *)

Section RoundedSum.
Context {rounding : Rounding}.
Hypothesis rnd_error :
  forall x : Q, (-2 < x < 2)%Q -> (- half_ulp <= rnd x - x <= half_ulp)%Q.
Local Open Scope Q_scope.

(** A weight times a score: the literal and the product are rounded. *)
Lemma rnd_weight_error (w x : Q) :
  0 <= w <= 1 -> 0 <= x <= 1 ->
  - (2 * half_ulp) <= rnd (rnd w * x) - w * x <= 2 * half_ulp.
Proof.
  intros Hw Hx. unfold half_ulp in *.
  pose proof (rnd_error w ltac:(lra)) as Hrw.
  assert (Hwx : - (1 # 9007199254740992) <= rnd w * x - w * x
                <= 1 # 9007199254740992) by (split; nra).
  assert (Hb : 0 <= w * x <= 1) by (split; nra).
  assert (Hr : -2 < rnd w * x < 2) by (split; lra).
  pose proof (rnd_error (rnd w * x) Hr) as Hp.
  lra.
Qed.

(** The sum of [calculateEntitySimilarity], rounded at every step, is
    within [13 * 2 ^ -53] of the exact weighted sum. *)
Lemma weighted_sum_error (n t c p s : Q) :
  0 <= n <= 1 -> 0 <= t <= 1 -> 0 <= c <= 1 -> 0 <= p <= 1 -> 0 <= s <= 1 ->
  let finalScore :=
    rnd (rnd (rnd (rnd (rnd (rnd 0.35 * n) + rnd (rnd 0.2 * t))
                   + rnd (0.25 * c))
              + rnd (rnd 0.15 * p))
         + rnd (rnd 0.05 * s)) in
  - (13 * half_ulp)
  <= Qmin finalScore 1 - weighted_sum_spec n t c p s
  <= 13 * half_ulp.
Proof.
  intros Hn Ht Hc Hp Hs finalScore. unfold weighted_sum_spec.
  pose proof (rnd_weight_error 0.35 n ltac:(lra) Hn) as E1.
  pose proof (rnd_weight_error 0.2 t ltac:(lra) Ht) as E2.
  pose proof (rnd_weight_error 0.15 p ltac:(lra) Hp) as E4.
  pose proof (rnd_weight_error 0.05 s ltac:(lra) Hs) as E5.
  unfold half_ulp in *.
  pose proof (rnd_error (0.25 * c) ltac:(lra)) as E3.
  set (p1 := rnd (rnd 0.35 * n)) in *. set (p2 := rnd (rnd 0.2 * t)) in *.
  set (p3 := rnd (0.25 * c)) in *. set (p4 := rnd (rnd 0.15 * p)) in *.
  set (p5 := rnd (rnd 0.05 * s)) in *.
  pose proof (rnd_error (p1 + p2) ltac:(lra)) as S1.
  set (s1 := rnd (p1 + p2)) in *.
  pose proof (rnd_error (s1 + p3) ltac:(lra)) as S2.
  set (s2 := rnd (s1 + p3)) in *.
  pose proof (rnd_error (s2 + p4) ltac:(lra)) as S3.
  set (s3 := rnd (s2 + p4)) in *.
  pose proof (rnd_error (s3 + p5) ltac:(lra)) as S4.
  subst finalScore. fold s1 s2 s3. set (s4 := rnd (s3 + p5)) in *.
  set (e := 0.35 * n + 0.20 * t + 0.25 * c + 0.15 * p + 0.05 * s).
  assert (He : - (13 # 9007199254740992) <= s4 - e <= 13 # 9007199254740992).
  { subst e. lra. }
  clearbody s4 e.
  destruct (Q.min_spec s4 1) as [[H4 ->]|[H4 ->]];
    destruct (Q.min_spec e 1) as [[H1 ->]|[H1 ->]]; lra.
Qed.
End RoundedSum.

(** ** Relationship detector: the results *)

(** What a sorted list keeps in its first [n] elements is the best of
    it. *)
Lemma firstn_sorted_best {A : Type} (key : A -> Q) (n : nat) (l : list A)
    (x : A) :
  sorted_desc key l -> In x l ->
  In x (firstn n l)
  \/ (length (firstn n l) = n
      /\ forall y, In y (firstn n l) -> (key x <= key y)%Q).
Proof.
  revert l. induction n as [|n IH]; intros l Hs Hx.
  - right. split; [reflexivity|intros y []].
  - destruct l as [|a r]; [destruct Hx|]. destruct Hs as [Ha Hr].
    destruct Hx as [->|Hx]; [left; left; reflexivity|].
    destruct (IH r Hr Hx) as [Hin|[Hlen Hall]].
    + left. right. exact Hin.
    + right. rewrite firstn_cons. split; [cbn [length]; now rewrite Hlen|].
      intros y Hy. destruct Hy as [<-|Hy]; [apply Ha; exact Hx|].
      apply Hall; exact Hy.
Qed.

Section DetectorResults.
Context {tp : TextProcessor} {rounding : Rounding}.

(** Every candidate of another name whose score is above the threshold is
    among the results of the loop. *)
Lemma detect_candidates_complete (target : Entity) (candidates : list Entity)
    (c : Entity) :
  In c candidates -> name c <> name target ->
  (SIMILARITY_THRESHOLD < calculateEntitySimilarity target c)%Q ->
  exists r, In r (detect_candidates target candidates)
            /\ sim_entity r = c
            /\ similarity r = calculateEntitySimilarity target c.
Proof.
  intros Hin Hname Hthr. apply Qgtb_lt in Hthr.
  induction candidates as [|c' rest IH]; [destruct Hin|].
  cbn [detect_candidates]. destruct Hin as [->|Hin].
  - assert (En : jseqb (name c) (name target) = false).
    { destruct (jseqb _ _) eqn:E; [|reflexivity].
      apply jseqb_eq in E. contradiction. }
    rewrite En. cbv zeta. rewrite Hthr.
    eexists. split; [left; reflexivity|]. split; reflexivity.
  - destruct (IH Hin) as (r & Hr & Hrest).
    exists r. split; [|exact Hrest].
    destruct (jseqb _ _); [exact Hr|]. cbv zeta.
    destruct (Qgtb (calculateEntitySimilarity target c') SIMILARITY_THRESHOLD);
      [right|]; exact Hr.
Qed.

Lemma determineConfidence_cases (s : Q) :
  (determineConfidence s = high <-> (HIGH_CONFIDENCE_THRESHOLD <= s)%Q)
  /\ (determineConfidence s = medium
      <-> (MEDIUM_CONFIDENCE_THRESHOLD <= s)%Q
          /\ (s < HIGH_CONFIDENCE_THRESHOLD)%Q)
  /\ (determineConfidence s = low
      <-> (s < MEDIUM_CONFIDENCE_THRESHOLD)%Q
          /\ (s < HIGH_CONFIDENCE_THRESHOLD)%Q).
Proof.
  unfold determineConfidence, Qgeb.
  destruct (Qle_bool HIGH_CONFIDENCE_THRESHOLD s) eqn:Eh;
    [|destruct (Qle_bool MEDIUM_CONFIDENCE_THRESHOLD s) eqn:Em].
  - apply Qle_bool_iff in Eh.
    split; [tauto|].
    split; (split; [discriminate|intros [_ H]; exfalso;
                                 exact (Qlt_not_le _ _ H Eh)]).
  - assert (Hh : (s < HIGH_CONFIDENCE_THRESHOLD)%Q).
    { apply Qnot_le_lt. intros H. apply Qle_bool_iff in H. congruence. }
    apply Qle_bool_iff in Em.
    split; [split; [discriminate|intros H; exfalso;
                                 exact (Qlt_not_le _ _ Hh H)]|].
    split; [tauto|].
    split; [discriminate|intros [H _]; exfalso; exact (Qlt_not_le _ _ H Em)].
  - assert (Hh : (s < HIGH_CONFIDENCE_THRESHOLD)%Q).
    { apply Qnot_le_lt. intros H. apply Qle_bool_iff in H. congruence. }
    assert (Hm : (s < MEDIUM_CONFIDENCE_THRESHOLD)%Q).
    { apply Qnot_le_lt. intros H. apply Qle_bool_iff in H. congruence. }
    split; [split; [discriminate|intros H; exfalso;
                                 exact (Qlt_not_le _ _ Hh H)]|].
    split; [split; [discriminate|intros [H _]; exfalso;
                                 exact (Qlt_not_le _ _ Hm H)]|].
    tauto.
Qed.
End DetectorResults.

(** The similarity that the detector computes in double precision, with
    the text processor of the sources, lies between 0 and 1 and is within
    [13 * 2 ^ -53] of the weighted sum of the specification. *)
Lemma calculateEntitySimilarity_weighted_sum {st : Stemmer}
    (entity1 entity2 : Entity) :
  let tp := @textProcessor st binary64 in
  (0 <= @calculateEntitySimilarity tp binary64 entity1 entity2 <= 1)%Q
  /\ (- (13 * half_ulp)
      <= @calculateEntitySimilarity tp binary64 entity1 entity2
         - weighted_sum_spec
             (@calculateSentenceSimilarity tp (name entity1) (name entity2))
             (@calculateTypeSimilarity tp entity1 entity2)
             (@calculateContentSimilarity tp binary64 entity1 entity2)
             (@detectNamePatterns_score tp (name entity1) (name entity2))
             (@calculateStructuralSimilarity binary64 entity1 entity2)
      <= 13 * half_ulp)%Q.
Proof.
  intros tp. split.
  - apply (@calculateEntitySimilarity_unit binary64 round_binary64_range st).
  - pose proof (@calculateSentenceSimilarity_unit binary64
                  round_binary64_range st (name entity1) (name entity2))
      as Hn.
    pose proof (@calculateTypeSimilarity_unit binary64 round_binary64_range
                  st entity1 entity2) as Ht.
    pose proof (@calculateContentSimilarity_unit binary64
                  round_binary64_range st entity1 entity2) as Hc.
    pose proof (@detectNamePatterns_unit binary64 round_binary64_range
                  (name entity1) (name entity2)) as Hp.
    pose proof (@calculateStructuralSimilarity_unit binary64
                  round_binary64_range entity1 entity2) as Hs.
    exact (@weighted_sum_error binary64 round_binary64_error _ _ _ _ _
             Hn Ht Hc Hp Hs).
Qed.

(** The threshold of the confidence [high] is the double nearest to
    0.85, which lies below 0.85. *)
Lemma HIGH_CONFIDENCE_THRESHOLD_binary64 :
  @HIGH_CONFIDENCE_THRESHOLD binary64 = (7656119366529843 # 9007199254740992)%Q.
Proof. vm_compute. reflexivity. Qed.

(** C6: in double precision and with the text processor of the sources,
    [detectSimilarEntities] returns at most 8 results, sorted by
    decreasing similarity. Every result is a candidate of another name than
    the target; its similarity is the score of the candidate, which lies
    within [13 * 2 ^ -53] of the weighted sum 0.35 name + 0.20 type + 0.25
    content + 0.15 pattern + 0.05 structural clamped to 1, and it exceeds
    0.5; its confidence is [high] from the double 0.85 on, [medium] from
    0.75 on and [low] below. A candidate of another name whose score
    exceeds 0.5 is left out only when 8 results score at least as much. *)
Theorem detectSimilarEntities_spec {st : Stemmer} (targetEntity : Entity)
    (candidateEntities : list Entity) :
  let tp := @textProcessor st binary64 in
  let score := @calculateEntitySimilarity tp binary64 targetEntity in
  let high_threshold := (7656119366529843 # 9007199254740992)%Q in
  let results :=
    @detectSimilarEntities tp binary64 targetEntity candidateEntities in
  (length results <= 8)%nat
  /\ sorted_desc similarity results
  /\ (forall r, In r results ->
        In (sim_entity r) candidateEntities
        /\ sim_entity r <> targetEntity
        /\ name (sim_entity r) <> name targetEntity
        /\ similarity r = score (sim_entity r)
        /\ (0.5 < similarity r <= 1)%Q
        /\ (confidence r = high <-> (high_threshold <= similarity r)%Q)
        /\ (confidence r = medium
            <-> (0.75 <= similarity r)%Q /\ (similarity r < high_threshold)%Q)
        /\ (confidence r = low <-> (similarity r < 0.75)%Q)
        /\ ((0.85 <= similarity r)%Q -> confidence r = high))
  /\ (forall c, In c candidateEntities -> name c <> name targetEntity ->
        (0.5 < score c)%Q ->
        (exists r, In r results /\ sim_entity r = c)
        \/ (length results = 8%nat
            /\ forall r, In r results -> (score c <= similarity r)%Q))
  /\ (forall c,
        (Qabs (score c
               - weighted_sum_spec
                   (@calculateSentenceSimilarity tp (name targetEntity)
                      (name c))
                   (@calculateTypeSimilarity tp targetEntity c)
                   (@calculateContentSimilarity tp binary64 targetEntity c)
                   (@detectNamePatterns_score tp (name targetEntity) (name c))
                   (@calculateStructuralSimilarity binary64 targetEntity c))
         <= 13 * half_ulp)%Q)
  /\ (0.85 - half_ulp <= high_threshold <= 0.85)%Q.
Proof.
  intros tp score high_threshold results.
  subst results. unfold detectSimilarEntities. cbv zeta.
  split; [rewrite length_firstn; lia|].
  split; [apply firstn_sorted, sort_desc_sorted|].
  split; [|split; [|split]].
  - intros r Hr. apply firstn_In_inv in Hr. apply sort_desc_In in Hr.
    apply detect_candidates_In in Hr
      as (Hin & Hname & Hsim & Hthr & Hconf).
    apply Qgtb_lt in Hthr.
    destruct (calculateEntitySimilarity_weighted_sum targetEntity
                (sim_entity r)) as [[_ Hle1] _].
    fold tp in Hle1. rewrite <- Hsim in Hle1.
    destruct (@determineConfidence_cases binary64 (similarity r))
      as (Hh & Hm & Hl).
    rewrite <- Hconf in Hh, Hm, Hl.
    rewrite HIGH_CONFIDENCE_THRESHOLD_binary64 in Hh, Hm, Hl.
    fold high_threshold in Hh, Hm, Hl.
    split; [exact Hin|]. split; [congruence|]. split; [exact Hname|].
    split; [exact Hsim|]. split; [split; [exact Hthr|exact Hle1]|].
    split; [exact Hh|]. split; [exact Hm|].
    split.
    + rewrite Hl. unfold MEDIUM_CONFIDENCE_THRESHOLD. split; [tauto|].
      intros H. split; [exact H|].
      apply Qlt_trans with 0.75%Q; [exact H|reflexivity].
    + intros H. apply Hh. apply Qle_trans with 0.85%Q; [discriminate|exact H].
  - intros c Hin Hname Hthr.
    destruct (detect_candidates_complete targetEntity candidateEntities c
                Hin Hname Hthr) as (r & Hr & Hc & Hs).
    apply (sort_desc_In similarity) in Hr.
    destruct (firstn_sorted_best similarity 8 _ r
                (sort_desc_sorted similarity _) Hr) as [Hfirst|[Hlen Hall]].
    + left. exists r. split; [exact Hfirst|exact Hc].
    + right. split; [exact Hlen|].
      intros r' Hr'. fold tp in Hs. fold score in Hs. rewrite <- Hs.
      apply Hall. exact Hr'.
  - intros c. apply Qabs_Qle_condition. subst score.
    destruct (calculateEntitySimilarity_weighted_sum targetEntity c)
      as [_ He].
    exact He.
  - split; discriminate.
Qed.

(** A run in double precision. The candidate ["abcde abcde wxyz zzz"]
    scores the double next above 0.5 and is returned, after the candidate
    that scores more; in exact arithmetic its weighted sum is 1/2. The
    target itself and the candidate ["cache"] are not returned. *)
Lemma detectSimilarEntities_spec_witness :
  let target := mkEntity "ab abq abcde xyz" "components" [] in
  let near :=
    {| name := js "abcde abcde wxyz zzz"; entityType := js "componentz";
       observations := []; crossRefs := []; status := Some deprecated;
       statusReason := None; lastUpdated := None; keywordData := None |} in
  let sibling := mkEntity "ab abq abcde xyz v2" "components" [] in
  let far := mkEntity "cache" "Store" [] in
  exists r1 r2,
    @detectSimilarEntities (@textProcessor no_stemmer binary64) binary64 target
      [far; near; target; sibling] = [r1; r2]
    /\ sim_entity r1 = sibling
    /\ similarity r1 = (6280151164588489 # 9007199254740992)%Q
    /\ sim_entity r2 = near
    /\ similarity r2 = (4503599627370497 # 9007199254740992)%Q
    /\ (0.5 < similarity r2 <= 1)%Q
    /\ confidence r2 = low
    /\ (@calculateEntitySimilarity (@textProcessor no_stemmer exact_arithmetic)
          exact_arithmetic target near == 1 # 2)%Q.
Proof.
  intros target near sibling far.
  set (results := @detectSimilarEntities (@textProcessor no_stemmer binary64)
                    binary64 target [far; near; target; sibling]).
  set (none := {| sim_entity := target; similarity := 0; confidence := low;
                  suggestedRelationType := [] |}).
  assert (Hrun : results = [nth 0 results none; nth 1 results none])
    by (vm_compute; reflexivity).
  exists (nth 0 results none), (nth 1 results none).
  split; [exact Hrun|].
  split; [vm_compute; reflexivity|]. split; [vm_compute; reflexivity|].
  split; [vm_compute; reflexivity|].
  assert (Hsim : similarity (nth 1 results none)
                 = (4503599627370497 # 9007199254740992)%Q)
    by (vm_compute; reflexivity).
  split; [exact Hsim|].
  destruct (@detectSimilarEntities_spec no_stemmer target
              [far; near; target; sibling]) as (_ & _ & Hall & _).
  destruct (Hall (nth 1 results none))
    as (_ & _ & _ & _ & Hthr & _ & _ & Hlow & _).
  { fold results. rewrite Hrun at 2. right. left. reflexivity. }
  split; [exact Hthr|]. split.
  - apply Hlow. rewrite Hsim. reflexivity.
  - vm_compute. reflexivity.
Defined.

(** ** The text processor and the detector together *)

(** X2: the similarity of two strings by their edit distance
    ([calculateBasicSimilarity]) lies between 0 and 1, and it is 1 for
    equal strings only. *)
Theorem calculateBasicSimilarity_range (str1 str2 : jsstring) :
  (0 <= TextProcessorImpl.calculateBasicSimilarity str1 str2 <= 1)%Q
  /\ ((TextProcessorImpl.calculateBasicSimilarity str1 str2 == 1)%Q
      <-> str1 = str2).
Proof.
  destruct (calculateBasicSimilarity_cases str1 str2)
    as [[Heq ->]|(Hne & H0 & H1)].
  - split; [split; discriminate|]. split; [intros _; exact Heq|reflexivity].
  - split; [split; [exact H0|apply Qlt_le_weak, H1]|].
    split; [|contradiction].
    intros Hone. rewrite Hone in H1. discriminate H1.
Qed.

(** X3: for every stemmer and all texts, the three scores of the text
    processor (sentence similarity, semantic similarity and the score of
    the name patterns) lie between 0 and 1. *)
Theorem textProcessor_scores_in_unit_interval {st : Stemmer}
    (text1 text2 : jsstring) :
  (0 <= @calculateSentenceSimilarity textProcessor text1 text2 <= 1)%Q
  /\ (0 <= @calculateSemanticSimilarity textProcessor text1 text2 <= 1)%Q
  /\ (0 <= @detectNamePatterns_score textProcessor text1 text2 <= 1)%Q.
Proof.
  cbn [calculateSentenceSimilarity calculateSemanticSimilarity
       detectNamePatterns_score textProcessor].
  split; [apply calculateSentenceSimilarity_bounds|].
  split; [apply calculateSemanticSimilarity_bounds|].
  apply detectNamePatterns_bounds.
Qed.

(** X4: a non-empty text is fully similar to itself, whatever the
    stemmer; the empty text is similar to nothing, itself included. *)
Theorem calculateSentenceSimilarity_self_or_empty {st : Stemmer}
    (text : jsstring) :
  (text <> [] ->
   (TextProcessorImpl.calculateSentenceSimilarity text text == 1)%Q)
  /\ TextProcessorImpl.calculateSentenceSimilarity [] text = 0%Q
  /\ TextProcessorImpl.calculateSentenceSimilarity text [] = 0%Q.
Proof.
  split; [apply calculateSentenceSimilarity_self|].
  unfold TextProcessorImpl.calculateSentenceSimilarity.
  split; [reflexivity|]. now rewrite orb_true_r.
Qed.

Lemma calculateSentenceSimilarity_self_or_empty_witness :
  js "memory" <> []
  /\ (@TextProcessorImpl.calculateSentenceSimilarity no_stemmer
        exact_arithmetic (js "memory") (js "memory") == 1)%Q.
Proof.
  assert (Hne : js "memory" <> []) by (vm_compute; discriminate).
  split; [exact Hne|].
  exact (proj1 (@calculateSentenceSimilarity_self_or_empty no_stemmer
                  (js "memory")) Hne).
Defined.



(** X6: [inferRelationshipType] answers one of five relation types;
    ["contains"] in one direction is ["part_of"] in the other one, and
    ["part_of"] is ["contains"] in the other direction unless the two
    lower-case names have the same length; ["similar_to"] and
    ["closely_related"] are given above the similarity 0.9 only. *)
Theorem inferRelationshipType_directions (entity1 entity2 : Entity)
    (similarity similarity' : Q) :
  let type12 := inferRelationshipType entity1 entity2 similarity in
  let type21 := inferRelationshipType entity2 entity1 similarity' in
  In type12 [js "contains"; js "part_of"; js "similar_to"; js "related_to";
             js "closely_related"]
  /\ (type12 = js "contains" -> type21 = js "part_of")
  /\ (type12 = js "part_of" ->
      length (toLowerCase (name entity1))
      <> length (toLowerCase (name entity2)) ->
      type21 = js "contains")
  /\ (type12 = js "similar_to" \/ type12 = js "closely_related" ->
      (0.9 < similarity)%Q).
Proof.
  unfold inferRelationshipType. cbv zeta. cbn [rnd exact_arithmetic].
  set (n1 := toLowerCase (name entity1)).
  set (n2 := toLowerCase (name entity2)).
  rewrite (orb_comm (includes n2 n1)).
  destruct (includes n1 n2 || includes n2 n1).
  - destruct (length n2 <? length n1)%nat eqn:E12.
    + apply Nat.ltb_lt in E12.
      assert (E21 : (length n1 <? length n2)%nat = false)
        by (apply Nat.ltb_ge; lia).
      rewrite E21.
      split; [left; reflexivity|]. split; [reflexivity|].
      split; [intros H; vm_compute in H; discriminate H|].
      intros [H|H]; vm_compute in H; discriminate H.
    + apply Nat.ltb_ge in E12.
      split; [right; left; reflexivity|].
      split; [intros H; vm_compute in H; discriminate H|].
      split.
      * intros _ Hlen.
        assert (E21 : (length n1 <? length n2)%nat = true)
          by (apply Nat.ltb_lt; lia).
        now rewrite E21.
      * intros [H|H]; vm_compute in H; discriminate H.
  - assert (Hgt : forall t : jsstring,
               (if Qgtb similarity 0.9 then t else js "related_to") = t ->
               t <> js "related_to" -> (0.9 < similarity)%Q).
    { intros t Ht Hne. destruct (Qgtb similarity 0.9) eqn:E.
      - apply Qgtb_lt. exact E.
      - symmetry in Ht. contradiction. }
    destruct (jseqb (toLowerCase (entityType entity1))
                (toLowerCase (entityType entity2))).
    + split.
      { destruct (Qgtb similarity 0.9);
          [right; right; left; reflexivity|right; right; right; left; reflexivity]. }
      split; [destruct (Qgtb similarity 0.9); intros H; vm_compute in H;
              discriminate H|].
      split; [destruct (Qgtb similarity 0.9); intros H; vm_compute in H;
              discriminate H|].
      intros [H|H].
      * apply (Hgt _ H). intros Hc. vm_compute in Hc. discriminate Hc.
      * destruct (Qgtb similarity 0.9); vm_compute in H; discriminate H.
    + split.
      { destruct (Qgtb similarity 0.9);
          [right; right; right; right; left; reflexivity
          |right; right; right; left; reflexivity]. }
      split; [destruct (Qgtb similarity 0.9); intros H; vm_compute in H;
              discriminate H|].
      split; [destruct (Qgtb similarity 0.9); intros H; vm_compute in H;
              discriminate H|].
      intros [H|H].
      * destruct (Qgtb similarity 0.9); vm_compute in H; discriminate H.
      * apply (Hgt _ H). intros Hc. vm_compute in Hc. discriminate Hc.
Qed.

(** ** Memory optimizer: the length and the white space of the result *)

Lemma collapse_spaces_from_length (b : bool) (s : jsstring) :
  (length (collapse_spaces_from b s) <= length s)%nat.
Proof.
  revert b. induction s as [|c r IH]; intros b; simpl; [lia|].
  pose proof (IH true). pose proof (IH false).
  destruct (is_space c); [destruct b|]; simpl; lia.
Qed.

Lemma trimStart_length (s : jsstring) : (length (trimStart s) <= length s)%nat.
Proof.
  induction s as [|c r IH]; simpl; [lia|].
  destruct (is_space c); simpl; lia.
Qed.

Lemma trim_length (s : jsstring) : (length (trim s) <= length s)%nat.
Proof.
  unfold trim, trimEnd. rewrite length_rev.
  etransitivity; [apply trimStart_length|].
  rewrite length_rev. apply trimStart_length.
Qed.

Lemma minimalCompression_length (text : jsstring) :
  (length (minimalCompression text) <= length text)%nat.
Proof.
  rewrite minimalCompression_trim_collapse.
  etransitivity; [apply trim_length|apply collapse_spaces_from_length].
Qed.

Lemma ci_prefix_length (p s : jsstring) :
  ci_prefix p s = true -> (length p <= length s)%nat.
Proof.
  revert s. induction p as [|a p IH]; intros [|c s]; simpl; try lia;
    try discriminate.
  intros H. apply andb_true_iff in H as [_ H]. specialize (IH s H). lia.
Qed.

Lemma replace_word_from_length (full abbrev : jsstring) :
  (length abbrev <= length full)%nat -> (1 <= length full)%nat ->
  forall (s : jsstring) (skip : nat) (prev_word : bool),
    (length (replace_word_from full abbrev skip prev_word s)
     + Nat.min skip (length s) <= length s)%nat.
Proof.
  intros Hab Hfull. induction s as [|c r IH]; intros skip pw;
    [simpl; lia|].
  cbn [replace_word_from]. destruct skip as [|k].
  - destruct (negb pw && ci_prefix full (c :: r)
              && boundary_after (skipn (length full) (c :: r))) eqn:E.
    + apply andb_true_iff in E as [E _]. apply andb_true_iff in E as [_ E].
      apply ci_prefix_length in E. simpl in E.
      specialize (IH (length full - 1)%nat true).
      rewrite length_app. simpl. lia.
    + specialize (IH 0%nat (is_word_char c)). simpl. lia.
  - specialize (IH k true). simpl. lia.
Qed.

Lemma count_spaces_length (s : jsstring) : (count_spaces s <= length s)%nat.
Proof.
  induction s as [|c r IH]; simpl; [lia|]. destruct (is_space c); lia.
Qed.

Lemma replace_keyword_from_length (kw sym : jsstring) :
  (length sym <= length kw + 1)%nat ->
  forall (s : jsstring) (skip : nat) (prev_word : bool),
    (length (replace_keyword_from kw sym skip prev_word s)
     + Nat.min skip (length s) <= length s)%nat.
Proof.
  intros Hsym. induction s as [|c r IH]; intros skip pw; [simpl; lia|].
  cbn [replace_keyword_from]. destruct skip as [|k].
  - cbv zeta.
    destruct (negb pw && ci_prefix kw (c :: r)
              && (0 <? count_spaces (skipn (length kw) (c :: r)))%nat) eqn:E.
    + apply andb_true_iff in E as [E Hsp]. apply andb_true_iff in E as [_ E].
      apply ci_prefix_length in E. apply Nat.ltb_lt in Hsp.
      pose proof (count_spaces_length (skipn (length kw) (c :: r))) as Hc.
      rewrite length_skipn in Hc.
      set (n := count_spaces (skipn (length kw) (c :: r))) in *.
      specialize (IH (length kw + n - 1)%nat false).
      rewrite length_app. simpl in *. lia.
    + specialize (IH 0%nat (is_word_char c)). simpl. lia.
  - specialize (IH k false). simpl. lia.
Qed.

Lemma replace_keyword_length (kw sym text : jsstring) :
  (length sym <= length kw + 1)%nat ->
  (length (replace_keyword kw sym text) <= length text)%nat.
Proof.
  intros Hsym.
  pose proof (replace_keyword_from_length kw sym Hsym text 0 false).
  unfold replace_keyword. lia.
Qed.

Lemma join_space_cons (x : jsstring) (l : list jsstring) :
  length (join [SPACE] (x :: l))
  = (length x + match l with [] => 0 | _ => 1 + length (join [SPACE] l) end)%nat.
Proof.
  destruct l as [|y l]; simpl; [lia|]. rewrite length_app. simpl. lia.
Qed.

Lemma split_runs_from_length (is_sep : N -> bool) (s cur : jsstring)
    (in_run : bool) :
  split_runs_from is_sep cur in_run s <> []
  /\ (length (join [SPACE] (split_runs_from is_sep cur in_run s))
      <= length cur + length s)%nat.
Proof.
  revert cur in_run. induction s as [|c r IH]; intros cur in_run.
  - simpl. split; [discriminate|]. rewrite length_rev. lia.
  - cbn [split_runs_from]. destruct (is_sep c).
    + destruct (IH [] true) as [Hne Hle]. destruct in_run.
      * split; [exact Hne|]. simpl in *. lia.
      * split; [discriminate|]. rewrite join_space_cons, length_rev.
        destruct (split_runs_from is_sep [] true r); [contradiction|].
        simpl in *. lia.
    + destruct (IH (c :: cur) false) as [Hne Hle].
      split; [exact Hne|]. simpl in *. lia.
Qed.

Lemma join_filter_index_length (f : nat -> jsstring -> bool)
    (l : list jsstring) (i : nat) :
  (length (join [SPACE] (filter_index_from f i l))
   <= length (join [SPACE] l))%nat.
Proof.
  revert i. induction l as [|x l IH]; intros i; [simpl; lia|].
  cbn [filter_index_from]. specialize (IH (S i)).
  rewrite (join_space_cons x l).
  destruct (f i x).
  - rewrite join_space_cons.
    destruct (filter_index_from f (S i) l) eqn:E; [lia|].
    destruct l; [discriminate E|]. lia.
  - destruct l; [simpl in *; lia|]. lia.
Qed.

Lemma join_filter_length (f : jsstring -> bool) (l : list jsstring) :
  (length (join [SPACE] (filter (fun w => f w = true) l))
   <= length (join [SPACE] l))%nat.
Proof.
  induction l as [|x l IH]; [simpl; lia|].
  rewrite (join_space_cons x l).
  destruct (f x) eqn:E.
  - rewrite filter_cons_True by exact E. rewrite join_space_cons.
    destruct (filter _ l) eqn:El; [lia|].
    destruct l; [rewrite filter_nil in El; discriminate El|]. lia.
  - rewrite filter_cons_False by (rewrite E; discriminate).
    destruct l; [simpl in *; lia|]. lia.
Qed.

Lemma abbreviations_shorten :
  forallb (fun p => (length (snd p) <=? length (fst p))%nat
                    && (1 <=? length (fst p))%nat) abbreviations = true.
Proof. vm_compute. reflexivity. Qed.

Lemma replace_abbreviations_length (table : list (jsstring * jsstring))
    (text : jsstring) :
  forallb (fun p => (length (snd p) <=? length (fst p))%nat
                    && (1 <=? length (fst p))%nat) table = true ->
  (length (fold_left (fun acc '(full, abbrev) => replace_word full abbrev acc)
                     table text) <= length text)%nat.
Proof.
  revert text. induction table as [|[full abbrev] rest IH]; intros text Ht;
    [simpl; lia|].
  cbn [forallb fst snd] in Ht. apply andb_true_iff in Ht as [Hp Hrest].
  apply andb_true_iff in Hp as [Hab Hfull].
  apply Nat.leb_le in Hab, Hfull.
  cbn [fold_left]. etransitivity; [apply IH; exact Hrest|].
  pose proof (replace_word_from_length full abbrev Hab Hfull text 0 false).
  unfold replace_word. lia.
Qed.

Lemma balancedCompression_length (text : jsstring) :
  (length (balancedCompression text) <= length text)%nat.
Proof.
  unfold balancedCompression. cbv zeta.
  set (abbreviated := fold_left _ abbreviations (minimalCompression text)).
  etransitivity; [apply join_filter_index_length|].
  etransitivity;
    [apply (proj2 (split_runs_from_length is_space abbreviated [] false))|].
  etransitivity;
    [apply replace_abbreviations_length, abbreviations_shorten|].
  apply minimalCompression_length.
Qed.

(** X7: at every compression level the optimized text is at most as long
    as the text that [optimize] was given. *)
Theorem optimize_never_longer (level : CompressionLevel) (text : jsstring) :
  (length (optimized (optimize level text)) <= length text)%nat.
Proof.
  destruct level; cbn [optimize optimized].
  - apply minimalCompression_length.
  - apply balancedCompression_length.
  - unfold aggressiveCompression. cbv zeta.
    repeat (etransitivity;
            [apply replace_keyword_length; vm_compute; lia|]).
    etransitivity; [apply join_filter_length|].
    etransitivity;
      [apply (proj2 (split_runs_from_length is_space
                       (balancedCompression text) [] false))|].
    apply balancedCompression_length.
Qed.

Lemma collapse_spaces_from_plain (b : bool) (s : jsstring) :
  plain_spaces (collapse_spaces_from b s).
Proof.
  revert b. induction s as [|c r IH]; intros b; simpl; [constructor|].
  destruct (is_space c) eqn:E.
  - destruct b; [apply IH|]. constructor; [reflexivity|apply IH].
  - constructor; [congruence|apply IH].
Qed.

Lemma trimStart_plain (s : jsstring) :
  plain_spaces s -> plain_spaces (trimStart s).
Proof.
  unfold plain_spaces. induction s as [|c r IH]; simpl; [auto|].
  intros H. destruct (is_space c); [|exact H].
  apply IH. now inversion H.
Qed.

Lemma trim_plain (s : jsstring) : plain_spaces s -> plain_spaces (trim s).
Proof.
  unfold trim, trimEnd. intros H.
  apply Forall_rev. apply trimStart_plain. apply Forall_rev.
  apply trimStart_plain. exact H.
Qed.

Lemma replace_word_from_plain (full abbrev : jsstring) :
  plain_spaces abbrev ->
  forall (s : jsstring) (skip : nat) (prev_word : bool),
    plain_spaces s ->
    plain_spaces (replace_word_from full abbrev skip prev_word s).
Proof.
  intros Ha. induction s as [|c r IH]; intros skip pw Hs; [constructor|].
  cbn [replace_word_from]. inversion Hs as [|? ? Hc Hr]; subst.
  destruct skip as [|k]; [|apply IH; exact Hr].
  destruct (_ && _).
  - apply Forall_app. split; [exact Ha|apply IH; exact Hr].
  - constructor; [exact Hc|apply IH; exact Hr].
Qed.

Lemma replace_keyword_from_plain (kw sym : jsstring) :
  plain_spaces sym ->
  forall (s : jsstring) (skip : nat) (prev_word : bool),
    plain_spaces s ->
    plain_spaces (replace_keyword_from kw sym skip prev_word s).
Proof.
  intros Ha. induction s as [|c r IH]; intros skip pw Hs; [constructor|].
  cbn [replace_keyword_from]. inversion Hs as [|? ? Hc Hr]; subst.
  destruct skip as [|k]; [|apply IH; exact Hr].
  cbv zeta. destruct (_ && _).
  - apply Forall_app. split; [exact Ha|apply IH; exact Hr].
  - constructor; [exact Hc|apply IH; exact Hr].
Qed.

Lemma split_runs_from_no_space (s cur : jsstring) (in_run : bool) :
  Forall (fun c => is_space c = false) cur ->
  Forall (Forall (fun c => is_space c = false))
         (split_runs_from is_space cur in_run s).
Proof.
  revert cur in_run. induction s as [|c r IH]; intros cur in_run Hcur.
  - simpl. constructor; [apply Forall_rev; exact Hcur|constructor].
  - cbn [split_runs_from]. destruct (is_space c) eqn:E.
    + destruct in_run; [apply IH; constructor|].
      constructor; [apply Forall_rev; exact Hcur|apply IH; constructor].
    + apply IH. constructor; assumption.
Qed.

Lemma join_space_plain (l : list jsstring) :
  Forall (Forall (fun c => is_space c = false)) l ->
  plain_spaces (join [SPACE] l).
Proof.
  assert (Hword : forall w, Forall (fun c => is_space c = false) w ->
                            plain_spaces w).
  { intros w Hw. eapply Forall_impl; [exact Hw|].
    intros c Hc Hs. simpl in Hc. congruence. }
  induction l as [|x l IH]; intros Hl; [constructor|].
  inversion Hl as [|? ? Hx Hrest]; subst.
  destruct l as [|y l]; [apply Hword; exact Hx|].
  change (join [SPACE] (x :: y :: l))
    with (x ++ [SPACE] ++ join [SPACE] (y :: l)).
  apply Forall_app. split; [apply Hword; exact Hx|].
  apply Forall_app. split; [constructor; [reflexivity|constructor]|].
  apply IH. exact Hrest.
Qed.

Lemma filter_index_from_Forall {A : Type} (P : A -> Prop)
    (f : nat -> A -> bool) (l : list A) (i : nat) :
  Forall P l -> Forall P (filter_index_from f i l).
Proof.
  revert i. induction l as [|x l IH]; intros i Hl; [constructor|].
  inversion Hl; subst. cbn [filter_index_from].
  destruct (f i x); [constructor; [assumption|]|]; apply IH; assumption.
Qed.

Lemma filter_keeps_Forall {A : Type} (P Q : A -> Prop)
    `{forall x, Decision (Q x)} (l : list A) :
  Forall P l -> Forall P (filter Q l).
Proof.
  induction 1 as [|x l Hx Hl IH]; [constructor|].
  rewrite filter_cons. destruct (decide (Q x)); [constructor|]; assumption.
Qed.

Lemma abbreviations_plain :
  forallb (fun p => forallb (fun c => negb (is_space c)) (snd p))
          abbreviations = true.
Proof. vm_compute. reflexivity. Qed.

Lemma replace_abbreviations_plain (table : list (jsstring * jsstring))
    (text : jsstring) :
  forallb (fun p => forallb (fun c => negb (is_space c)) (snd p)) table
  = true ->
  plain_spaces text ->
  plain_spaces
    (fold_left (fun acc '(full, abbrev) => replace_word full abbrev acc)
               table text).
Proof.
  revert text. induction table as [|[full abbrev] rest IH]; intros text Ht Hp;
    [exact Hp|].
  cbn [forallb snd] in Ht. apply andb_true_iff in Ht as [Ha Hrest].
  cbn [fold_left]. apply IH; [exact Hrest|].
  apply replace_word_from_plain; [|exact Hp].
  apply List.Forall_forall. intros c Hc Hs.
  rewrite forallb_forall in Ha. specialize (Ha c Hc).
  rewrite Hs in Ha. discriminate Ha.
Qed.

(** X8: at every compression level, the only white space of the
    optimized text is the plain space: line breaks and tabs of the input
    never survive [optimize]. *)
Theorem optimize_keeps_plain_spaces_only (level : CompressionLevel)
    (text : jsstring) :
  plain_spaces (optimized (optimize level text)).
Proof.
  assert (Hmin : plain_spaces (minimalCompression text)).
  { rewrite minimalCompression_trim_collapse. apply trim_plain.
    apply collapse_spaces_from_plain. }
  assert (Hbal : plain_spaces (balancedCompression text)).
  { unfold balancedCompression. cbv zeta. apply join_space_plain.
    apply filter_index_from_Forall. apply split_runs_from_no_space.
    constructor. }
  destruct level; cbn [optimize optimized]; [exact Hmin|exact Hbal|].
  unfold aggressiveCompression. cbv zeta.
  assert (Hsym : forall sym : string,
             forallb (fun c => negb (is_space c)) (js sym) = true ->
             plain_spaces (js sym)).
  { intros sym Hs. apply List.Forall_forall. intros c Hc Hsp.
    rewrite forallb_forall in Hs. specialize (Hs c Hc).
    rewrite Hsp in Hs. discriminate Hs. }
  repeat (apply replace_keyword_from_plain; [apply Hsym; reflexivity|]).
  apply join_space_plain. apply filter_keeps_Forall.
  apply split_runs_from_no_space. constructor.
Qed.

Lemma split_runs_words_nonempty (text : jsstring) :
  (list_to_set (split_runs is_space text) : gset jsstring) <> ∅.
Proof.
  destruct (split_runs_from_length is_space text [] false) as [Hne _].
  unfold split_runs. destruct (split_runs_from is_space [] false text)
    as [|w ws]; [contradiction|].
  intros Hempty.
  assert (Hin : w ∈ (list_to_set (w :: ws) : gset jsstring)).
  { apply elem_of_list_to_set. left. }
  rewrite Hempty in Hin. exact (not_elem_of_empty _ Hin).
Qed.

(** X9: the word similarity of the optimizer lies between 0 and 1, is
    symmetric, and is 1 for every text with itself, the empty text
    included: the set of words of a text is never empty, so that the
    fallback 0 of the code is never taken. *)
Theorem calculateSimilarity_laws (text1 text2 : jsstring) :
  (0 <= calculateSimilarity text1 text2 <= 1)%Q
  /\ (calculateSimilarity text1 text2 == calculateSimilarity text2 text1)%Q
  /\ (calculateSimilarity text1 text1 == 1)%Q
  /\ (0 < size ((list_to_set (split_runs is_space (toLowerCase text1))
                 : gset jsstring)
                ∪ list_to_set (split_runs is_space (toLowerCase text2))))%nat.
Proof.
  unfold calculateSimilarity. cbv zeta.
  set (X := list_to_set (split_runs is_space (toLowerCase text1))
            : gset jsstring).
  set (Y := list_to_set (split_runs is_space (toLowerCase text2))
            : gset jsstring).
  assert (HX : X <> ∅) by apply split_runs_words_nonempty.
  assert (Hsize : forall Z W : gset jsstring, Z <> ∅ -> (0 < size (Z ∪ W))%nat).
  { intros Z W HZ.
    pose proof (subseteq_size _ _ (union_subseteq_l Z W)) as Hle.
    destruct (size Z) eqn:E; [|lia].
    apply size_empty_inv, leibniz_equiv in E. contradiction. }
  rewrite !filter_member_intersection.
  pose proof (Hsize X Y HX) as Hpos.
  assert (HposYX : (0 < size (Y ∪ X))%nat) by (rewrite union_comm_L; exact Hpos).
  assert (HposXX : (0 < size (X ∪ X))%nat) by (apply Hsize; exact HX).
  apply Nat.ltb_lt in Hpos as Eb, HposYX as Eb', HposXX as Eb''.
  rewrite Eb, Eb', Eb''.
  split; [|split; [|split]].
  - assert (Hsub : X ∩ Y ⊆ X ∪ Y).
    { etransitivity; [apply intersection_subseteq_l|apply union_subseteq_l]. }
    apply Qdiv_nat_bounds; [exact Hpos|apply subseteq_size, Hsub].
  - now rewrite (intersection_comm_L Y X), (union_comm_L Y X).
  - rewrite intersection_idemp_L, union_idemp_L.
    apply Qdiv_nat_one; [|reflexivity].
    rewrite union_idemp_L in HposXX. exact HposXX.
  - exact Hpos.
Qed.

(** ** The resolution of a branch name and the other tables *)

Lemma getBranchId_tables (now : Z) (branchName : option jsstring) (db : DB) :
  exists db0 br,
    getBranchId now branchName db = (db0, Ok (br_id br))
    /\ find_branch_by_name (branch_or_main branchName) db0 = Some br
    /\ entities db0 = entities db
    /\ observations_table db0 = observations_table db
    /\ relations db0 = relations db
    /\ keywords db0 = keywords db
    /\ cross_references db0 = cross_references db
    /\ (has_branch (branch_or_main branchName) db -> db0 = db).
Proof.
  destruct (find_branch_by_name (branch_or_main branchName) db) as [br|] eqn:E.
  - exists db, br. rewrite (getBranchId_existing _ _ _ _ E).
    repeat split; auto.
  - eexists.
    exists (auto_created_branch now
              (next_rowid (seq_memory_branches db)
                          (map br_id (memory_branches db)))
              (branch_or_main branchName)).
    rewrite (getBranchId_missing now _ _ E).
    split; [reflexivity|]. split.
    { unfold find_branch_by_name in *.
      cbn [memory_branches with_memory_branches]. rewrite find_snoc, E.
      cbn [auto_created_branch br_name]. rewrite jseqb_refl. reflexivity. }
    repeat split.
    unfold has_branch. rewrite E. discriminate.
Qed.

(** ** Deleting observations *)

Lemma filter_filter_andb {A : Type} (p q : A -> bool) (l : list A) :
  List.filter p (List.filter q l) = List.filter (fun x => q x && p x) l.
Proof.
  induction l as [|x l IH]; [reflexivity|]. simpl.
  destruct (q x); simpl; [destruct (p x)|]; now rewrite IH.
Qed.

Lemma find_same_keys (n : jsstring) (branchId : Z) (l l' : list EntityRow) :
  map entity_key l' = map entity_key l ->
  option_map ent_id
    (find (fun e => jseqb (ent_name e) n && (ent_branch_id e =? branchId)) l')
  = option_map ent_id
      (find (fun e => jseqb (ent_name e) n && (ent_branch_id e =? branchId)) l).
Proof.
  revert l'. induction l as [|e l IH]; intros [|e' l'] H; simpl in H;
    try discriminate H; [reflexivity|].
  injection H as Hid Hn Hb Hrest. simpl. rewrite Hn, Hb.
  destruct (_ && _); [simpl; now rewrite Hid|apply IH; exact Hrest].
Qed.

Lemma find_entity_same_keys (n : jsstring) (branchId : Z) (db db' : DB) :
  map entity_key (entities db') = map entity_key (entities db) ->
  option_map ent_id (find_entity n branchId db')
  = option_map ent_id (find_entity n branchId db).
Proof. apply find_same_keys. Qed.

Lemma touch_entity_keys (now id : Z) (db : DB) :
  map entity_key (entities (fst (touch_entity now id db)))
  = map entity_key (entities db).
Proof.
  unfold touch_entity. cbn [fst entities with_entities].
  rewrite map_map. apply map_ext. intros e.
  destruct (ent_id e =? id); reflexivity.
Qed.

Lemma named_for_deletion_same_keys (deletions : list ObservationsDeletion)
    (branchId : Z) (db db' : DB) (o : ObservationRow) :
  map entity_key (entities db') = map entity_key (entities db) ->
  named_for_deletion deletions branchId db' o
  = named_for_deletion deletions branchId db o.
Proof.
  intros Hk. unfold named_for_deletion.
  induction deletions as [|d ds IH]; [reflexivity|]. simpl. rewrite IH.
  f_equal.
  pose proof (find_entity_same_keys (deletion_entityName d) branchId db db' Hk)
    as Hf.
  destruct (find_entity _ branchId db'), (find_entity _ branchId db);
    simpl in Hf; try discriminate Hf; [|reflexivity].
  injection Hf as ->. reflexivity.
Qed.

(** The inner loop: the observations of the entity with one of the
    contents go, all the copies of them. *)
Lemma delete_observation_loop (entityId : Z) (cs : list jsstring) (db : DB) :
  exists db',
    for_fold cs tt (fun _ obsContent => delete_observation entityId obsContent)
      db = (db', Ok tt)
    /\ observations_table db'
       = List.filter (fun o => negb ((obs_entity_id o =? entityId)
                                     && name_in cs (obs_content o)))
                     (observations_table db)
    /\ entities db' = entities db
    /\ (memory_branches db', relations db', keywords db', cross_references db')
       = (memory_branches db, relations db, keywords db, cross_references db).
Proof.
  revert db. induction cs as [|c cs IH]; intros db.
  - exists db. split; [reflexivity|]. split; [|split; reflexivity].
    cbn [name_in existsb]. symmetry. rewrite <- (List.filter_ext (fun _ => true)).
    + induction (observations_table db) as [|o l IHl]; [reflexivity|].
      simpl. now rewrite IHl.
    + intros o. now rewrite andb_false_r.
  - cbn [for_fold]. unfold bind at 1. unfold delete_observation at 1.
    set (db1 := with_observations db _ _).
    destruct (IH db1) as (db' & Hloop & Ho & He & Hrest).
    exists db'. split; [exact Hloop|]. split; [|split; assumption].
    rewrite Ho. subst db1. cbn [observations_table with_observations].
    rewrite filter_filter_andb. apply List.filter_ext. intros o.
    unfold name_in. cbn [existsb].
    rewrite (eq_true_iff_eq (jseqb (obs_content o) c) (jseqb c (obs_content o)))
      by (unfold jseqb; rewrite !bool_decide_eq_true; split; congruence).
    destruct (obs_entity_id o =? entityId), (jseqb c (obs_content o));
      reflexivity.
Qed.

(** X10: [deleteObservations] never fails; of the observations it removes
    exactly those of a named entity of the branch whose content one of the
    deletions of that entity lists, all the copies of such a content; the
    other observations keep their rows (and so their sequence orders), and
    no other table loses or gains a row. *)
Theorem deleteObservations_removes_named (now : Z)
    (deletions : list ObservationsDeletion) (branchName : option jsstring)
    (db : DB) :
  exists db0 branchId db',
    getBranchId now branchName db = (db0, Ok branchId)
    /\ deleteObservations now deletions branchName db = (db', Ok tt)
    /\ observations_table db'
       = List.filter
           (fun o => negb (named_for_deletion deletions branchId db o))
           (observations_table db)
    /\ map entity_key (entities db') = map entity_key (entities db)
    /\ memory_branches db' = memory_branches db0
    /\ relations db' = relations db
    /\ keywords db' = keywords db
    /\ cross_references db' = cross_references db.
Proof.
  destruct (getBranchId_tables now branchName db)
    as (db0 & br & Hg & _ & He0 & Ho0 & Hr0 & Hk0 & Hc0 & _).
  exists db0, (br_id br). unfold deleteObservations. unfold bind at 1.
  rewrite Hg.
  assert (Hloop : forall ds dbk,
             map entity_key (entities dbk) = map entity_key (entities db0) ->
             exists db',
               for_fold ds tt
                 (fun (_ : unit) deletion =>
                    try_catch
                      (entity <-
                         query (find_entity (deletion_entityName deletion)
                                            (br_id br)) ;;
                       match entity with
                       | None => ret tt
                       | Some entity =>
                           for_fold (deletion_observations deletion) tt
                             (fun _ obsContent =>
                                delete_observation (ent_id entity) obsContent) ;;;
                           touch_entity now (ent_id entity)
                       end)
                      (fun _ => ret tt)) dbk = (db', Ok tt)
               /\ observations_table db'
                  = List.filter
                      (fun o => negb (named_for_deletion ds (br_id br) db0 o))
                      (observations_table dbk)
               /\ map entity_key (entities db') = map entity_key (entities db0)
               /\ (memory_branches db', relations db', keywords db',
                   cross_references db')
                  = (memory_branches dbk, relations dbk, keywords dbk,
                     cross_references dbk)).
  { induction ds as [|d ds IH]; intros dbk Hk.
    - exists dbk. split; [reflexivity|]. split; [|split; [exact Hk|reflexivity]].
      cbn. induction (observations_table dbk) as [|o l IHl]; [reflexivity|].
      simpl. now rewrite <- IHl.
    - cbn [for_fold]. unfold bind at 1. unfold try_catch at 1.
      unfold bind at 1. unfold query at 1.
      pose proof (find_entity_same_keys (deletion_entityName d) (br_id br)
                    db0 dbk Hk) as Hf.
      destruct (find_entity (deletion_entityName d) (br_id br) dbk) as [e|]
        eqn:Ek.
      + destruct (find_entity (deletion_entityName d) (br_id br) db0)
          as [e0|] eqn:E0; [|discriminate Hf].
        simpl in Hf. injection Hf as Hid.
        unfold bind at 1.
        destruct (delete_observation_loop (ent_id e)
                    (deletion_observations d) dbk)
          as (db1 & Hinner & Ho1 & He1 & Hrest1).
        rewrite Hinner.
        set (db2 := fst (touch_entity now (ent_id e) db1)).
        assert (Ht : touch_entity now (ent_id e) db1 = (db2, Ok tt))
          by reflexivity.
        rewrite Ht.
        assert (Hk2 : map entity_key (entities db2)
                      = map entity_key (entities db0)).
        { subst db2. rewrite touch_entity_keys, He1. exact Hk. }
        destruct (IH db2 Hk2) as (db' & Hl & Ho & Hk' & Hrest).
        exists db'. split; [exact Hl|]. split; [|split; [exact Hk'|]].
        * rewrite Ho. subst db2. cbn [fst touch_entity observations_table
                                      with_entities].
          rewrite Ho1, filter_filter_andb. apply List.filter_ext. intros o.
          cbn [named_for_deletion existsb]. rewrite E0, Hid.
          now rewrite negb_orb.
        * rewrite Hrest. subst db2. cbn [fst touch_entity memory_branches
            relations keywords cross_references with_entities].
          exact Hrest1.
      + destruct (find_entity (deletion_entityName d) (br_id br) db0)
          as [e0|] eqn:E0; [discriminate Hf|].
        unfold ret at 1.
        destruct (IH dbk Hk) as (db' & Hl & Ho & Hk' & Hrest).
        exists db'. split; [exact Hl|]. split; [|split; assumption].
        rewrite Ho. apply List.filter_ext. intros o.
        cbn [named_for_deletion existsb]. now rewrite E0. }
  destruct (Hloop deletions db0 eq_refl) as (db' & Hl & Ho & Hk & Hrest).
  exists db'. injection Hrest as Hm Hr Hkw Hc.
  split; [reflexivity|]. split; [exact Hl|].
  split.
  { rewrite Ho, Ho0. apply List.filter_ext. intros o. f_equal.
    apply named_for_deletion_same_keys. now rewrite He0. }
  split; [rewrite Hk; now rewrite He0|].
  split; [exact Hm|]. split; [congruence|]. split; congruence.
Qed.

(** ** Deleting entities *)

Lemma filter_idempotent {A : Type} (p : A -> bool) (l : list A) :
  List.filter p (List.filter p l) = List.filter p l.
Proof.
  rewrite filter_filter_andb. apply List.filter_ext. intros x.
  now destruct (p x).
Qed.

Lemma NoDup_map_eq {A B : Type} (f : A -> B) (l : list A) (x y : A) :
  List.NoDup (map f l) -> In x l -> In y l -> f x = f y -> x = y.
Proof.
  induction l as [|a l IH]; intros Hnd Hx Hy Hf; [destruct Hx|].
  simpl in Hnd. apply List.NoDup_cons_iff in Hnd as [Hna Hnd].
  destruct Hx as [<-|Hx], Hy as [<-|Hy]; [reflexivity| | |auto].
  - exfalso. apply Hna. rewrite Hf. apply in_map. exact Hy.
  - exfalso. apply Hna. rewrite <- Hf. apply in_map. exact Hx.
Qed.

(** The statements that [deleteEntities] issues for one entity. *)
Lemma delete_entity_statements (id : Z) (db : DB) :
  exists db',
    (delete_observations_of id ;;; delete_relations_of id ;;;
     delete_keywords_of id ;;; delete_cross_references_of id ;;;
     delete_entity_row id) db = (db', Ok tt)
    /\ entities db'
       = List.filter (fun e => negb (ent_id e =? id)) (entities db)
    /\ observations_table db'
       = List.filter (fun o => negb (obs_entity_id o =? id))
                     (observations_table db)
    /\ relations db'
       = List.filter (fun r => negb ((rel_from_entity_id r =? id)
                                     || (rel_to_entity_id r =? id)))
                     (relations db)
    /\ keywords db'
       = List.filter (fun k => negb (kw_entity_id k =? id)) (keywords db)
    /\ cross_references db'
       = List.filter (fun c => negb (cr_from_entity_id c =? id))
                     (cross_references db)
    /\ memory_branches db' = memory_branches db.
Proof.
  eexists. split; [reflexivity|].
  cbn [fst entities observations_table relations keywords cross_references
       memory_branches with_entities with_observations with_relations
       with_keywords with_cross_references].
  rewrite !filter_idempotent. repeat split.
Qed.

Lemma filter_all_true {A : Type} (f : A -> bool) (l : list A) :
  (forall x, f x = true) -> List.filter f l = l.
Proof.
  intros Hf. induction l as [|x l IH]; [reflexivity|]. simpl.
  now rewrite Hf, IH.
Qed.

Lemma named_entity_snoc (prefix : list jsstring) (n : jsstring)
    (branchId : Z) (x : EntityRow) :
  named_entity (prefix ++ [n]) branchId x
  = named_entity prefix branchId x
    || (jseqb (ent_name x) n && (ent_branch_id x =? branchId)).
Proof.
  unfold named_entity, name_in. rewrite existsb_app. cbn [existsb].
  rewrite orb_false_r.
  destruct (ent_branch_id x =? branchId), (existsb _ prefix),
    (jseqb (ent_name x) n); reflexivity.
Qed.

Lemma existsb_ext_in {A : Type} (f g : A -> bool) (l : list A) :
  (forall x, In x l -> f x = g x) -> existsb f l = existsb g l.
Proof.
  induction l as [|a l IH]; intros H; [reflexivity|]. simpl.
  rewrite (H a (or_introl eq_refl)), IH; [reflexivity|].
  intros x Hx. apply H. right. exact Hx.
Qed.

Lemma existsb_orb {A : Type} (f g : A -> bool) (l : list A) :
  existsb (fun x => f x || g x) l = existsb f l || existsb g l.
Proof.
  induction l as [|a l IH]; [reflexivity|]. simpl. rewrite IH.
  destruct (f a), (g a), (existsb f l), (existsb g l); reflexivity.
Qed.

Section DeleteEntitiesLoop.
Variables (now : Z) (branchId : Z) (db0 : DB).

Local Abbreviation test n :=
  (fun e : EntityRow => jseqb (ent_name e) n && (ent_branch_id e =? branchId)).

(** A name that finds no entity in what is left names no entity that
    the names before it have not named. *)
Lemma entities_deleted_skip (prefix : list jsstring) (n : jsstring) (dbk : DB) :
  entities_deleted prefix branchId db0 dbk ->
  find_entity n branchId dbk = None ->
  entities_deleted (prefix ++ [n]) branchId db0 dbk.
Proof.
  intros (He & Ho & Hr & Hk & Hc & Hm) Hnone.
  assert (Hsame : forall x, In x (entities db0) ->
                    named_entity (prefix ++ [n]) branchId x
                    = named_entity prefix branchId x).
  { intros x Hx. rewrite named_entity_snoc.
    destruct (named_entity prefix branchId x) eqn:Ep; [reflexivity|].
    cbn [orb]. unfold find_entity in Hnone. rewrite He in Hnone.
    apply (find_none _ _ Hnone x). apply filter_In.
    split; [exact Hx|now rewrite Ep]. }
  assert (Hid : forall i, named_entity_id (prefix ++ [n]) branchId db0 i
                          = named_entity_id prefix branchId db0 i).
  { intros i. unfold named_entity_id. apply existsb_ext_in.
    intros x Hx. now rewrite (Hsame x Hx). }
  unfold entities_deleted. cbv zeta.
  split; [rewrite He; apply filter_ext_in; intros x Hx;
          now rewrite (Hsame x Hx)|].
  split; [rewrite Ho; apply List.filter_ext; intros o; now rewrite Hid|].
  split; [rewrite Hr; apply List.filter_ext; intros r; now rewrite !Hid|].
  split; [rewrite Hk; apply List.filter_ext; intros k; now rewrite Hid|].
  split; [rewrite Hc; apply List.filter_ext; intros c; now rewrite Hid|].
  exact Hm.
Qed.

(** A name that finds an entity: with unique keys, the rows of this one
    entity are what the name adds. *)
Lemma entities_deleted_step (prefix : list jsstring) (n : jsstring)
    (dbk db' : DB) (e : EntityRow) :
  entity_keys_unique db0 ->
  entities_deleted prefix branchId db0 dbk ->
  find_entity n branchId dbk = Some e ->
  entities db'
  = List.filter (fun x => negb (ent_id x =? ent_id e)) (entities dbk) ->
  observations_table db'
  = List.filter (fun o => negb (obs_entity_id o =? ent_id e))
                (observations_table dbk) ->
  relations db'
  = List.filter (fun r => negb ((rel_from_entity_id r =? ent_id e)
                                || (rel_to_entity_id r =? ent_id e)))
                (relations dbk) ->
  keywords db'
  = List.filter (fun k => negb (kw_entity_id k =? ent_id e)) (keywords dbk) ->
  cross_references db'
  = List.filter (fun c => negb (cr_from_entity_id c =? ent_id e))
                (cross_references dbk) ->
  memory_branches db' = memory_branches dbk ->
  entities_deleted (prefix ++ [n]) branchId db0 db'.
Proof.
  intros [Hids Hnames] (He & Ho & Hr & Hk & Hc & Hm) Hfound
         He' Ho' Hr' Hk' Hc' Hm'.
  unfold find_entity in Hfound. rewrite He in Hfound.
  apply find_some in Hfound as [Hin Htest].
  apply filter_In in Hin as [Hin0 Hnot].
  assert (Hone : forall x, In x (entities db0) ->
                   test n x = (ent_id x =? ent_id e)).
  { intros x Hx. apply eq_true_iff_eq. split.
    - intros Ht. apply Z.eqb_eq. f_equal.
      apply (NoDup_map_eq (fun e => (ent_name e, ent_branch_id e))
               (entities db0) x e Hnames Hx Hin0).
      apply andb_true_iff in Ht as [Hn Hb], Htest as [Hn' Hb'].
      unfold jseqb in Hn, Hn'. apply bool_decide_eq_true in Hn, Hn'.
      apply Z.eqb_eq in Hb, Hb'. congruence.
    - intros Hi. apply Z.eqb_eq in Hi.
      rewrite (NoDup_map_eq ent_id (entities db0) x e Hids Hx Hin0 Hi).
      exact Htest. }
  assert (Hid : forall i, named_entity_id (prefix ++ [n]) branchId db0 i
                          = named_entity_id prefix branchId db0 i
                            || (i =? ent_id e)).
  { intros i. unfold named_entity_id.
    rewrite (existsb_ext_in _
               (fun x => named_entity prefix branchId x && (ent_id x =? i)
                         || test n x && (ent_id x =? i))).
    2:{ intros x _. rewrite named_entity_snoc.
        destruct (named_entity prefix branchId x), (test n x),
          (ent_id x =? i); reflexivity. }
    rewrite existsb_orb. f_equal.
    apply eq_true_iff_eq. rewrite existsb_exists. split.
    - intros (x & Hx & Ht). apply andb_true_iff in Ht as [Ht Hi].
      rewrite (Hone x Hx) in Ht. apply Z.eqb_eq in Ht, Hi.
      apply Z.eqb_eq. congruence.
    - intros Hi. apply Z.eqb_eq in Hi. exists e.
      split; [exact Hin0|]. rewrite Htest. subst i. apply Z.eqb_refl. }
  unfold entities_deleted. cbv zeta.
  split.
  { rewrite He', He, filter_filter_andb. apply filter_ext_in. intros x Hx.
    rewrite named_entity_snoc, negb_orb. f_equal. f_equal.
    symmetry. apply (Hone x Hx). }
  split.
  { rewrite Ho', Ho, filter_filter_andb. apply List.filter_ext. intros o.
    now rewrite Hid, negb_orb. }
  split.
  { rewrite Hr', Hr, filter_filter_andb. apply List.filter_ext. intros r.
    rewrite !Hid.
    destruct (named_entity_id prefix branchId db0 (rel_from_entity_id r)),
      (named_entity_id prefix branchId db0 (rel_to_entity_id r)),
      (rel_from_entity_id r =? ent_id e), (rel_to_entity_id r =? ent_id e);
      reflexivity. }
  split.
  { rewrite Hk', Hk, filter_filter_andb. apply List.filter_ext. intros k.
    now rewrite Hid, negb_orb. }
  split.
  { rewrite Hc', Hc, filter_filter_andb. apply List.filter_ext. intros c.
    now rewrite Hid, negb_orb. }
  congruence.
Qed.

Lemma deleteEntities_loop (rest prefix : list jsstring) (dbk : DB) :
  entity_keys_unique db0 ->
  entities_deleted prefix branchId db0 dbk ->
  exists db',
    for_fold rest tt
      (fun (_ : unit) entityName =>
         try_catch
           (entity <- query (find_entity entityName branchId) ;;
            match entity with
            | None => ret tt
            | Some entity =>
                delete_observations_of (ent_id entity) ;;;
                delete_relations_of (ent_id entity) ;;;
                delete_keywords_of (ent_id entity) ;;;
                delete_cross_references_of (ent_id entity) ;;;
                delete_entity_row (ent_id entity)
            end)
           (fun error => throw error)) dbk = (db', Ok tt)
    /\ entities_deleted (prefix ++ rest) branchId db0 db'.
Proof.
  intros Hu. revert prefix dbk.
  induction rest as [|n rest IH]; intros prefix dbk Hinv.
  - exists dbk. rewrite app_nil_r. split; [reflexivity|exact Hinv].
  - cbn [for_fold]. unfold bind at 1. unfold try_catch at 1.
    unfold bind at 1. unfold query at 1.
    replace (prefix ++ n :: rest) with ((prefix ++ [n]) ++ rest)
      by (rewrite <- app_assoc; reflexivity).
    destruct (find_entity n branchId dbk) as [e|] eqn:Ef.
    + destruct (delete_entity_statements (ent_id e) dbk)
        as (db1 & Hstep & He & Ho & Hr & Hk & Hc & Hm).
      rewrite Hstep. apply IH.
      apply (entities_deleted_step prefix n dbk db1 e Hu Hinv Ef
               He Ho Hr Hk Hc Hm).
    + unfold ret at 1. apply IH.
      apply entities_deleted_skip; assumption.
Qed.
End DeleteEntitiesLoop.

(** X11: [deleteEntities] on a store whose entity keys are unique never
    fails; it deletes the entities of the branch that the names name,
    with their observations, keywords and cross-references and with the
    relations that start or end at them, and it deletes nothing else. An
    empty list of names does nothing at all. *)
Theorem deleteEntities_deletes_named (now : Z) (entityNames : list jsstring)
    (branchName : option jsstring) (db : DB) :
  entityNames <> [] ->
  entity_keys_unique db ->
  exists db0 branchId db',
    getBranchId now branchName db = (db0, Ok branchId)
    /\ deleteEntities now entityNames branchName db = (db', Ok tt)
    /\ entities_deleted entityNames branchId db0 db'
    /\ (forall n, In n entityNames -> find_entity n branchId db' = None)
    /\ deleteEntities now [] branchName db = (db, Ok tt).
Proof.
  intros Hne Hu.
  destruct (getBranchId_tables now branchName db)
    as (db0 & br & Hg & _ & He0 & _).
  assert (Hu0 : entity_keys_unique db0).
  { unfold entity_keys_unique. rewrite He0. exact Hu. }
  exists db0, (br_id br).
  assert (Hinit : entities_deleted [] (br_id br) db0 db0).
  { assert (Hno : forall i, named_entity_id [] (br_id br) db0 i = false).
    { intros i. unfold named_entity_id, named_entity, name_in.
      cbn [existsb]. apply not_true_is_false. intros H.
      apply existsb_exists in H as (x & _ & Hx).
      rewrite andb_false_r in Hx. discriminate Hx. }
    unfold entities_deleted. cbv zeta.
    split.
    { symmetry. apply filter_all_true. intros x.
      unfold named_entity, name_in. cbn [existsb].
      now rewrite andb_false_r. }
    split; [symmetry; apply filter_all_true; intros x; now rewrite Hno|].
    split; [symmetry; apply filter_all_true; intros x; now rewrite !Hno|].
    split; [symmetry; apply filter_all_true; intros x; now rewrite Hno|].
    split; [symmetry; apply filter_all_true; intros x; now rewrite Hno|].
    reflexivity. }
  destruct (deleteEntities_loop (br_id br) db0 entityNames [] db0 Hu0 Hinit)
    as (db' & Hloop & Hdel).
  exists db'. split; [exact Hg|].
  split.
  { unfold deleteEntities. destruct entityNames as [|n ns]; [contradiction|].
    unfold bind at 1. rewrite Hg. exact Hloop. }
  split; [exact Hdel|]. split; [|reflexivity].
  intros n Hn. destruct Hdel as (He & _).
  unfold find_entity. rewrite He.
  destruct (find _ (List.filter _ (entities db0))) as [x|] eqn:Ex;
    [|reflexivity].
  exfalso. apply find_some in Ex as [Hin Ht].
  apply filter_In in Hin as [_ Hnot].
  apply andb_true_iff in Ht as [Hname Hb].
  unfold named_entity in Hnot. rewrite Hb in Hnot. cbn [andb] in Hnot.
  apply negb_true_iff in Hnot.
  unfold name_in in Hnot.
  assert (Hex : existsb (jseqb (ent_name x)) entityNames = true).
  { apply existsb_exists. exists n. split; [exact Hn|].
    unfold jseqb in *. apply bool_decide_eq_true in Hname.
    apply bool_decide_eq_true. exact Hname. }
  cbn [app] in Hnot. congruence.
Qed.

Lemma db_alpha_uses_beta_unique : entity_keys_unique db_alpha_uses_beta.
Proof.
  split; vm_compute;
    repeat (constructor; [intros H; repeat destruct H as [H|H];
                          try discriminate H; try exact H|]);
    constructor.
Qed.

(** The entity ["alpha"] of the store with the relation from ["alpha"] to
    ["beta"]. *)
Lemma deleteEntities_deletes_named_witness :
  [js "alpha"] <> [] /\ entity_keys_unique db_alpha_uses_beta
  /\ exists db',
       deleteEntities 5 [js "alpha"] None db_alpha_uses_beta = (db', Ok tt)
       /\ entities_deleted [js "alpha"] 1 db_alpha_uses_beta db'
       /\ find_entity (js "alpha") 1 db' = None.
Proof.
  assert (Hne : [js "alpha"] <> []) by discriminate.
  split; [exact Hne|]. split; [exact db_alpha_uses_beta_unique|].
  destruct (deleteEntities_deletes_named 5 [js "alpha"] None
              db_alpha_uses_beta Hne db_alpha_uses_beta_unique)
    as (db0 & branchId & db' & Hg & Hd & Hdel & Hnone & _).
  assert (Hg' : getBranchId 5 None db_alpha_uses_beta
                = (db_alpha_uses_beta, Ok 1)) by reflexivity.
  rewrite Hg' in Hg. injection Hg as <- <-.
  exists db'. split; [exact Hd|]. split; [exact Hdel|].
  apply Hnone. left. reflexivity.
Defined.

(** ** Cross-references *)

Lemma createCrossReference_loop (now : Z) (sourceId targetBranchId : Z)
    (targets : list jsstring) (db : DB) :
  is_some (find_entity_by_id sourceId db) = true ->
  is_some (find_branch_by_id targetBranchId db) = true ->
  exists db' rows,
    for_fold targets tt
      (fun (_ : unit) targetEntityName =>
         try_catch
           (targetEntity <-
              query (find_entity targetEntityName targetBranchId) ;;
            match targetEntity with
            | None => ret tt
            | Some _ =>
                insert_or_ignore_cross_reference now sourceId targetBranchId
                  targetEntityName
            end)
           (fun _ => ret tt)) db = (db', Ok tt)
    /\ cross_references db' = cross_references db ++ rows
    /\ map cross_reference_key rows
       = map (fun t => (sourceId, targetBranchId, t))
             (List.filter
                (fun t => is_some (find_entity t targetBranchId db)) targets)
    /\ entities db' = entities db
    /\ memory_branches db' = memory_branches db
    /\ (observations_table db', relations db', keywords db')
       = (observations_table db, relations db, keywords db).
Proof.
  revert db. induction targets as [|t ts IH]; intros db Hs Hb.
  - exists db, []. rewrite app_nil_r. repeat split.
  - cbn [for_fold List.filter]. unfold bind at 1. unfold try_catch at 1.
    unfold bind at 1. unfold query at 1.
    destruct (find_entity t targetBranchId db) as [e|] eqn:Et; cbn [is_some].
    + unfold insert_or_ignore_cross_reference at 1. rewrite Hs, Hb.
      cbn [negb orb].
      set (db1 := with_cross_references db _ _).
      destruct (IH db1 Hs Hb) as (db' & rows & Hl & Hc & Hk & He & Hm & Hrest).
      exists db'. eexists. split; [exact Hl|].
      rewrite Hc. subst db1. cbn [cross_references with_cross_references].
      rewrite <- app_assoc. split; [reflexivity|].
      split; [cbn [app map cross_reference_key cr_from_entity_id
                       cr_target_branch_id cr_target_entity_name];
              f_equal; exact Hk|].
      split; [exact He|]. split; [exact Hm|exact Hrest].
    + unfold ret at 1.
      destruct (IH db Hs Hb) as (db' & rows & Hl & Hc & Hk & He & Hm & Hrest).
      exists db', rows. repeat split; assumption.
Qed.

(** X12: [createCrossReference] fails when the source entity is not in
    the source branch; otherwise it appends one cross-reference for every
    target name that is an entity of the target branch, in order, whether
    or not such a reference is stored already: the table has no UNIQUE
    key, and its INSERT OR IGNORE ignores nothing. *)
Theorem createCrossReference_appends (now : Z)
    (entityName targetBranch : jsstring) (targetEntityNames : list jsstring)
    (sourceBranch : option jsstring) (db : DB) :
  exists db1 sourceBranchId db2 targetBranchId,
    getBranchId now sourceBranch db = (db1, Ok sourceBranchId)
    /\ getBranchId now (Some targetBranch) db1 = (db2, Ok targetBranchId)
    /\ match find_entity entityName sourceBranchId db2 with
       | None =>
           createCrossReference now entityName targetBranch
             targetEntityNames sourceBranch db
           = (db2, Err (EntityNotFound entityName
                          (branch_or_main sourceBranch)))
       | Some source =>
           exists db' rows,
             createCrossReference now entityName targetBranch
               targetEntityNames sourceBranch db = (db', Ok tt)
             /\ cross_references db' = cross_references db ++ rows
             /\ map cross_reference_key rows
                = map (fun t => (ent_id source, targetBranchId, t))
                      (List.filter
                         (fun t => is_some (find_entity t targetBranchId db))
                         targetEntityNames)
       end.
Proof.
  destruct (getBranchId_tables now sourceBranch db)
    as (db1 & br1 & Hg1 & _ & He1 & _ & _ & _ & Hc1 & _).
  destruct (getBranchId_tables now (Some targetBranch) db1)
    as (db2 & br2 & Hg2 & Hf2 & He2 & _ & _ & _ & Hc2 & _).
  exists db1, (br_id br1), db2, (br_id br2).
  split; [exact Hg1|]. split; [exact Hg2|].
  assert (Hrun : createCrossReference now entityName targetBranch
                   targetEntityNames sourceBranch db
                 = match find_entity entityName (br_id br1) db2 with
                   | None => (db2, Err (EntityNotFound entityName
                                          (branch_or_main sourceBranch)))
                   | Some sourceEntity =>
                       for_fold targetEntityNames tt
                         (fun (_ : unit) targetEntityName =>
                            try_catch
                              (targetEntity <-
                                 query (find_entity targetEntityName
                                                    (br_id br2)) ;;
                               match targetEntity with
                               | None => ret tt
                               | Some _ =>
                                   insert_or_ignore_cross_reference now
                                     (ent_id sourceEntity) (br_id br2)
                                     targetEntityName
                               end)
                              (fun _ => ret tt)) db2
                   end).
  { unfold createCrossReference. unfold bind at 1. rewrite Hg1.
    unfold bind at 1. rewrite Hg2. unfold bind at 1. unfold query at 1.
    destruct (find_entity entityName (br_id br1) db2); reflexivity. }
  rewrite Hrun.
  destruct (find_entity entityName (br_id br1) db2) as [source|] eqn:Es;
    [|reflexivity].
  destruct (createCrossReference_loop now (ent_id source) (br_id br2)
              targetEntityNames db2 (find_entity_id _ _ _ _ Es)
              (find_branch_by_name_id _ _ _ Hf2))
    as (db' & rows & Hl & Hc & Hk & _).
  exists db', rows. split; [exact Hl|].
  split; [rewrite Hc; congruence|].
  rewrite Hk. f_equal. apply List.filter_ext. intros t.
  unfold find_entity. now rewrite He2, He1.
Qed.

(** ** Branches: creation *)

(** X13: a branch that [createBranch] has created cannot be created a
    second time (the store is left as it is), resolves to its id without
    another insertion, and is deleted again by [deleteBranch], which
    leaves the table of branches as it was before the creation. *)
Theorem createBranch_round_trip (now now' : Z) (branchName : jsstring)
    (purpose : option jsstring) (db : DB) :
  branchName <> [] -> branchName <> js "main" ->
  find_branch_by_name branchName db = None ->
  branch_keys_hold db = true ->
  exists db1 info id,
    createBranch now branchName purpose db = (db1, Ok info)
    /\ info_name info = branchName
    /\ (forall p, createBranch now' branchName p db1
                  = (db1, Err ConstraintFailed))
    /\ getBranchId now' (Some branchName) db1 = (db1, Ok id)
    /\ exists db2,
         deleteBranch now' branchName db1 = (db2, Ok tt)
         /\ memory_branches db2 = memory_branches db.
Proof.
  intros Hne Hmain Hnone Hfk.
  set (id := next_rowid (seq_memory_branches db)
                        (map br_id (memory_branches db))).
  set (p := match purpose with
            | Some p => if truthy p then p else js "Custom branch: " ++ branchName
            | None => js "Custom branch: " ++ branchName
            end).
  set (row := {| br_id := id; br_name := branchName; br_purpose := p;
                 br_created_at := now; br_updated_at := now |}).
  set (db1 := with_memory_branches db (memory_branches db ++ [row]) id).
  assert (Hcreate : createBranch now branchName purpose db
                    = (db1, Ok {| info_name := branchName; info_purpose := p;
                                  entityCount := 0; relationCount := 0;
                                  info_lastUpdated := now |})).
  { unfold createBranch, bind, insert_branch. fold p. rewrite Hnone.
    reflexivity. }
  assert (Hfound : find_branch_by_name branchName db1 = Some row).
  { unfold find_branch_by_name in *. subst db1.
    cbn [memory_branches with_memory_branches]. rewrite find_snoc, Hnone.
    cbn [br_name row]. now rewrite jseqb_refl. }
  exists db1. eexists. exists id. split; [exact Hcreate|].
  split; [reflexivity|].
  split.
  { intros p'. unfold createBranch, bind, insert_branch. now rewrite Hfound. }
  pose proof (getBranchId_existing now' (Some branchName) db1 row) as Hg.
  rewrite (branch_or_main_given branchName Hne) in Hg. specialize (Hg Hfound).
  split; [exact Hg|].
  unfold deleteBranch.
  destruct (jseqb branchName (js "main")) eqn:Em;
    [apply jseqb_eq in Em; contradiction|].
  unfold bind. rewrite Hg. cbn [row br_id]. unfold delete_branch_row.
  assert (Hfree : existsb (fun e => ent_branch_id e =? id) (entities db1)
                  || existsb (fun r => rel_branch_id r =? id) (relations db1)
                  || existsb (fun c => cr_target_branch_id c =? id)
                             (cross_references db1) = false).
  { apply (fresh_branch_unreferenced db id Hfk).
    intros x Hx. apply next_rowid_fresh. exact Hx. }
  rewrite Hfree. eexists. split; [reflexivity|].
  subst db1. cbn [memory_branches with_memory_branches].
  rewrite filter_app.
  rewrite (filter_cons_False _ row)
    by (cbn [row br_id]; rewrite Z.eqb_refl; discriminate).
  rewrite filter_nil, app_nil_r.
  apply (filter_all (fun x => negb (br_id x =? id))).
  intros x Hx. apply negb_true_iff. apply Z.eqb_neq.
  pose proof (next_rowid_fresh (seq_memory_branches db) _ _
                (in_map br_id _ _ Hx)) as Hlt.
  fold id in Hlt. lia.
Qed.

(** The branch ["docs"] on a fresh store. *)
Lemma createBranch_round_trip_witness :
  exists db1 info,
    createBranch 1 (js "docs") None (initial_db 0) = (db1, Ok info)
    /\ createBranch 2 (js "docs") None db1 = (db1, Err ConstraintFailed)
    /\ exists db2,
         deleteBranch 2 (js "docs") db1 = (db2, Ok tt)
         /\ memory_branches db2 = memory_branches (initial_db 0).
Proof.
  assert (H1 : js "docs" <> []) by (vm_compute; discriminate).
  assert (H2 : js "docs" <> js "main") by (vm_compute; discriminate).
  destruct (createBranch_round_trip 1 2 (js "docs") None (initial_db 0)
              H1 H2 eq_refl eq_refl)
    as (db1 & info & id & Hc & _ & Htwice & _ & db2 & Hd & Hm).
  exists db1, info. split; [exact Hc|]. split; [apply Htwice|].
  exists db2. split; assumption.
Defined.

(** ** Deleting relations *)

Lemma deleteRelations_loop {driver : Driver} (branchId : Z)
    (rels : list Relation) (db0 dbk : DB) :
  entities dbk = entities db0 ->
  exists db',
    for_fold rels tt (deleteRelations_body branchId) dbk = (db', Ok tt)
    /\ relations db'
       = (if all_executes_writes
          then List.filter (fun r => negb (named_relation rels branchId db0 r))
                           (relations dbk)
          else relations dbk)
    /\ entities db' = entities db0
    /\ (memory_branches db', observations_table db', keywords db',
        cross_references db')
       = (memory_branches dbk, observations_table dbk, keywords dbk,
          cross_references dbk).
Proof.
  revert dbk. induction rels as [|rel rels IH]; intros dbk He.
  - exists dbk. split; [reflexivity|]. split; [|split; [exact He|reflexivity]].
    destruct all_executes_writes; [|reflexivity].
    symmetry. apply filter_all_true. reflexivity.
  - cbn [for_fold]. unfold bind at 1.
    assert (Hfind : forall n, find_entity n branchId dbk
                              = find_entity n branchId db0)
      by (intros n; unfold find_entity; now rewrite He).
    assert (Hskip : forall (cond : RelationRow -> bool),
               (forall r, cond r = false) ->
               exists db',
                 for_fold rels tt (deleteRelations_body branchId) dbk
                 = (db', Ok tt)
                 /\ relations db'
                    = (if all_executes_writes
                       then List.filter
                              (fun r => negb (cond r
                                              || named_relation rels branchId
                                                   db0 r))
                              (relations dbk)
                       else relations dbk)
                 /\ entities db' = entities db0
                 /\ (memory_branches db', observations_table db',
                     keywords db', cross_references db')
                    = (memory_branches dbk, observations_table dbk,
                       keywords dbk, cross_references dbk)).
    { intros cond Hcond. destruct (IH dbk He) as (db' & Hl & Hr & He' & Hrest).
      exists db'. split; [exact Hl|]. split; [|split; assumption].
      rewrite Hr. destruct all_executes_writes; [|reflexivity].
      apply List.filter_ext. intros r. now rewrite Hcond. }
    unfold deleteRelations_body at 1. cbn [named_relation existsb].
    destruct (truthy (from rel)) eqn:T1; cbn [negb orb andb];
      [|unfold ret at 1; apply (Hskip (fun _ => false)); reflexivity].
    destruct (truthy (to rel)) eqn:T2; cbn [negb orb andb];
      [|unfold ret at 1; apply (Hskip (fun _ => false)); reflexivity].
    destruct (truthy (relationType rel)) eqn:T3; cbn [negb orb andb];
      [|unfold ret at 1; apply (Hskip (fun _ => false)); reflexivity].
    unfold try_catch at 1. unfold bind at 1. unfold query at 1.
    unfold bind at 1. unfold query at 1. rewrite !Hfind.
    destruct (find_entity (from rel) branchId db0) as [f|];
      [|unfold ret at 1; apply (Hskip (fun _ => false)); reflexivity].
    destruct (find_entity (to rel) branchId db0) as [t|];
      [|unfold ret at 1; apply (Hskip (fun _ => false)); reflexivity].
    unfold runQuery_write.
    destruct all_executes_writes eqn:Ex.
    + unfold delete_relation at 1.
      set (db1 := with_relations dbk _ _).
      destruct (IH db1 He) as (db' & Hl & Hr & He' & Hrest).
      exists db'. split; [exact Hl|]. split; [|split; [exact He'|exact Hrest]].
      rewrite Hr. subst db1. cbn [relations with_relations].
      rewrite filter_filter_andb. apply List.filter_ext. intros r.
      now rewrite negb_orb.
    + unfold throw at 1.
      destruct (IH dbk He) as (db' & Hl & Hr & He' & Hrest).
      exists db'. split; [exact Hl|]. split; [|split; assumption].
      exact Hr.
Qed.

(** X14: [deleteRelations] never fails. When the driver executes the
    DELETE that the code issues through [runQuery], the relation rows that
    go are exactly the rows of the branch between two entities of the
    branch that a relation of the list names, with its type; when the
    driver refuses the statement, no relation is deleted. The entities are
    untouched in both cases. *)
Theorem deleteRelations_removes_named {driver : Driver} (now : Z)
    (relationsToDelete : list Relation) (branchName : option jsstring)
    (db : DB) :
  exists db0 branchId db',
    getBranchId now branchName db = (db0, Ok branchId)
    /\ deleteRelations now relationsToDelete branchName db = (db', Ok tt)
    /\ relations db'
       = (if all_executes_writes
          then List.filter
                 (fun r => negb (named_relation relationsToDelete branchId
                                   db r))
                 (relations db)
          else relations db)
    /\ entities db' = entities db
    /\ observations_table db' = observations_table db.
Proof.
  destruct (getBranchId_tables now branchName db)
    as (db0 & br & Hg & _ & He0 & Ho0 & Hr0 & _).
  exists db0, (br_id br).
  destruct relationsToDelete as [|rel rels].
  - exists db. split; [exact Hg|]. split; [reflexivity|].
    split; [|split; reflexivity].
    destruct all_executes_writes; [|reflexivity].
    symmetry. apply filter_all_true. reflexivity.
  - destruct (deleteRelations_loop (br_id br) (rel :: rels) db0 db0
                eq_refl) as (db' & Hl & Hr & He & Hrest).
    exists db'. split; [exact Hg|].
    split; [unfold deleteRelations, bind at 1; rewrite Hg; exact Hl|].
    injection Hrest as _ Ho _ _.
    split; [|split; congruence].
    rewrite Hr, Hr0. destruct all_executes_writes; [|reflexivity].
    apply List.filter_ext. intros r. f_equal.
    unfold named_relation. apply existsb_ext_in. intros x _.
    unfold find_entity. now rewrite He0.
Qed.

(** ** Updating an entity *)

(** The loop that stores the observations of an entity, of [updateEntity]
    and of [createSingleEntity]: one row for every observation, in order,
    numbered from [i] on. *)
Lemma insert_observations_loop (now entityId : Z) (obs : list jsstring)
    (i : Z) (db : DB) :
  is_some (find_entity_by_id entityId db) = true ->
  exists db',
    for_fold (indexed_from i obs) tt
      (fun (_ : unit) '(i, o) => insert_observation now entityId o o i) db
    = (db', Ok tt)
    /\ map observation_key (observations_table db')
       = map observation_key (observations_table db)
         ++ map (fun '(i, o) => (entityId, o, o, i)) (indexed_from i obs)
    /\ entities db' = entities db
    /\ (memory_branches db', relations db', keywords db', cross_references db')
       = (memory_branches db, relations db, keywords db, cross_references db).
Proof.
  revert i db. induction obs as [|o obs IH]; intros i db Hid.
  - exists db. cbn [indexed_from map]. rewrite app_nil_r. repeat split.
  - cbn [indexed_from for_fold]. unfold bind at 1.
    unfold insert_observation at 1. rewrite Hid. cbn [negb].
    set (db1 := with_observations db _ _).
    destruct (IH (i + 1) db1 Hid) as (db' & Hl & Ho & He & Hrest).
    exists db'. split; [exact Hl|]. split; [|split; [exact He|exact Hrest]].
    rewrite Ho. subst db1. cbn [observations_table with_observations].
    rewrite map_app, <- app_assoc. reflexivity.
Qed.

Lemma insert_branch_same_entities_and_observations (now : Z)
    (n purpose : jsstring) (db : DB) :
  preserves (same_entities_and_observations db) (insert_branch now n purpose).
Proof.
  intros d H. unfold insert_branch.
  destruct (is_some (find_branch_by_name n d)); exact H.
Qed.

Lemma insert_or_ignore_cross_reference_same_entities_and_observations
    (now a b : Z) (target : jsstring) (db : DB) :
  preserves (same_entities_and_observations db)
            (insert_or_ignore_cross_reference now a b target).
Proof.
  intros d H. unfold insert_or_ignore_cross_reference.
  destruct (_ || _); exact H.
Qed.

Lemma createCrossReference_same_entities_and_observations (now : Z)
    (entity targetBranch : jsstring) (targets : list jsstring)
    (sourceBranch : option jsstring) (db : DB) :
  preserves (same_entities_and_observations db)
    (createCrossReference now entity targetBranch targets sourceBranch).
Proof.
  pose proof insert_branch_same_entities_and_observations.
  pose proof insert_or_ignore_cross_reference_same_entities_and_observations.
  unfold createCrossReference, getBranchId. store_auto.
Qed.

(** The cross-references of [updateEntity] and [createSingleEntity]: the
    loop never fails, whatever happens to one cross-reference, and leaves
    the entities and the observations as they are. *)
Lemma crossRefs_loop (now : Z) (n : jsstring) (branchName : jsstring)
    (refs : list CrossReference) (db : DB) :
  exists db',
    for_fold refs tt
      (fun (_ : unit) crossRef =>
         try_catch
           (createCrossReference now n (memoryBranch crossRef)
              (entityNames crossRef) (Some branchName))
           (fun _ => ret tt)) db = (db', Ok tt)
    /\ same_entities_and_observations db db'.
Proof.
  set (m := for_fold refs tt _).
  assert (Hs : succeeds m) by (subst m; store_auto).
  assert (Hp : preserves (same_entities_and_observations db) m).
  { subst m.
    pose proof createCrossReference_same_entities_and_observations.
    store_auto. }
  specialize (Hs db) as [[] Hs]. specialize (Hp db (conj eq_refl eq_refl)).
  destruct (m db) as [db' r]. cbn [fst snd] in *. subst r.
  exists db'. split; [reflexivity|exact Hp].
Qed.

Lemma update_entity_row_keys (now id : Z) (type : jsstring)
    (st : EntityStatus) (reason : option jsstring) (db : DB) :
  map entity_key (entities (fst (update_entity_row now id type st reason db)))
  = map entity_key (entities db).
Proof.
  unfold update_entity_row. cbn [fst entities with_entities].
  rewrite map_map. apply map_ext. intros e.
  destruct (ent_id e =? id); reflexivity.
Qed.

Lemma find_by_id_same_keys (id : Z) (l l' : list EntityRow) :
  map entity_key l' = map entity_key l ->
  is_some (find (fun e => ent_id e =? id) l')
  = is_some (find (fun e => ent_id e =? id) l).
Proof.
  revert l'. induction l as [|e l IH]; intros [|e' l'] H; simpl in H;
    try discriminate H; [reflexivity|].
  injection H as Hid Hn Hb Hrest. simpl. rewrite Hid.
  destruct (ent_id e =? id); [reflexivity|apply IH; exact Hrest].
Qed.

(** The row that a lookup by name finds after the UPDATE of
    [updateEntity] is the updated row. *)
Lemma find_entity_updated (now : Z) (n type : jsstring) (branchId : Z)
    (st : EntityStatus) (reason : option jsstring) (db : DB) (e : EntityRow) :
  find_entity n branchId db = Some e ->
  exists e',
    find_entity n branchId
      (fst (update_entity_row now (ent_id e) type st reason db)) = Some e'
    /\ entity_key e' = entity_key e
    /\ ent_entity_type e' = type
    /\ ent_status e' = st
    /\ ent_status_reason e' = reason
    /\ ent_updated_at e' = now.
Proof.
  unfold find_entity, update_entity_row. cbn [fst entities with_entities].
  induction (entities db) as [|x l IH]; [discriminate|].
  cbn [find map]. intros Hf.
  destruct (jseqb (ent_name x) n && (ent_branch_id x =? branchId)) eqn:Ex.
  - injection Hf as ->. rewrite Z.eqb_refl. cbn [ent_name ent_branch_id].
    rewrite Ex. eexists. split; [reflexivity|]. repeat split.
  - destruct (ent_id x =? ent_id e); cbn [ent_name ent_branch_id];
      rewrite Ex; apply IH; exact Hf.
Qed.

(** X15: [updateEntity] fails, and changes nothing, when the branch has
    no entity of that name. Otherwise it succeeds: the entity keeps its
    row, which takes the given type, status (active when none is given)
    and reason; its observations are replaced by the given ones, all of
    them, blank or not, numbered from 0 in the order given; the
    observations of the other entities and the names and branches of all
    the entities are as before. *)
Theorem updateEntity_replaces_observations (now : Z) (entity : Entity)
    (branchName : option jsstring) (db : DB) :
  exists db0 branchId,
    getBranchId now branchName db = (db0, Ok branchId)
    /\ match find_entity (name entity) branchId db with
       | None =>
           updateEntity now entity branchName db
           = (db0, Err (EntityNotFound (name entity)
                          (branch_or_main branchName)))
       | Some e =>
           exists db' updated e',
             updateEntity now entity branchName db = (db', Ok updated)
             /\ name updated = name entity
             /\ observations updated = observations entity
             /\ find_entity (name entity) branchId db' = Some e'
             /\ entity_key e' = entity_key e
             /\ ent_entity_type e' = entityType entity
             /\ ent_status e'
                = match status entity with Some s => s | None => active end
             /\ map entity_key (entities db') = map entity_key (entities db)
             /\ map observation_key (observations_table db')
                = map observation_key
                    (List.filter
                       (fun o => negb (obs_entity_id o =? ent_id e))
                       (observations_table db))
                  ++ map (fun '(i, o) => (ent_id e, o, o, i))
                         (indexed_from 0 (observations entity))
       end.
Proof.
  destruct (getBranchId_tables now branchName db)
    as (db0 & br & Hg & Hbr & He0 & Ho0 & _ & _ & _ & _).
  exists db0, (br_id br). split; [exact Hg|].
  assert (Hfind : find_entity (name entity) (br_id br) db0
                  = find_entity (name entity) (br_id br) db)
    by (unfold find_entity; now rewrite He0).
  destruct (find_entity (name entity) (br_id br) db) as [e|] eqn:Ee;
    unfold updateEntity; unfold bind at 1; rewrite Hg;
    unfold bind at 1; unfold query at 1; rewrite Hfind;
    [|reflexivity].
  set (st := match status entity with Some s => s | None => active end).
  set (reason := match statusReason entity with
                 | Some r => if truthy r then Some r else None
                 | None => None
                 end).
  clear Ee. rename Hfind into Ee.
  destruct (find_entity_updated now (name entity) (entityType entity)
              (br_id br) st reason db0 e Ee)
    as (e' & Hf' & Hk' & Ht' & Hs' & _ & _).
  pose proof (update_entity_row_keys now (ent_id e) (entityType entity) st
                reason db0) as Hkeys.
  unfold bind at 1.
  destruct (update_entity_row now (ent_id e) (entityType entity) st reason db0)
    as [db1 r1] eqn:E1.
  assert (Hr1 : r1 = Ok tt /\ observations_table db1 = observations_table db0
                /\ memory_branches db1 = memory_branches db0).
  { unfold update_entity_row in E1. injection E1 as <- <-. repeat split. }
  destruct Hr1 as (-> & Ho1 & Hm1). cbn [fst] in Hf', Hkeys.
  unfold bind at 1. unfold delete_observations_of at 1.
  set (db2 := with_observations db1 _ _).
  assert (Hid2 : is_some (find_entity_by_id (ent_id e) db2) = true).
  { unfold find_entity_by_id. subst db2. cbn [entities with_observations].
    rewrite (find_by_id_same_keys _ _ _ Hkeys).
    exact (find_entity_id _ _ _ _ Ee). }
  destruct (insert_observations_loop now (ent_id e) (observations entity) 0
              db2 Hid2) as (db3 & Hl3 & Ho3 & He3 & Hrest3).
  unfold bind at 1. rewrite Hl3.
  unfold bind at 1. unfold delete_cross_references_of at 1.
  set (db4 := with_cross_references db3 _ _).
  assert (Hcross : exists db5,
             (match crossRefs entity with
              | [] => ret tt
              | _ :: _ =>
                  branchName0 <- getBranchName (br_id br) ;;
                  for_fold (crossRefs entity) tt
                    (fun (_ : unit) crossRef =>
                       try_catch
                         (createCrossReference now (name entity)
                            (memoryBranch crossRef) (entityNames crossRef)
                            (Some branchName0))
                         (fun _ => ret tt))
              end) db4 = (db5, Ok tt)
             /\ same_entities_and_observations db4 db5).
  { destruct (crossRefs entity) as [|c cs] eqn:Ec.
    - exists db4. split; [reflexivity|split; reflexivity].
    - unfold bind at 1. unfold getBranchName. unfold bind at 1.
      unfold query at 1.
      assert (Hb4 : is_some (find_branch_by_id (br_id br) db4) = true).
      { injection Hrest3 as Hm3 _ _ _.
        unfold find_branch_by_id. subst db4 db2.
        cbn [memory_branches with_cross_references]. rewrite Hm3.
        cbn [memory_branches with_observations]. rewrite Hm1.
        exact (find_branch_by_name_id _ _ _ Hbr). }
      destruct (find_branch_by_id (br_id br) db4) as [b|]; [|discriminate Hb4].
      unfold ret at 1. apply crossRefs_loop. }
  destruct Hcross as (db5 & Hl5 & He5 & Ho5).
  unfold bind at 1.
  match goal with
  | |- context [match ?m db4 with _ => _ end] =>
      replace (m db4) with (db5, Ok tt)
  end.
  2:{ symmetry. destruct (crossRefs entity); exact Hl5. }
  unfold bind at 1. unfold query at 1. unfold ret at 1.
  eexists. eexists. exists e'. split; [reflexivity|].
  cbn [name observations].
  assert (Hent5 : entities db5 = entities db1).
  { rewrite He5. subst db4. cbn [entities with_cross_references].
    rewrite He3. reflexivity. }
  split; [reflexivity|]. split; [reflexivity|].
  split; [unfold find_entity in *; rewrite Hent5; exact Hf'|].
  split; [exact Hk'|]. split; [exact Ht'|]. split; [exact Hs'|].
  split; [rewrite Hent5, Hkeys, He0; reflexivity|].
  rewrite Ho5. subst db4. cbn [observations_table with_cross_references].
  rewrite Ho3. subst db2. cbn [observations_table with_observations].
  rewrite Ho1, Ho0. reflexivity.
Qed.

(** ** Looking an entity up by its name *)

Lemma split_char_from_length (sep : N) (cur s : jsstring) :
  length (split_char_from sep cur s) = S (count_occ N.eq_dec s sep).
Proof.
  revert cur. induction s as [|c s IH]; intros cur; [reflexivity|].
  cbn [split_char_from count_occ].
  destruct (N.eqb_spec c sep) as [->|Hne].
  - destruct (N.eq_dec sep sep) as [_|Hn]; [|now destruct Hn].
    cbn [length]. now rewrite IH.
  - destruct (N.eq_dec c sep) as [He|_]; [now destruct Hne|]. apply IH.
Qed.

Lemma split_char_from_app (sep : N) (cur p s : jsstring) :
  ~ In sep p ->
  split_char_from sep cur (p ++ s) = split_char_from sep (rev p ++ cur) s.
Proof.
  revert cur. induction p as [|c p IH]; intros cur Hp; [reflexivity|].
  cbn [app split_char_from].
  destruct (N.eqb_spec c sep) as [->|Hne]; [destruct Hp; now left|].
  rewrite IH by (intros H; apply Hp; now right).
  cbn [rev]. now rewrite <- app_assoc.
Qed.

Lemma split_char_from_join (sep : N) (l : list jsstring) :
  l <> [] -> List.Forall (fun c => ~ In sep c) l ->
  split_char_from sep [] (join [sep] l) = l.
Proof.
  induction l as [|p l IH]; intros Hne Hall; [now destruct Hne|].
  inversion Hall as [|? ? Hp Hl]; subst.
  destruct l as [|q l].
  - cbn [join]. rewrite <- (app_nil_r p) at 1.
    rewrite split_char_from_app by exact Hp.
    cbn [split_char_from]. now rewrite app_nil_r, rev_involutive.
  - change (join [sep] (p :: q :: l))
      with (p ++ [sep] ++ join [sep] (q :: l)).
    rewrite split_char_from_app by exact Hp.
    cbn [app split_char_from]. rewrite N.eqb_refl.
    rewrite app_nil_r, rev_involutive. f_equal.
    apply IH; [discriminate|exact Hl].
Qed.

Lemma count_occ_join (sep : N) (l : list jsstring) :
  l <> [] ->
  S (count_occ N.eq_dec (join [sep] l) sep)
  = (length l + count_occ N.eq_dec (concat l) sep)%nat.
Proof.
  induction l as [|p l IH]; intros Hne; [now destruct Hne|].
  destruct l as [|q l].
  - cbn [join concat length]. now rewrite app_nil_r.
  - change (join [sep] (p :: q :: l))
      with (p ++ [sep] ++ join [sep] (q :: l)).
    change (concat (p :: q :: l)) with (p ++ concat (q :: l)).
    rewrite !count_occ_app. cbn [count_occ].
    destruct (N.eq_dec sep sep) as [_|Hn]; [|now destruct Hn].
    specialize (IH ltac:(discriminate)). cbn [length] in *. lia.
Qed.

Lemma join_empty (sep : N) (l : list jsstring) :
  join [sep] l = [] -> l = [] \/ l = [[]].
Proof.
  destruct l as [|p [|q l]]; [now left| |].
  - cbn [join]. intros ->. now right.
  - change (join [sep] (p :: q :: l))
      with (p ++ [sep] ++ join [sep] (q :: l)).
    intros H. apply app_eq_nil in H as [_ H]. discriminate H.
Qed.

Lemma filter_find_head {A : Type} (f : A -> bool) (l : list A) :
  match find f l with
  | Some x => exists r, List.filter f l = x :: r
  | None => List.filter f l = []
  end.
Proof.
  induction l as [|x l IH]; [reflexivity|]. cbn [find List.filter].
  destruct (f x); [eexists; reflexivity|exact IH].
Qed.

(** X16: [findEntityByName] in a named branch answers [null] when the
    branch has no entity of that name. Otherwise it answers the entity
    with its stored type and status and with its observations cut at
    every [|]: it has one observation more than are stored for every [|]
    in a stored observation, and it has exactly the stored observations, in
    their order, when none of them contains a [|] (a single empty
    observation apart). The lookup writes nothing but the branch that
    resolving the name may create. *)
Theorem findEntityByName_observations (now : Z) (n b : jsstring)
    (db db0 : DB) (branchId : Z) :
  truthy b = true ->
  getBranchId now (Some b) db = (db0, Ok branchId) ->
  branchId <> 0 ->
  match find_entity n branchId db with
  | None => findEntityByName now n (Some b) db = (db0, Ok None)
  | Some e =>
      let stored := map obs_content (observations_of e db) in
      exists found,
        findEntityByName now n (Some b) db = (db0, Ok (Some found))
        /\ name found = n
        /\ entityType found = ent_entity_type e
        /\ status found = Some (ent_status e)
        /\ (stored <> [[]] ->
            length (observations found)
            = (length stored + count_occ N.eq_dec (concat stored) PIPE)%nat)
        /\ (stored <> [[]] -> List.Forall (fun c => ~ In PIPE c) stored ->
            observations found = stored)
  end.
Proof.
  intros Hb Hg Hid.
  destruct (getBranchId_tables now (Some b) db)
    as (db0' & br & Hg' & _ & He0 & Ho0 & _).
  rewrite Hg in Hg'. injection Hg' as <- ->.
  assert (Hrun : findEntityByName now n (Some b) db
                 = match List.filter
                           (fun e => jseqb (ent_name e) n
                                     && (ent_branch_id e =? br_id br))
                           (entities db) with
                   | [] => (db0, Ok None)
                   | e :: _ =>
                       (db0,
                        Ok (Some (convertRowToEntity e
                                    (group_concat
                                       (map obs_content
                                            (observations_of e db)))
                                    db0)))
                   end).
  { unfold findEntityByName. rewrite Hb. unfold bind at 1. unfold bind at 1.
    rewrite Hg. unfold ret at 1. unfold bind at 1. unfold query at 1.
    unfold given_id. apply Z.eqb_neq in Hid. rewrite Hid. rewrite He0.
    destruct (List.filter _ (entities db)) as [|e rest]; [reflexivity|].
    cbn [map]. unfold bind, convertRowsToEntities, query, ret.
    cbn [map hd_error fst snd]. unfold observations_of. now rewrite Ho0. }
  rewrite Hrun. unfold find_entity.
  pose proof (filter_find_head
                (fun e => jseqb (ent_name e) n
                          && (ent_branch_id e =? br_id br)) (entities db))
    as Hhead.
  destruct (find _ (entities db)) as [e|] eqn:Ef; [|now rewrite Hhead].
  destruct Hhead as [rest ->].
  apply find_some in Ef as [_ Hn]. apply andb_true_iff in Hn as [Hn _].
  apply jseqb_eq in Hn.
  cbv zeta. eexists. split; [reflexivity|].
  cbn [convertRowToEntity name entityType status observations].
  split; [exact Hn|]. split; [reflexivity|]. split; [reflexivity|].
  set (stored := map obs_content (observations_of e db)).
  unfold group_concat.
  destruct stored as [|c cs] eqn:Es; [split; reflexivity|].
  rewrite <- Es.
  assert (Hne : stored <> []) by (rewrite Es; discriminate).
  split.
  - intros Hsingle.
    destruct (join [PIPE] stored) as [|x s] eqn:Ej.
    + apply join_empty in Ej as [Ej|Ej]; contradiction.
    + cbn [truthy]. rewrite <- Ej, split_char_from_length.
      apply count_occ_join. exact Hne.
  - intros Hsingle Hall.
    destruct (join [PIPE] stored) as [|x s] eqn:Ej.
    + apply join_empty in Ej as [Ej|Ej]; contradiction.
    + cbn [truthy]. rewrite <- Ej.
      apply split_char_from_join; assumption.
Qed.

(** The entity ["alpha"] of the main branch, with its one observation. *)
Lemma findEntityByName_observations_witness :
  exists found,
    findEntityByName 5 (js "alpha") (Some (js "main")) db_alpha_beta
    = (db_alpha_beta, Ok (Some found))
    /\ observations found = [js "first"].
Proof.
  pose proof (findEntityByName_observations 5 (js "alpha") (js "main")
                db_alpha_beta db_alpha_beta 1 eq_refl eq_refl
                ltac:(discriminate)) as H.
  assert (Hf : find_entity (js "alpha") 1 db_alpha_beta
               = Some (nth 0 (entities db_alpha_beta)
                           (nth 0 (entities db_alpha_beta)
                                {| ent_id := 0; ent_name := [];
                                   ent_entity_type := []; ent_branch_id := 0;
                                   ent_status := active;
                                   ent_status_reason := None;
                                   ent_original_content :=
                                     {| content_name := [];
                                        content_entityType := [];
                                        content_observations := [] |};
                                   ent_optimized_content :=
                                     {| content_name := [];
                                        content_entityType := [];
                                        content_observations := [] |};
                                   ent_created_at := 0; ent_updated_at := 0;
                                   ent_last_accessed := 0 |})))
    by (vm_compute; reflexivity).
  rewrite Hf in H. cbv zeta in H.
  destruct H as (found & Hrun & _ & _ & _ & _ & Hobs).
  exists found. split; [exact Hrun|].
  rewrite Hobs; [vm_compute; reflexivity|vm_compute; discriminate|].
  vm_compute. repeat constructor; intros H;
    repeat (destruct H as [H|H]; [discriminate H|]); exact H.
Defined.

(** ** Search: every entity once *)

Lemma map_get_In (id : Z) (m : list (Z * Row)) (v : Row) :
  map_get id m = Some v -> In (id, v) m.
Proof.
  induction m as [|[k w] m IH]; [discriminate|]. cbn [map_get].
  destruct (Z.eqb_spec k id) as [->|_].
  - intros [= ->]. now left.
  - intros H. right. apply IH. exact H.
Qed.

Lemma map_get_None (id : Z) (m : list (Z * Row)) :
  map_get id m = None -> ~ In id (map fst m).
Proof.
  induction m as [|[k w] m IH]; [intros _ []|]. cbn [map_get map fst].
  destruct (Z.eqb_spec k id) as [->|Hne]; [discriminate|].
  intros H [Hk|Hin]; [congruence|]. exact (IH H Hin).
Qed.

Lemma map_set_keys (id : Z) (v : Row) (m : list (Z * Row)) :
  map fst (map_set id v m)
  = if is_some (map_get id m) then map fst m else map fst m ++ [id].
Proof.
  induction m as [|[k w] m IH]; [reflexivity|]. cbn [map_set map_get].
  destruct (Z.eqb_spec k id) as [->|_]; [reflexivity|].
  cbn [map fst]. rewrite IH. now destruct (is_some (map_get id m)).
Qed.

Lemma map_set_In (id : Z) (v : Row) (m : list (Z * Row)) (kv : Z * Row) :
  In kv (map_set id v m) -> kv = (id, v) \/ In kv m.
Proof.
  induction m as [|[k w] m IH]; cbn [map_set].
  - intros [<-|[]]. now left.
  - destruct (Z.eqb_spec k id) as [->|_].
    + intros [<-|H]; [now left|right; now right].
    + intros [<-|H]; [right; now left|].
      destruct (IH H) as [->|Hin]; [now left|right; now right].
Qed.

Lemma NoDup_snoc {A : Type} (x : A) (l : list A) :
  ~ In x l -> List.NoDup l -> List.NoDup (l ++ [x]).
Proof.
  induction l as [|y l IH]; intros Hx Hnd.
  - constructor; [intros []|constructor].
  - apply List.NoDup_cons_iff in Hnd as [Hy Hl]. cbn [app]. constructor.
    + rewrite in_app_iff. intros [Hin|[->|[]]]; [exact (Hy Hin)|].
      apply Hx. now left.
    + apply IH; [|exact Hl]. intros Hin. apply Hx. now right.
Qed.

Lemma map_set_keyed (id : Z) (v : Row) (m : list (Z * Row)) :
  row_id v = id -> keyed_by_id m -> keyed_by_id (map_set id v m).
Proof.
  intros Hv [Hnd Hk]. split.
  - rewrite map_set_keys. destruct (map_get id m) eqn:E; [exact Hnd|].
    cbn [is_some]. apply NoDup_snoc; [exact (map_get_None _ _ E)|exact Hnd].
  - intros kv Hin. apply map_set_In in Hin as [->|Hin]; [exact Hv|].
    apply Hk. exact Hin.
Qed.

Lemma merge_strategy_keyed (bonus : Q) (found : list Row)
    (results : list (Z * Row)) :
  keyed_by_id results -> keyed_by_id (merge_strategy bonus found results).
Proof.
  unfold merge_strategy. revert results.
  induction found as [|r found IH]; intros results Hk; [exact Hk|].
  cbn [fold_left]. apply IH.
  destruct (map_get (ent_id (row_entity r)) results) as [existing|] eqn:E.
  - apply map_set_keyed; [|exact Hk].
    apply map_get_In in E. exact (proj2 Hk _ E).
  - apply map_set_keyed; [reflexivity|exact Hk].
Qed.

Lemma keyword_merge_keyed (found : list Row) (results : list (Z * Row)) :
  keyed_by_id results ->
  keyed_by_id
    (fold_left
       (fun results result =>
          map_set (ent_id (row_entity result))
                  (with_score result (relevance_score result + 15)%Q)
                  results)
       found results).
Proof.
  revert results. induction found as [|r found IH]; intros results Hk;
    [exact Hk|].
  cbn [fold_left]. apply IH. apply map_set_keyed; [reflexivity|exact Hk].
Qed.

Lemma NoDup_map_stdpp_filter {A B : Type} (f : A -> B) (P : A -> Prop)
    `{forall x, Decision (P x)} (l : list A) :
  List.NoDup (map f l) -> List.NoDup (map f (filter P l)).
Proof.
  induction l as [|x l IH]; [intros _; constructor|].
  cbn [map]. intros Hnd. apply List.NoDup_cons_iff in Hnd as [Hx Hl].
  rewrite filter_cons. destruct (decide (P x)); [|apply IH; exact Hl].
  cbn [map]. constructor; [|apply IH; exact Hl].
  intros Hin. apply Hx. apply in_map_iff in Hin as (y & Hy & Hin).
  apply in_map_iff. exists y. split; [exact Hy|].
  apply list_elem_of_In. apply list_elem_of_In in Hin.
  apply list_elem_of_filter in Hin as [_ Hin]. exact Hin.
Qed.

Lemma NoDup_map_insert_desc {A B : Type} (key : A -> Q) (f : A -> B) (x : A)
    (l : list A) :
  List.NoDup (map f (x :: l)) -> List.NoDup (map f (insert_desc key x l)).
Proof.
  induction l as [|y l IH]; [exact (fun H => H)|].
  cbn [insert_desc]. destruct (Qle_bool (key y) (key x)); [exact (fun H => H)|].
  cbn [map]. intros Hnd.
  apply List.NoDup_cons_iff in Hnd as [Hx Hnd].
  apply List.NoDup_cons_iff in Hnd as [Hy Hl].
  constructor.
  - intros Hin. apply in_map_iff in Hin as (z & Hz & Hin).
    apply insert_desc_In in Hin as [->|Hin].
    + apply Hx. left. symmetry. exact Hz.
    + apply Hy. apply in_map_iff. exists z. split; assumption.
  - apply IH. cbn [map]. constructor; [|exact Hl].
    intros Hin. apply Hx. right. exact Hin.
Qed.

Lemma NoDup_map_sort_desc {A B : Type} (key : A -> Q) (f : A -> B)
    (l : list A) :
  List.NoDup (map f l) -> List.NoDup (map f (sort_desc key l)).
Proof.
  induction l as [|x l IH]; [exact (fun H => H)|].
  cbn [sort_desc map]. intros Hnd. apply NoDup_map_insert_desc.
  apply List.NoDup_cons_iff in Hnd as [Hx Hl].
  cbn [map]. constructor; [|apply IH; exact Hl].
  intros Hin. apply Hx. apply in_map_iff in Hin as (z & Hz & Hin).
  apply sort_desc_In in Hin. apply in_map_iff. exists z. split; assumption.
Qed.

Lemma NoDup_firstn {A : Type} (n : nat) (l : list A) :
  List.NoDup l -> List.NoDup (firstn n l).
Proof.
  revert l. induction n as [|n IH]; intros [|x l] Hnd; cbn [firstn];
    try constructor.
  - apply List.NoDup_cons_iff in Hnd as [Hx _].
    intros Hin. apply Hx. eapply firstn_In_inv; exact Hin.
  - apply IH. now apply List.NoDup_cons_iff in Hnd as [_ Hl].
Qed.

(** X17: the merged search result names no entity twice, whatever the
    three strategies return and however they overlap, and every row of it
    has a relevance above zero. *)
Theorem executeEnhancedSearch_distinct {engine : FtsEngine}
    (searchTerms : list jsstring) (branchId : option Z)
    (includeStatuses : option (list EntityStatus)) (db : DB) :
  let results :=
    executeEnhancedSearch searchTerms branchId includeStatuses db in
  List.NoDup (map row_id results)
  /\ List.Forall (fun r => (0 < relevance_score r)%Q) results.
Proof.
  unfold executeEnhancedSearch. destruct searchTerms as [|t ts].
  - split; constructor.
  - cbv zeta.
    set (m := merge_strategy 5 _ _).
    assert (Hk : keyed_by_id m).
    { subst m. apply merge_strategy_keyed, merge_strategy_keyed,
        keyword_merge_keyed.
      split; [constructor|intros kv []]. }
    split.
    + rewrite <- firstn_map. apply NoDup_firstn.
      apply NoDup_map_sort_desc, NoDup_map_stdpp_filter.
      destruct Hk as [Hnd Hkeys].
      rewrite map_map.
      rewrite (map_ext_in (fun kv => row_id (snd kv)) fst); [exact Hnd|].
      exact Hkeys.
    + apply List.Forall_forall. intros r Hin.
      apply firstn_In_inv in Hin. apply sort_desc_In in Hin.
      apply list_elem_of_In, list_elem_of_filter in Hin as [Hpos _].
      apply Qgtb_lt. exact Hpos.
Qed.

(** *** Rows of equal score keep the order of the strategies *)

Lemma before_firstn {A : Type} (n : nat) (l : list A) (a b : A) :
  before (firstn n l) a b -> before l a b.
Proof.
  intros (l1 & l2 & Hl & Hb). exists l1, (l2 ++ skipn n l).
  rewrite <- (firstn_skipn n l) at 1. rewrite Hl, <- app_assoc.
  split; [reflexivity|]. apply in_or_app. now left.
Qed.

Lemma before_filter_intro {A : Type} (p : A -> bool) (l : list A) (a b : A) :
  before l a b -> p a = true -> p b = true -> before (List.filter p l) a b.
Proof.
  intros (l1 & l2 & -> & Hb) Ha Hpb.
  exists (List.filter p l1), (List.filter p l2).
  rewrite List.filter_app. cbn [List.filter]. rewrite Ha.
  split; [reflexivity|]. apply filter_In. split; assumption.
Qed.

Lemma before_cons {A : Type} (x : A) (l : list A) (a b : A) :
  before l a b -> before (x :: l) a b.
Proof.
  intros (l1 & l2 & -> & Hb). exists (x :: l1), l2. split; [reflexivity|exact Hb].
Qed.

Lemma before_filter_elim {A : Type} (p : A -> bool) (l : list A) (a b : A) :
  before (List.filter p l) a b -> before l a b.
Proof.
  induction l as [|x l IH]; intros (l1 & l2 & Hl & Hb).
  - destruct l1; discriminate Hl.
  - cbn [List.filter] in Hl. destruct (p x).
    + destruct l1 as [|y l1]; cbn [app] in Hl; injection Hl as -> Hl.
      * exists [], l. split; [reflexivity|].
        assert (Hin : In b (List.filter p l)) by (rewrite Hl; exact Hb).
        apply filter_In in Hin. exact (proj1 Hin).
      * apply before_cons, IH. exists l1, l2. split; assumption.
    + apply before_cons, IH. exists l1, l2. split; assumption.
Qed.

Lemma before_stdpp_filter_elim {A : Type} (P : A -> Prop)
    `{forall x, Decision (P x)} (l : list A) (a b : A) :
  before (filter P l) a b -> before l a b.
Proof.
  induction l as [|x l IH]; intros (l1 & l2 & Hl & Hb).
  - destruct l1; discriminate Hl.
  - rewrite filter_cons in Hl. destruct (decide (P x)).
    + destruct l1 as [|y l1]; cbn [app] in Hl; injection Hl as -> Hl.
      * exists [], l. split; [reflexivity|].
        assert (Hin : In b (filter P l)) by (rewrite Hl; exact Hb).
        apply list_elem_of_In, list_elem_of_filter in Hin as [_ Hin].
        apply list_elem_of_In. exact Hin.
      * apply before_cons, IH. exists l1, l2. split; assumption.
    + apply before_cons, IH. exists l1, l2. split; assumption.
Qed.

Lemma before_map {A B : Type} (f : A -> B) (l : list A) (a b : A) :
  before l a b -> before (map f l) (f a) (f b).
Proof.
  intros (l1 & l2 & -> & Hb). exists (map f l1), (map f l2).
  rewrite map_app. split; [reflexivity|]. apply in_map. exact Hb.
Qed.

Lemma before_snoc {A : Type} (l : list A) (x a b : A) :
  before (l ++ [x]) a b -> before l a b \/ (In a l /\ b = x).
Proof.
  intros (l1 & l2 & Hl & Hb).
  destruct (exists_last (l := l2)) as (l2' & y & ->);
    [intros ->; destruct Hb|].
  change (l1 ++ a :: l2' ++ [y]) with (l1 ++ (a :: l2') ++ [y]) in Hl.
  rewrite app_assoc in Hl. apply app_inj_tail in Hl as [-> ->].
  apply in_app_or in Hb as [Hb|[<-|[]]].
  - left. exists l1, l2'. split; [reflexivity|exact Hb].
  - right. split; [|reflexivity]. apply in_or_app. right. now left.
Qed.

(** The sort keeps rows of equal key in their order. *)
Lemma before_sort_desc {A : Type} (key : A -> Q) (l : list A) (a b : A) :
  before (sort_desc key l) a b -> (key a == key b)%Q -> before l a b.
Proof.
  intros Hb Heq.
  apply (before_filter_elim (fun y => Qeq_bool (key y) (key a))).
  rewrite <- sort_desc_stable. apply before_filter_intro; [exact Hb| |].
  - apply Qeq_bool_iff. reflexivity.
  - apply Qeq_bool_iff. symmetry. exact Heq.
Qed.

Lemma map_get_existsb (id : Z) (m : list (Z * Row)) :
  is_some (map_get id m) = existsb (Z.eqb id) (map fst m).
Proof.
  induction m as [|[k w] m IH]; [reflexivity|]. cbn [map_get map fst existsb].
  rewrite (Z.eqb_sym id k). destruct (k =? id); [reflexivity|exact IH].
Qed.

Lemma merge_strategy_keys (bonus : Q) (found : list Row)
    (results : list (Z * Row)) :
  map fst (merge_strategy bonus found results)
  = add_keys (map fst results) (map row_id found).
Proof.
  unfold merge_strategy. revert results.
  induction found as [|r found IH]; intros results; [reflexivity|].
  cbn [fold_left map add_keys]. rewrite IH. f_equal.
  rewrite <- map_get_existsb. unfold row_id.
  destruct (map_get (ent_id (row_entity r)) results) eqn:E;
    rewrite map_set_keys, E; reflexivity.
Qed.

Lemma keyword_merge_keys (found : list Row) (results : list (Z * Row)) :
  map fst
    (fold_left
       (fun results result =>
          map_set (ent_id (row_entity result))
                  (with_score result (relevance_score result + 15)%Q)
                  results)
       found results)
  = add_keys (map fst results) (map row_id found).
Proof.
  revert results. induction found as [|r found IH]; intros results;
    [reflexivity|].
  cbn [fold_left map add_keys]. rewrite IH. f_equal.
  rewrite <- map_get_existsb, map_set_keys. reflexivity.
Qed.

Lemma add_keys_app (keys ids ids' : list Z) :
  add_keys keys (ids ++ ids') = add_keys (add_keys keys ids) ids'.
Proof.
  revert keys. induction ids as [|i r IH]; intros keys; [reflexivity|].
  cbn [app add_keys]. apply IH.
Qed.

(** Where two keys stand in the [Map] after some ids have been set. *)
Lemma add_keys_before (ids keys : list Z) (i j : Z) :
  before (add_keys keys ids) i j ->
  before keys i j
  \/ (In i keys /\ ~ In j keys)
  \/ (~ In i keys /\ ~ In j keys /\ first_produced_before ids i j).
Proof.
  revert keys. induction ids as [|x r IH]; intros keys Hb; [now left|].
  cbn [add_keys] in Hb.
  assert (Hshift : forall l1 l2, r = l1 ++ i :: l2 -> ~ In j l1 -> i <> j ->
                                 j <> x -> first_produced_before (x :: r) i j).
  { intros l1 l2 -> Hj Hij Hjx. exists (x :: l1), l2.
    split; [reflexivity|]. split; [|exact Hij].
    intros [Hx|Hin]; [congruence|exact (Hj Hin)]. }
  destruct (existsb (Z.eqb x) keys) eqn:Ex.
  - assert (Hx : In x keys).
    { apply existsb_exists in Ex as (y & Hy & Hxy).
      apply Z.eqb_eq in Hxy. now subst y. }
    destruct (IH keys Hb) as [H|[H|(Hi & Hj & l1 & l2 & Hr & Hjl & Hij)]];
      [now left|right; now left|].
    right. right. split; [exact Hi|]. split; [exact Hj|].
    apply (Hshift l1 l2 Hr Hjl Hij). intros ->. exact (Hj Hx).
  - assert (Hx : ~ In x keys).
    { intros Hin.
      assert (existsb (Z.eqb x) keys = true)
        by (apply existsb_exists; exists x; split;
            [exact Hin|apply Z.eqb_refl]).
      congruence. }
    destruct (IH (keys ++ [x]) Hb)
      as [H|[[Hi Hj]|(Hi & Hj & l1 & l2 & Hr & Hjl & Hij)]].
    + apply before_snoc in H as [H|[Hi ->]]; [now left|].
      right. left. split; assumption.
    + assert (Hjk : ~ In j keys)
        by (intros Hin; apply Hj, in_or_app; now left).
      assert (Hjx : j <> x)
        by (intros ->; apply Hj, in_or_app; right; now left).
      apply in_app_or in Hi as [Hi|[<-|[]]].
      * right. left. split; assumption.
      * right. right. split; [exact Hx|]. split; [exact Hjk|].
        exists [], r. split; [reflexivity|]. split; [intros []|congruence].
    + right. right.
      split; [intros Hin; apply Hi, in_or_app; now left|].
      split; [intros Hin; apply Hj, in_or_app; now left|].
      apply (Hshift l1 l2 Hr Hjl Hij).
      intros ->. apply Hj, in_or_app. right. now left.
Qed.

(** C5, as amended: the merged search result list is sorted by
    decreasing relevance score and holds at most 50 rows; rows of equal
    score are not ordered by [last_accessed]: they stand in the order in
    which the strategies produced their entities, the keyword strategy
    first, then the full-text strategy, then the LIKE strategy. *)
Theorem executeEnhancedSearch_sorted {engine : FtsEngine}
    (searchTerms : list jsstring) (branchId : option Z)
    (includeStatuses : option (list EntityStatus)) (db : DB) :
  let results :=
    executeEnhancedSearch searchTerms branchId includeStatuses db in
  sorted_desc relevance_score results
  /\ (length results <= 50)%nat
  /\ forall a b,
       before results a b ->
       (relevance_score a == relevance_score b)%Q ->
       first_produced_before
         (produced_ids searchTerms branchId includeStatuses db)
         (row_id a) (row_id b).
Proof.
  unfold executeEnhancedSearch, produced_ids.
  destruct searchTerms as [|t ts].
  - split; [exact I|]. split; [simpl; lia|].
    intros a b (l1 & l2 & Hl & _). destruct l1; discriminate Hl.
  - cbv zeta. split; [apply firstn_sorted, sort_desc_sorted|].
    split; [rewrite length_firstn; lia|].
    set (searchTerms := t :: ts).
    set (m := merge_strategy 5 _ _).
    assert (Hk : keyed_by_id m).
    { subst m. apply merge_strategy_keyed, merge_strategy_keyed,
        keyword_merge_keyed.
      split; [constructor|intros kv []]. }
    assert (Hkeys : map fst m
                    = add_keys []
                        (map row_id
                           (searchByKeywords searchTerms branchId
                              includeStatuses db
                            ++ searchByFTS searchTerms branchId
                                 includeStatuses db
                            ++ searchByLike searchTerms branchId
                                 includeStatuses db))).
    { subst m. rewrite !map_app, !add_keys_app.
      rewrite !merge_strategy_keys, keyword_merge_keys. reflexivity. }
    intros a b Hb Heq.
    apply before_firstn in Hb.
    apply before_sort_desc in Hb; [|exact Heq].
    apply before_stdpp_filter_elim in Hb.
    apply (before_map row_id) in Hb.
    rewrite map_map in Hb.
    rewrite (map_ext_in (fun kv => row_id (snd kv)) fst) in Hb
      by exact (proj2 Hk).
    rewrite Hkeys in Hb.
    apply add_keys_before in Hb
      as [(l1 & l2 & Hl & _)|[[[] _]|(_ & _ & Hfirst)]];
      [destruct l1; discriminate Hl|exact Hfirst].
Qed.

(** ** Search: the terms of a query *)

Lemma split_runs_from_no_separator (is_sep : N -> bool) (s cur : jsstring)
    (in_run : bool) :
  List.Forall (fun c => is_sep c = false) cur ->
  List.Forall (List.Forall (fun c => is_sep c = false))
              (split_runs_from is_sep cur in_run s).
Proof.
  revert cur in_run. induction s as [|c r IH]; intros cur in_run Hcur.
  - cbn [split_runs_from]. constructor; [|constructor].
    apply List.Forall_forall. intros x Hx. apply in_rev in Hx.
    exact (proj1 (List.Forall_forall _ _) Hcur x Hx).
  - cbn [split_runs_from]. destruct (is_sep c) eqn:E.
    + destruct in_run; [apply IH; constructor|].
      constructor; [|apply IH; constructor].
      apply List.Forall_forall. intros x Hx. apply in_rev in Hx.
      exact (proj1 (List.Forall_forall _ _) Hcur x Hx).
    + apply IH. constructor; assumption.
Qed.

Lemma trim_without_space (s : jsstring) :
  List.Forall (fun c => is_space c = false) s -> trim s = s.
Proof.
  intros Hs. unfold trim, trimEnd.
  assert (Hfix : forall t, List.Forall (fun c => is_space c = false) t ->
                           trimStart t = t).
  { intros [|c t] Ht; [reflexivity|]. cbn [trimStart].
    inversion Ht as [|? ? Hc _]; subst. now rewrite Hc. }
  rewrite (Hfix s Hs), Hfix, rev_involutive; [reflexivity|].
  apply List.Forall_forall. intros x Hx. apply in_rev in Hx.
  exact (proj1 (List.Forall_forall _ _) Hs x Hx).
Qed.

Lemma unique_terms_spec (seen terms : list jsstring) :
  List.NoDup (unique_terms seen terms)
  /\ forall t, In t (unique_terms seen terms) ->
               In t terms /\ ~ In t seen.
Proof.
  revert seen. induction terms as [|t terms IH]; intros seen.
  - split; [constructor|intros t []].
  - cbn [unique_terms]. destruct (name_in seen t) eqn:E.
    + destruct (IH seen) as [Hnd Hin]. split; [exact Hnd|].
      intros u Hu. destruct (Hin u Hu) as [H1 H2].
      split; [right; exact H1|exact H2].
    + destruct (IH (t :: seen)) as [Hnd Hin]. split.
      * constructor; [|exact Hnd]. intros Ht.
        destruct (Hin t Ht) as [_ Hnot]. apply Hnot. now left.
      * intros u [<-|Hu].
        -- split; [now left|]. intros Hs.
           unfold name_in in E.
           assert (Hex : existsb (jseqb t) seen = true).
           { apply existsb_exists. exists t. split; [exact Hs|].
             apply jseqb_refl. }
           congruence.
        -- destruct (Hin u Hu) as [H1 H2].
           split; [right; exact H1|]. intros Hs. apply H2. now right.
Qed.

(** X18: the search terms of a query are distinct, none of them is a
    stop word, and each has at least two characters, none of which is a
    separator of the query (white space, [-], [_], [,], [.] or [/]). *)
Theorem prepareSearchTerms_terms (q : jsstring) :
  List.NoDup (prepareSearchTerms q)
  /\ List.Forall
       (fun term =>
          (2 <= length term)%nat
          /\ name_in stopWords term = false
          /\ List.Forall (fun c => is_query_separator c = false) term)
       (prepareSearchTerms q).
Proof.
  unfold prepareSearchTerms.
  set (pieces := split_runs is_query_separator (toLowerCase q)).
  assert (Hpieces : List.Forall
                      (List.Forall (fun c => is_query_separator c = false))
                      pieces)
    by (apply split_runs_from_no_separator; constructor).
  set (terms := map trim (filter _ pieces)).
  assert (Hterms : forall t, In t terms ->
             (2 <= length t)%nat
             /\ List.Forall (fun c => is_query_separator c = false) t).
  { intros t Ht. subst terms. apply in_map_iff in Ht as (p & <- & Hp).
    apply list_elem_of_In, list_elem_of_filter in Hp as [Hlen Hp].
    apply list_elem_of_In in Hp.
    pose proof (proj1 (List.Forall_forall _ _) Hpieces p Hp) as Hsep.
    rewrite trim_without_space.
    - split; [apply Nat.ltb_lt in Hlen; lia|exact Hsep].
    - apply List.Forall_forall. intros c Hc.
      pose proof (proj1 (List.Forall_forall _ _) Hsep c Hc) as H.
      unfold is_query_separator in H.
      destruct (is_space c); [discriminate H|reflexivity]. }
  destruct (unique_terms_spec [] terms) as [Hnd Hin].
  split.
  - apply NoDup_ListNoDup, NoDup_filter, NoDup_ListNoDup. exact Hnd.
  - apply List.Forall_forall. intros t Ht.
    apply list_elem_of_In, list_elem_of_filter in Ht as [Hstop Ht].
    apply list_elem_of_In in Ht. destruct (Hin t Ht) as [Ht' _].
    destruct (Hterms t Ht') as [Hlen Hsep].
    split; [exact Hlen|]. split; [|exact Hsep].
    apply negb_true_iff. exact Hstop.
Qed.

(** X19: a query without a usable term (empty, or made of separators,
    single characters and stop words) finds nothing: [searchEntities]
    answers the empty graph, without an error, and the store keeps its
    entities, observations and relations. *)
Theorem searchEntities_without_terms {engine : FtsEngine} (now : Z)
    (q : jsstring) (branchName : option jsstring)
    (includeStatuses : option (list EntityStatus)) (db : DB) :
  prepareSearchTerms q = [] ->
  exists db',
    searchEntities now q branchName includeStatuses db
    = (db', Ok {| graph_entities := []; graph_relations := [] |})
    /\ entities db' = entities db
    /\ observations_table db' = observations_table db
    /\ relations db' = relations db.
Proof.
  intros Hq.
  unfold searchEntities, performSearch, performSearch_rows. rewrite Hq.
  assert (Hb : exists db' branchId,
             (match branchName with
              | Some b =>
                  if truthy b && negb (jseqb b STAR)
                  then (id <- getBranchId now (Some b) ;; ret (Some id))
                  else ret None
              | None => ret None
              end) db = (db', Ok branchId)
             /\ entities db' = entities db
             /\ observations_table db' = observations_table db
             /\ relations db' = relations db).
  { destruct branchName as [b|]; [|exists db, None; repeat split].
    destruct (truthy b && negb (jseqb b STAR));
      [|exists db, None; repeat split].
    destruct (getBranchId_tables now (Some b) db)
      as (db0 & br & Hg & _ & He & Ho & Hr & _).
    exists db0, (Some (br_id br)). unfold bind. rewrite Hg.
    repeat split; assumption. }
  destruct Hb as (db' & branchId & Hb & He & Ho & Hr).
  exists db'. split; [|repeat split; assumption].
  unfold bind at 1. unfold bind at 1. unfold bind at 1. rewrite Hb.
  reflexivity.
Qed.

(** The query ["the of a"] on the store of ["alpha"] and ["beta"]. *)
Lemma searchEntities_without_terms_witness :
  exists db',
    @searchEntities fts_unavailable 5 (js "the of a") None None db_alpha_beta
    = (db', Ok {| graph_entities := []; graph_relations := [] |})
    /\ entities db' = entities db_alpha_beta
    /\ observations_table db' = observations_table db_alpha_beta
    /\ relations db' = relations db_alpha_beta.
Proof.
  apply (@searchEntities_without_terms fts_unavailable 5 (js "the of a")
           None None db_alpha_beta).
  vm_compute. reflexivity.
Defined.

(** ** Importing a graph *)

Lemma insert_or_ignore_relation_same_entities_and_observations
    (now a b : Z) (type : jsstring) (branchId : Z) (db : DB) :
  preserves (same_entities_and_observations db)
            (insert_or_ignore_relation now a b type branchId).
Proof.
  intros d H. unfold insert_or_ignore_relation.
  destruct (is_some _); [exact H|]. destruct (_ || _); exact H.
Qed.

Lemma createRelations_same_entities_and_observations {driver : Driver}
    (now : Z) (rels : list Relation) (branchName : option jsstring)
    (db : DB) :
  preserves (same_entities_and_observations db)
            (createRelations now rels branchName).
Proof.
  pose proof insert_branch_same_entities_and_observations.
  pose proof insert_or_ignore_relation_same_entities_and_observations.
  unfold createRelations, createRelations_body, getBranchId.
  destruct rels; store_auto.
Qed.

(** X20: [importData] stores the entities of the graph as
    [createEntities] does, and then ends as the driver takes the UPDATE of
    the branch that goes through [runQuery]: without an error when the
    driver executes it, with a TypeError when the driver refuses it. The
    entities and observations stored before the error stay stored, and
    under such a driver no relation of the graph is stored. *)
Theorem importData_outcome {driver : Driver} (now : Z)
    (data : KnowledgeGraph) (branchName : option jsstring) (db : DB) :
  exists db1 created db',
    createEntities now (graph_entities data) branchName db = (db1, Ok created)
    /\ importData now data branchName db
       = (db', if all_executes_writes then Ok tt else Err TypeError)
    /\ entities db' = entities db1
    /\ observations_table db' = observations_table db1
    /\ (all_executes_writes = false -> relations db' = relations db).
Proof.
  destruct (getBranchId_tables now branchName db)
    as (db0 & br & Hg & Hbr & _ & _ & Hr0 & _).
  pose proof (getBranchId_existing now _ _ _ Hbr) as Hg0.
  assert (Hsame : createEntities now (graph_entities data) branchName db0
                  = createEntities now (graph_entities data) branchName db)
    by (unfold createEntities, bind; now rewrite Hg, Hg0).
  destruct (proj1 (createEntities_branch now (graph_entities data) branchName)
              db) as [created Hc].
  destruct (createEntities now (graph_entities data) branchName db)
    as [db1 r1] eqn:E1.
  cbn [snd] in Hc. subst r1.
  assert (Hr1 : relations db1 = relations db).
  { assert (Hp : preserves (fun d => relations d = relations db)
                           (createEntities now (graph_entities data)
                              branchName)).
    { assert (Hb : forall n p, preserves (fun d => relations d = relations db)
                                         (insert_branch now n p))
        by (intros n p d H; unfold insert_branch;
            destruct (is_some _); exact H).
      assert (He : forall n t b s r c,
                 preserves (fun d => relations d = relations db)
                           (insert_entity now n t b s r c))
        by (intros n t b s r c d H; unfold insert_entity;
            destruct (_ || _); exact H).
      assert (Ho : forall e c o i,
                 preserves (fun d => relations d = relations db)
                           (insert_observation now e c o i))
        by (intros e c o i d H; unfold insert_observation;
            destruct (negb _); exact H).
      assert (Hk : forall k e w c,
                 preserves (fun d => relations d = relations db)
                           (insert_keyword k e w c))
        by (intros k e w c d H; unfold insert_keyword;
            destruct (negb _); exact H).
      assert (Hx : forall a b t,
                 preserves (fun d => relations d = relations db)
                           (insert_or_ignore_cross_reference now a b t))
        by (intros a b t d H; unfold insert_or_ignore_cross_reference;
            destruct (_ || _); exact H).
      unfold createEntities, createSingleEntity, createCrossReference,
        getBranchName, getBranchId.
      store_auto. }
    specialize (Hp db eq_refl). now rewrite E1 in Hp. }
  set (rels := graph_relations data).
  destruct (proj1 (createRelations_branch now rels branchName) db1)
    as [createdRelations Hcr].
  pose proof (createRelations_same_entities_and_observations now rels
                branchName db1 db1 (conj eq_refl eq_refl)) as [He2 Ho2].
  destruct (createRelations now rels branchName db1) as [db2 r2] eqn:E2.
  cbn [fst snd] in *. subst r2.
  assert (Hrun : importData now data branchName db
                 = runQuery_write (touch_branch now (br_id br))
                     (match rels with [] => db1 | _ => db2 end)).
  { unfold importData. unfold bind at 1. rewrite Hg.
    unfold bind at 1.
    assert (Hents : (match graph_entities data with
                     | [] => ret tt
                     | _ :: _ =>
                         createEntities now (graph_entities data) branchName
                         ;;; ret tt
                     end) db0 = (db1, Ok tt)).
    { destruct (graph_entities data) as [|e es] eqn:Ees.
      - unfold createEntities, bind in E1. rewrite Hg in E1.
        cbn [for_fold] in E1. unfold ret in *. congruence.
      - unfold bind. rewrite Hsame. reflexivity. }
    match goal with
    | |- context [match ?m db0 with _ => _ end] =>
        replace (m db0) with (db1, Ok tt)
    end.
    2:{ symmetry. destruct (graph_entities data); exact Hents. }
    unfold bind at 1. fold rels.
    destruct rels as [|r rs]; [reflexivity|].
    unfold bind at 1. rewrite E2. reflexivity. }
  assert (Hrefused : all_executes_writes = false ->
                     relations db2 = relations db1).
  { intros Hno.
    pose proof (proj2 (createRelations_refused now rels branchName db1 Hno))
      as H. now rewrite E2 in H. }
  exists db1, created. rewrite Hrun. unfold runQuery_write.
  destruct all_executes_writes eqn:Ex.
  - eexists. split; [reflexivity|]. split; [reflexivity|].
    unfold touch_branch. cbn [entities observations_table
                              with_memory_branches].
    destruct rels; repeat split; try assumption; discriminate.
  - eexists. split; [reflexivity|]. split; [reflexivity|].
    unfold throw.
    destruct rels; repeat split; try assumption;
      intros _; rewrite ?Hrefused by reflexivity; exact Hr1.
Qed.

(** ** The general behaviour of the calls of the examples *)

(** X21: [addObservations] for an entity of the branch appends the
    contents that are not blank, in the order given, and returns them; the
    new rows belong to the entity, and their sequence orders increase
    strictly from one more than the largest order of the entity, except
    that they start again at 0 when that largest order is 0. *)
Theorem addObservations_appends_in_order (now : Z) (n : jsstring)
    (cs : list jsstring) (branchName : option jsstring) (db : DB)
    (br : BranchRow) (e : EntityRow) :
  find_branch_by_name (branch_or_main branchName) db = Some br ->
  find_entity n (br_id br) db = Some e ->
  let max_seq := max_sequence_order (ent_id e) db in
  let startSeq := (if max_seq =? 0 then 0 else max_seq + 1) in
  exists db' rows,
    addObservations now [ {| entityName := n; contents := cs |} ] branchName db
    = (db', Ok [ {| added_entityName := n;
                    addedObservations := List.filter non_blank cs |} ])
    /\ observations_table db' = observations_table db ++ rows
    /\ map obs_content rows = List.filter non_blank cs
    /\ (forall o, In o rows -> obs_entity_id o = ent_id e)
    /\ StronglySorted Z.lt (map obs_sequence_order rows)
    /\ (forall o, In o rows -> startSeq <= obs_sequence_order o).
Proof. exact (addObservations_appends now n cs branchName db br e). Qed.

(** Two observations and a blank one for ["alpha"]. *)
Lemma addObservations_appends_in_order_witness :
  exists db' rows,
    addObservations 2
      [ {| entityName := js "alpha";
           contents := [js "second"; js " "; js "third"] |} ]
      None db_alpha_beta
    = (db', Ok [ {| added_entityName := js "alpha";
                    addedObservations := [js "second"; js "third"] |} ])
    /\ observations_table db' = observations_table db_alpha_beta ++ rows
    /\ map obs_content rows = [js "second"; js "third"].
Proof.
  destruct (addObservations_appends_in_order 2 (js "alpha")
              [js "second"; js " "; js "third"] None db_alpha_beta
              main_branch_row alpha_row eq_refl eq_refl)
    as (db' & rows & Hrun & Ho & Hc & _).
  exists db', rows. split; [exact Hrun|]. split; [exact Ho|exact Hc].
Defined.

(** X23: with a driver that refuses the INSERT that goes through
    [runQuery], [createRelations] stores no relation and returns none,
    whatever the batch, without an error. *)
Theorem createRelations_stores_nothing_when_refused {driver : Driver}
    (now : Z) (rels : list Relation) (branchName : option jsstring)
    (db : DB) :
  all_executes_writes = false ->
  exists db',
    createRelations now rels branchName db = (db', Ok [])
    /\ relations db' = relations db.
Proof.
  intros Hno.
  destruct (createRelations_refused now rels branchName db Hno) as [Hr Hs].
  destruct (createRelations now rels branchName db) as [db' r].
  cbn [fst snd] in *. subst r. exists db'. split; [reflexivity|exact Hs].
Qed.

Lemma createRelations_stores_nothing_when_refused_witness :
  exists db',
    @createRelations driver_refuses 2 [alpha_uses_beta] None db_alpha_beta
    = (db', Ok [])
    /\ relations db' = relations db_alpha_beta.
Proof.
  apply (@createRelations_stores_nothing_when_refused driver_refuses 2
           [alpha_uses_beta] None db_alpha_beta).
  reflexivity.
Defined.

(** X24: [getRelationsForEntities] returns exactly the relations whose
    row joins two entities of which at least one is named, one endpoint
    being enough, and whose row is of the branch when a branch id is given;
    without names it returns nothing. *)
Theorem getRelationsForEntities_one_endpoint_enough (names : list jsstring)
    (branchId : option Z) (db : DB) :
  exists rels,
    getRelationsForEntities names branchId db = (db, Ok rels)
    /\ forall r,
         In r rels <->
         names <> []
         /\ exists row ef et,
              In row (relations db)
              /\ find_entity_by_id (rel_from_entity_id row) db = Some ef
              /\ find_entity_by_id (rel_to_entity_id row) db = Some et
              /\ r = {| from := ent_name ef; to := ent_name et;
                        relationType := rel_relation_type row |}
              /\ (name_in names (ent_name ef) = true
                  \/ name_in names (ent_name et) = true)
              /\ forall id, given_id branchId = Some id ->
                            rel_branch_id row = id.
Proof.
  unfold getRelationsForEntities. destruct names as [|n ns].
  - exists []. split; [reflexivity|]. intros r.
    split; [intros []|intros [H _]; now destruct H].
  - eexists. split; [reflexivity|]. unfold select_relations. intros r. split.
    + intros Hr. split; [discriminate|].
      apply in_flat_map in Hr as (row & Hrow & Hr).
      destruct (find_entity_by_id (rel_from_entity_id row) db) as [ef|] eqn:Ef;
        [|destruct Hr].
      destruct (find_entity_by_id (rel_to_entity_id row) db) as [et|] eqn:Et;
        [|destruct Hr].
      destruct (_ && _) eqn:Ec; [|destruct Hr]. destruct Hr as [<-|[]].
      apply andb_true_iff in Ec as [Hany Hbranch].
      exists row, ef, et. repeat split; try assumption.
      * apply orb_true_iff. exact Hany.
      * intros id Hid. rewrite Hid in Hbranch. apply Z.eqb_eq. exact Hbranch.
    + intros (_ & row & ef & et & Hrow & Ef & Et & -> & Hany & Hbranch).
      apply in_flat_map. exists row. split; [exact Hrow|].
      rewrite Ef, Et.
      apply orb_true_iff in Hany. rewrite Hany. cbn [andb].
      destruct (given_id branchId) as [id|] eqn:Eg.
      * rewrite (Hbranch id eq_refl), Z.eqb_refl. now left.
      * now left.
Qed.

(** ** Creating one entity *)

(** The keywords of [createSingleEntity]: the loop succeeds for an entity
    that is stored, and writes keywords only. *)
Lemma insert_keywords_loop (entityId : Z) (kws : list jsstring) (db : DB) :
  is_some (find_entity_by_id entityId db) = true ->
  exists db',
    for_fold kws tt
      (fun (_ : unit) keyword =>
         if truthy keyword && truthy (trim keyword) then
           insert_keyword (toLowerCase (trim keyword)) entityId 1
             (js "entity_content")
         else ret tt) db = (db', Ok tt)
    /\ entities db' = entities db
    /\ observations_table db' = observations_table db
    /\ memory_branches db' = memory_branches db.
Proof.
  revert db. induction kws as [|k kws IH]; intros db Hid.
  - exists db. repeat split.
  - cbn [for_fold]. unfold bind at 1.
    destruct (truthy k && truthy (trim k)).
    + unfold insert_keyword at 1. rewrite Hid. cbn [negb].
      set (db1 := with_keywords db _ _).
      destruct (IH db1 Hid) as (db' & Hl & He & Ho & Hm).
      exists db'. split; [exact Hl|]. repeat split; assumption.
    + unfold ret at 1. apply IH. exact Hid.
Qed.

(** X25: [createSingleEntity] in a branch that exists. The name and the
    type are trimmed, with the fallbacks ["Unnamed Entity"] and
    ["Unknown"]. When the branch has an entity of that name already, the
    call fails with the duplicate error and writes nothing. Otherwise it
    succeeds: the entity gets one new row, the last of the table, with the
    status given (active when none is), and the observations that are not
    blank are appended for it in order, numbered from 0; the entity
    returned carries this name and these observations. *)
Theorem createSingleEntity_outcome (now : Z) (entity : Entity)
    (branchId : Z) (db : DB) :
  is_some (find_branch_by_id branchId db) = true ->
  let validName := trimmed_or (name entity) (js "Unnamed Entity") in
  let validObservations := List.filter non_blank (observations entity) in
  match find_entity validName branchId db with
  | Some _ =>
      createSingleEntity now entity branchId db
      = (db, Err (EntityAlreadyExists validName))
  | None =>
      exists db' created e,
        createSingleEntity now entity branchId db = (db', Ok created)
        /\ name created = validName
        /\ observations created = validObservations
        /\ entities db' = entities db ++ [e]
        /\ find_entity validName branchId db' = Some e
        /\ ent_name e = validName
        /\ ent_branch_id e = branchId
        /\ ent_entity_type e = trimmed_or (entityType entity) (js "Unknown")
        /\ ent_status e
           = match status entity with Some s => s | None => active end
        /\ map observation_key (observations_table db')
           = map observation_key (observations_table db)
             ++ map (fun '(i, o) => (ent_id e, o, o, i))
                    (indexed_from 0 validObservations)
  end.
Proof.
  intros Hbr validName validObservations.
  assert (Hvalid : filter (fun obs => truthy obs && truthy (trim obs) = true)
                          (observations entity) = validObservations).
  { subst validObservations. unfold non_blank.
    induction (observations entity) as [|o l IH]; [reflexivity|].
    rewrite filter_cons. cbn [List.filter].
    destruct (truthy o && truthy (trim o)) eqn:E.
    - rewrite decide_True by reflexivity. now rewrite IH.
    - rewrite decide_False by discriminate. exact IH. }
  destruct (find_entity validName branchId db) as [x|] eqn:Ef;
    unfold createSingleEntity; cbv zeta; fold validName; rewrite Hvalid;
    unfold bind at 1; unfold query at 1; rewrite Ef; [reflexivity|].
  unfold bind at 1. unfold insert_entity at 1. rewrite Ef, Hbr.
  cbn [is_some negb orb].
  set (e := {| ent_id := next_rowid (seq_entities db)
                                    (map ent_id (entities db));
               ent_name := validName |}).
  set (db1 := with_entities db (entities db ++ [e]) _).
  assert (Hf1 : find_entity validName branchId db1 = Some e).
  { unfold find_entity in *. subst db1. cbn [entities with_entities].
    rewrite find_snoc, Ef. subst e. cbn [ent_name ent_branch_id].
    now rewrite jseqb_refl, Z.eqb_refl. }
  unfold bind at 1. unfold query at 1. rewrite Hf1.
  pose proof (find_entity_id _ _ _ _ Hf1) as Hid1.
  destruct (insert_observations_loop now (ent_id e) validObservations 0 db1
              Hid1) as (db2 & Hl2 & Ho2 & He2 & Hrest2).
  unfold bind at 1. rewrite Hl2.
  assert (Hid2 : is_some (find_entity_by_id (ent_id e) db2) = true)
    by (unfold find_entity_by_id in *; now rewrite He2).
  assert (Hkw : exists db3,
             (match keywordData entity with
              | Some keywords =>
                  for_fold keywords tt
                    (fun (_ : unit) keyword =>
                       if truthy keyword && truthy (trim keyword) then
                         insert_keyword (toLowerCase (trim keyword))
                           (ent_id e) 1 (js "entity_content")
                       else ret tt)
              | None => ret tt
              end) db2 = (db3, Ok tt)
             /\ entities db3 = entities db2
             /\ observations_table db3 = observations_table db2
             /\ memory_branches db3 = memory_branches db2).
  { destruct (keywordData entity) as [kws|].
    - apply insert_keywords_loop. exact Hid2.
    - exists db2. repeat split. }
  destruct Hkw as (db3 & Hl3 & He3 & Ho3 & Hm3).
  unfold bind at 1. rewrite Hl3.
  assert (Hcross : exists db4,
             (match crossRefs entity with
              | [] => ret tt
              | _ :: _ =>
                  branchName0 <- getBranchName branchId ;;
                  for_fold (crossRefs entity) tt
                    (fun (_ : unit) crossRef =>
                       try_catch
                         (createCrossReference now validName
                            (memoryBranch crossRef) (entityNames crossRef)
                            (Some branchName0))
                         (fun _ => ret tt))
              end) db3 = (db4, Ok tt)
             /\ same_entities_and_observations db3 db4).
  { destruct (crossRefs entity) as [|c cs] eqn:Ec.
    - exists db3. split; [reflexivity|split; reflexivity].
    - unfold bind at 1. unfold getBranchName. unfold bind at 1.
      unfold query at 1.
      assert (Hb3 : is_some (find_branch_by_id branchId db3) = true).
      { injection Hrest2 as Hm2 _ _ _.
        unfold find_branch_by_id in *. rewrite Hm3, Hm2. exact Hbr. }
      destruct (find_branch_by_id branchId db3) as [b|]; [|discriminate Hb3].
      unfold ret at 1. apply crossRefs_loop. }
  destruct Hcross as (db4 & Hl4 & He4 & Ho4).
  unfold bind at 1.
  match goal with
  | |- context [match ?m db3 with _ => _ end] =>
      replace (m db3) with (db4, Ok tt)
  end.
  2:{ symmetry. destruct (crossRefs entity); exact Hl4. }
  unfold bind at 1. unfold query at 1. unfold ret at 1.
  assert (Hent4 : entities db4 = entities db ++ [e])
    by (rewrite He4, He3, He2; reflexivity).
  eexists. eexists. exists e. split; [reflexivity|].
  cbn [name observations].
  split; [reflexivity|]. split; [reflexivity|]. split; [exact Hent4|].
  split; [unfold find_entity in *; rewrite Hent4; exact Hf1|].
  split; [reflexivity|]. split; [reflexivity|]. split; [reflexivity|].
  split; [reflexivity|].
  rewrite Ho4, Ho3, Ho2. reflexivity.
Qed.

(** A third entity, ["gamma"], for the main branch of the store of
    ["alpha"] and ["beta"]. *)
Lemma createSingleEntity_outcome_witness :
  exists db' created e,
    createSingleEntity 5 (mkEntity " gamma " "Service" ["one"; " "]%string)
      1 db_alpha_beta = (db', Ok created)
    /\ name created = js "gamma"
    /\ observations created = [js "one"]
    /\ entities db' = entities db_alpha_beta ++ [e].
Proof.
  pose proof (createSingleEntity_outcome 5
                (mkEntity " gamma " "Service" ["one"; " "]%string)
                1 db_alpha_beta eq_refl) as H.
  cbv zeta in H.
  assert (Hn : trimmed_or (name (mkEntity " gamma " "Service"
                                   ["one"; " "]%string))
                 (js "Unnamed Entity") = js "gamma")
    by (vm_compute; reflexivity).
  rewrite Hn in H.
  assert (Hf : find_entity (js "gamma") 1 db_alpha_beta = None)
    by (vm_compute; reflexivity).
  rewrite Hf in H.
  destruct H as (db' & created & e & Hrun & Hname & Hobs & Hent & _).
  exists db', created, e. split; [exact Hrun|]. split; [exact Hname|].
  split; [rewrite Hobs; vm_compute; reflexivity|exact Hent].
Defined.
